(** * SocialCentral: the broadcast registry and the database pool

    A shallow embedding of [src/server/websocket_manager.py] and of the
    registry and pool parts of [src/server/fastapi_server.py], followed by
    the properties the specification states about them.

    Coroutines ([async def]) are run to completion one at a time: an
    [await] is a call, and no other task runs in between.  What a coroutine
    does to the outside world (handshakes, sends, the console) is kept in
    an explicit state that every method threads through. *)

From stdpp Require Import gmap strings list pretty.

(** ** Fragments of the Python runtime *)

(** [list.remove(x)]: drops the first element equal to [x]; [None] stands
    for the [ValueError] Python raises when there is none. *)
Fixpoint py_remove {A} `{EqDecision A} (x : A) (l : list A) : option (list A) :=
  match l with
  | [] => None
  | y :: l' => if decide (x = y) then Some l' else cons y <$> py_remove x l'
  end.

(** The list an [if x in l: l.remove(x)] leaves behind. *)
Definition discard {A} `{EqDecision A} (x : A) (l : list A) : list A :=
  default l (py_remove x l).

(** The list left after discarding each of [dead] in turn. *)
Definition prune {A} `{EqDecision A} (dead l : list A) : list A :=
  foldl (λ acc x, discard x acc) l dead.

(** The number of entries of [l] equal to [x]. *)
Definition occurrences {A} `{EqDecision A} (x : A) (l : list A) : nat :=
  length (filter (x =.) l).

(** How a call ends: with a value, or with an exception. *)
Inductive result (E A : Type) : Type :=
  | Return (a : A)
  | Raise (e : E).
Arguments Return {E A} a.
Arguments Raise {E A} e.

(** The values a message dictionary holds.  [PyDict] is a
    [Dict[str, Any]] payload. *)
Inductive pyobj (Any Float : Type) : Type :=
  | PyStr (s : string)
  | PyInt (z : Z)
  | PyFloat (f : Float)
  | PyDict (d : gmap string Any).
Arguments PyStr {Any Float} s.
Arguments PyInt {Any Float} z.
Arguments PyFloat {Any Float} f.
Arguments PyDict {Any Float} d.

(** The external collaborators.  [WebSocket] is the handle type (compared
    by identity), [World] the state of the transports and of the event
    loop, [Exn] the instances of Python's [Exception] class: what
    [except Exception] and a bare [except] both catch.  Signals outside
    that class (task cancellation, interpreter exit) come from the
    scheduler, not from a transport, and are not modelled. *)
Class Runtime (WebSocket World Exn Any Float : Type) := {
  (** [await websocket.accept()] *)
  accept : WebSocket → World → result Exn () * World;
  (** [await websocket.send_text(message)] *)
  send_text : WebSocket → string → World → result Exn () * World;
  (** [asyncio.get_event_loop().time()] *)
  loop_time : World → Float;
  (** [json.dumps] of a dictionary literal, keys in insertion order *)
  json_dumps : list (string * pyobj Any Float) → result Exn string;
  (** [str(e)], as an f-string formats an exception *)
  str_exn : Exn → string;
  (** the exception of [list.remove] on a missing element *)
  ValueError : Exn;
}.

(** What was asked of the transports, in order, and how each call ended. *)
Inductive io_event (WebSocket : Type) : Type :=
  | EvAccept (ws : WebSocket) (ok : bool)
  | EvSend (ws : WebSocket) (text : string) (ok : bool).
Arguments EvAccept {WebSocket} ws ok.
Arguments EvSend {WebSocket} ws text ok.

Section events.
Context {WebSocket : Type}.

Definition ev_target (ev : io_event WebSocket) : WebSocket :=
  match ev with EvAccept ws _ | EvSend ws _ _ => ws end.

Definition ev_ok (ev : io_event WebSocket) : bool :=
  match ev with EvAccept _ ok | EvSend _ _ ok => ok end.

(** The send attempts of [text] among [evs]. *)
Definition is_send_of (text : string) (ev : io_event WebSocket) : bool :=
  match ev with
  | EvSend _ t _ => bool_decide (t = text)
  | EvAccept _ _ => false
  end.

(** The handles whose send went through, and those whose send raised. *)
Definition delivered (evs : list (io_event WebSocket)) : list WebSocket :=
  ev_target <$> filter (λ ev, ev_ok ev = true) evs.

Definition failed (evs : list (io_event WebSocket)) : list WebSocket :=
  ev_target <$> filter (λ ev, ev_ok ev = false) evs.
End events.

(** ** The manager object and the state its methods run in *)

Record WebSocketManager (WebSocket Any : Type) := {
  active_connections : list WebSocket;
  progress_data : gmap Z (gmap string Any);
}.
Arguments active_connections {WebSocket Any} _.
Arguments progress_data {WebSocket Any} _.

Record Sys (WebSocket World Any : Type) := {
  self : WebSocketManager WebSocket Any;
  world : World;
  stdout : list string;
  history : list (io_event WebSocket);
}.
Arguments self {WebSocket World Any} _.
Arguments world {WebSocket World Any} _.
Arguments stdout {WebSocket World Any} _.
Arguments history {WebSocket World Any} _.

Section task.
Context {WebSocket World Exn Any Float : Type}.
Context `{!EqDecision WebSocket}.
Context `{!Runtime WebSocket World Exn Any Float}.

Abbreviation Manager := (WebSocketManager WebSocket Any).
Abbreviation State := (Sys WebSocket World Any).

(** A coroutine or method, run from a state. *)
Definition Task (A : Type) : Type := State → result Exn A * State.

Definition ret {A} (a : A) : Task A := λ s, (Return a, s).

Definition bind {A B} (c : Task A) (k : A → Task B) : Task B :=
  λ s, match c s with
       | (Return a, s') => k a s'
       | (Raise e, s') => (Raise e, s')
       end.

Definition raise {A} (e : Exn) : Task A := λ s, (Raise e, s).

(** [try: body / except Exception as e: handler e] *)
Definition try_except {A} (body : Task A) (handler : Exn → Task A) : Task A :=
  λ s, match body s with
       | (Return a, s') => (Return a, s')
       | (Raise e, s') => handler e s'
       end.

Definition get_self : Task Manager := λ s, (Return (self s), s).

Definition set_active_connections (l : list WebSocket) : Task () :=
  λ s, (Return (),
        {| self := {| active_connections := l;
                      progress_data := progress_data (self s) |};
           world := world s; stdout := stdout s; history := history s |}).

Definition set_progress_data (d : gmap Z (gmap string Any)) : Task () :=
  λ s, (Return (),
        {| self := {| active_connections := active_connections (self s);
                      progress_data := d |};
           world := world s; stdout := stdout s; history := history s |}).

Definition print (line : string) : Task () :=
  λ s, (Return (),
        {| self := self s; world := world s;
           stdout := stdout s ++ [line]; history := history s |}).

(** A call into a transport: the world moves on and the call is
    recorded with its outcome. *)
Definition transport (call : World → result Exn () * World)
    (record : bool → io_event WebSocket) : Task () :=
  λ s, let '(r, w) := call (world s) in
       (r, {| self := self s; world := w; stdout := stdout s;
              history := history s ++
                [record (match r with Return _ => true | Raise _ => false end)] |}).

Definition ws_accept (ws : WebSocket) : Task () :=
  transport (accept ws) (EvAccept ws).

Definition ws_send_text (ws : WebSocket) (text : string) : Task () :=
  transport (send_text ws text) (EvSend ws text).

Definition get_time : Task Float := λ s, (Return (loop_time (world s)), s).

Definition dumps (msg : list (string * pyobj Any Float)) : Task string :=
  λ s, (json_dumps msg, s).

(** A state that differs from [s] in the registry, the world, the console
    and the history as given. *)
Definition evolve (s : State) (conns : list WebSocket) (w : World) (out : list string)
    (evs : list (io_event WebSocket)) : State :=
  {| self := {| active_connections := conns;
                progress_data := progress_data (self s) |};
     world := w;
     stdout := stdout s ++ out;
     history := history s ++ evs |}.

(** A task that only writes to the console. *)
Definition console_only (t : Task ()) : Prop :=
  ∀ s : State, ∃ out, t s = (Return (), evolve s (active_connections (self s)) (world s) out []).
End task.

Declare Scope task_scope.
Delimit Scope task_scope with task.
Notation "x <~ c ;; k" := (bind c (λ x, k))
  (at level 100, c at next level, k at level 200, right associativity) : task_scope.
Notation "c ;;; k" := (bind c (λ _, k))
  (at level 100, k at level 200, right associativity) : task_scope.
Open Scope task_scope.

(** [for x in xs: body], with the local variables the loop updates as an
    accumulator. *)
Fixpoint for_each {WebSocket World Exn Any X Acc : Type}
    (xs : list X)
    (body : X → Acc → @Task WebSocket World Exn Any Acc) (acc : Acc)
    : @Task WebSocket World Exn Any Acc :=
  match xs with
  | [] => ret acc
  | x :: xs' => acc' <~ body x acc ;; for_each xs' body acc'
  end.

(** ** [src/server/websocket_manager.py] *)

Module websocket_manager.
Section methods.
Context {WebSocket World Exn Any Float : Type}.
Context `{!EqDecision WebSocket}.
Context `{!Runtime WebSocket World Exn Any Float}.

Local Abbreviation Task := (@Task WebSocket World Exn Any).

(** [self.active_connections.remove(websocket)] *)
Definition remove_connection (websocket : WebSocket) : Task () :=
  me <~ get_self ;;
  match py_remove websocket (active_connections me) with
  | Some l => set_active_connections l
  | None => raise ValueError
  end.

Definition connect (websocket : WebSocket) : Task () :=
  ws_accept websocket ;;;
  me <~ get_self ;;
  set_active_connections (active_connections me ++ [websocket]) ;;;
  me <~ get_self ;;
  print ("[websocket] Client connected. Total connections: "
           +:+ pretty (length (active_connections me))).

Definition disconnect (websocket : WebSocket) : Task () :=
  me <~ get_self ;;
  (if decide (websocket ∈ active_connections me)
   then remove_connection websocket
   else ret ()) ;;;
  me <~ get_self ;;
  print ("[websocket] Client disconnected. Total connections: "
           +:+ pretty (length (active_connections me))).

Definition send_personal_message (message : string) (websocket : WebSocket) : Task () :=
  try_except
    (ws_send_text websocket message)
    (λ e,
       print ("[websocket] Error sending personal message: " +:+ str_exn e) ;;;
       disconnect websocket).

(** The first loop only reads [self.active_connections]; nothing in its
    body changes the list, so iterating the list held at loop entry is
    iterating the live list. *)
Definition broadcast (message : string) : Task () :=
  me <~ get_self ;;
  disconnected <~
    for_each (active_connections me)
      (λ connection disconnected,
         try_except
           (ws_send_text connection message ;;; ret disconnected)
           (λ e,
              print ("[websocket] Error broadcasting to connection: " +:+ str_exn e) ;;;
              ret (disconnected ++ [connection])))
      [] ;;
  for_each disconnected (λ connection _, disconnect connection) ().

Definition broadcast_progress (generation_id : Z) (progress : gmap string Any) : Task () :=
  let message : list (string * pyobj Any Float) :=
    [("type", PyStr "progress");
     ("generationId", PyInt generation_id);
     ("data", PyDict progress)] in
  text <~ dumps message ;;
  broadcast text.

Definition broadcast_setup_progress (server_id step total_steps : Z) (message : string)
    : Task () :=
  now <~ get_time ;;
  let progress_message : list (string * pyobj Any Float) :=
    [("type", PyStr "setup_progress");
     ("serverId", PyInt server_id);
     ("step", PyInt step);
     ("totalSteps", PyInt total_steps);
     ("message", PyStr message);
     ("timestamp", PyFloat now)] in
  text <~ dumps progress_message ;;
  broadcast text.

Definition store_progress (generation_id : Z) (progress : gmap string Any) : Task () :=
  me <~ get_self ;;
  set_progress_data (<[generation_id := progress]> (progress_data me)).

(** [self.progress_data.get(generation_id, {})] *)
Definition get_progress (generation_id : Z) : Task (gmap string Any) :=
  me <~ get_self ;;
  ret (default ∅ (progress_data me !! generation_id)).

Definition get_all_progress : Task (gmap Z (gmap string Any)) :=
  me <~ get_self ;;
  ret (progress_data me).

Definition clear_progress (generation_id : Z) : Task () :=
  me <~ get_self ;;
  if decide (is_Some (progress_data me !! generation_id))
  then set_progress_data (delete generation_id (progress_data me))
  else ret ().
End methods.
End websocket_manager.

(** ** [src/server/fastapi_server.py] *)

Module fastapi_server.
Section registry.
Context {WebSocket World Exn Any Float : Type}.
Context `{!EqDecision WebSocket}.
Context `{!Runtime WebSocket World Exn Any Float}.

Local Abbreviation Task := (@Task WebSocket World Exn Any).

Definition remove_connection (websocket : WebSocket) : Task () :=
  me <~ get_self ;;
  match py_remove websocket (active_connections me) with
  | Some l => set_active_connections l
  | None => raise ValueError
  end.

Definition connect (websocket : WebSocket) : Task () :=
  ws_accept websocket ;;;
  me <~ get_self ;;
  set_active_connections (active_connections me ++ [websocket]) ;;;
  me <~ get_self ;;
  print ("[websocket] Client connected. Total: "
           +:+ pretty (length (active_connections me))).

Definition disconnect (websocket : WebSocket) : Task () :=
  me <~ get_self ;;
  (if decide (websocket ∈ active_connections me)
   then remove_connection websocket
   else ret ()) ;;;
  me <~ get_self ;;
  print ("[websocket] Client disconnected. Total: "
           +:+ pretty (length (active_connections me))).

(** The handler is a bare [except:] and prints nothing. *)
Definition broadcast (message : string) : Task () :=
  me <~ get_self ;;
  disconnected <~
    for_each (active_connections me)
      (λ connection disconnected,
         try_except
           (ws_send_text connection message ;;; ret disconnected)
           (λ _, ret (disconnected ++ [connection])))
      [] ;;
  for_each disconnected (λ connection _, disconnect connection) ().
End registry.

(** *** The database pool

    [db_pool] is created by [asyncpg.create_pool] and used through its
    [acquire] and [release]; asyncpg is a library, its pool is not part of
    the sources.  Connections are numbered in the order they are opened. *)

(** Modelled from the spec: the pool object behind [db_pool], which the
    sources only create and call.  Its attributes are those of the data
    model: minimum and maximum size, the idle and the in-use connections;
    [opened] counts the connections created so far and [waiting] the
    callers suspended in [acquire]. *)
Record Pool := {
  minimum : nat;
  maximum : nat;
  idle : list nat;
  in_use : list nat;
  opened : nat;
  waiting : nat;
}.

(** Modelled from the spec: the pool missing from the sources is created
    empty, connections being opened on demand rather than eagerly. *)
Definition create_pool (min_size max_size : nat) : Pool :=
  {| minimum := min_size; maximum := max_size;
     idle := []; in_use := []; opened := 0; waiting := 0 |}.

(** Modelled from the spec: the hand-out step of the pool missing from the
    sources.  An idle connection is reused; with none idle a new one is
    opened unless [in_use == maximum], in which case nothing is handed
    out. *)
Definition grant (p : Pool) : option (nat * Pool) :=
  match idle p with
  | c :: rest =>
      Some (c, {| minimum := minimum p; maximum := maximum p;
                  idle := rest; in_use := in_use p ++ [c];
                  opened := opened p; waiting := waiting p |})
  | [] =>
      if decide (length (in_use p) = maximum p) then None
      else
        let c := opened p in
        Some (c, {| minimum := minimum p; maximum := maximum p;
                    idle := []; in_use := in_use p ++ [c];
                    opened := S (opened p); waiting := waiting p |})
  end.

(** What the caller of [acquire] sees: a connection, or a wait for another
    caller's release. *)
Inductive acquired : Type :=
  | Granted (conn : nat)
  | Suspended.

(** Modelled from the spec: [acquire()] of the pool missing from the
    sources; it blocks, and does not fail, when the pool is exhausted. *)
Definition acquire (p : Pool) : acquired * Pool :=
  match grant p with
  | Some (c, p') => (Granted c, p')
  | None =>
      (Suspended, {| minimum := minimum p; maximum := maximum p;
                     idle := idle p; in_use := in_use p;
                     opened := opened p; waiting := S (waiting p) |})
  end.

(** Modelled from the spec: [release(handle)] of the pool missing from the
    sources.  The connection returns to idle, which lets one suspended
    caller, if any, resume and take a connection; an unknown or already
    idle handle is a no-op. *)
Definition release (conn : nat) (p : Pool) : Pool :=
  match py_remove conn (in_use p) with
  | None => p
  | Some rest =>
      let p1 := {| minimum := minimum p; maximum := maximum p;
                   idle := idle p ++ [conn]; in_use := rest;
                   opened := opened p; waiting := waiting p |} in
      match waiting p1, grant p1 with
      | S n, Some (_, p2) =>
          {| minimum := minimum p2; maximum := maximum p2;
             idle := idle p2; in_use := in_use p2;
             opened := opened p2; waiting := n |}
      | _, _ => p1
      end
  end.

(** [None.release] is an [AttributeError]. *)
Inductive pool_error : Type := AttributeError.

(** The module global [db_pool] is passed in and out. *)
Definition get_db_connection (db_pool : option Pool) : acquired * option Pool :=
  let db_pool :=
    match db_pool with
    | None => create_pool 1 10
    | Some p => p
    end in
  let '(conn, db_pool) := acquire db_pool in
  (conn, Some db_pool).

Definition release_db_connection (conn : nat) (db_pool : option Pool)
    : result pool_error () * option Pool :=
  match db_pool with
  | None => (Raise AttributeError, None)
  | Some p => (Return (), Some (release conn p))
  end.

(** A request handler's use of the pool, and a run of such calls from the
    start of the process, where [db_pool] is [None]. *)
Inductive pool_call : Type :=
  | CallAcquire
  | CallRelease (conn : nat).

Definition pool_step (db_pool : option Pool) (c : pool_call) : option Pool :=
  match c with
  | CallAcquire => (get_db_connection db_pool).2
  | CallRelease conn => (release_db_connection conn db_pool).2
  end.

Definition pool_run (calls : list pool_call) : option Pool :=
  foldl pool_step None calls.

Definition is_acquire (c : pool_call) : bool :=
  match c with CallAcquire => true | CallRelease _ => false end.

(** The sizing invariant of the data model, for a process that has made
    [n] acquire calls so far. *)
Definition pool_inv (n : nat) (db_pool : option Pool) : Prop :=
  match db_pool with
  | None => n = 0
  | Some p =>
      maximum p = 10
      ∧ length (idle p) + length (in_use p) ≤ maximum p
      ∧ opened p = length (idle p) + length (in_use p)
      ∧ opened p ≤ n
  end.
End fastapi_server.

(** ** A scripted runtime

    Handles are numbers; the world lists the handles whose peer has gone
    away, on which every send raises.  Handshakes always succeed. *)

Module scripted.
Definition gone (ws : nat) (w : list nat) : result string () * list nat :=
  if decide (ws ∈ w) then (Raise "peer gone", w) else (Return (), w).

Definition quoted (s : string) : string :=
  let q := Ascii.ascii_of_nat 34 in
  String q (s +:+ String q EmptyString).

Definition render (v : pyobj Z string) : string :=
  match v with
  | PyStr s => quoted s
  | PyInt z => pretty z
  | PyFloat f => f
  | PyDict d =>
      "{" +:+ String.concat ", "
                ((λ kv : string * Z, quoted kv.1 +:+ ": " +:+ pretty kv.2)
                   <$> map_to_list d) +:+ "}"
  end.

Definition encode (msg : list (string * pyobj Z string)) : result string string :=
  Return ("{" +:+ String.concat ", "
                    ((λ kv : string * pyobj Z string,
                        quoted kv.1 +:+ ": " +:+ render kv.2) <$> msg) +:+ "}").

#[global] Instance runtime : Runtime nat (list nat) string Z string := {|
  accept := λ _ w, (Return (), w);
  send_text := λ ws _ w, gone ws w;
  loop_time := λ _, "12.5";
  json_dumps := encode;
  str_exn := λ e, e;
  ValueError := "list.remove(x): x not in list";
|}.

Definition boot (conns dead : list nat) : Sys nat (list nat) Z :=
  {| self := {| active_connections := conns; progress_data := ∅ |};
     world := dead; stdout := []; history := [] |}.
End scripted.

(** ** What the transports answer to a round of sends

    The first loop of [broadcast] asks each entry's transport once, in
    order, each call starting from the world the previous one left. *)

Section round.
Context {WebSocket World Exn Any Float : Type}.
Context `{!Runtime WebSocket World Exn Any Float}.

Definition returned {A} (r : result Exn A) : bool :=
  match r with Return _ => true | Raise _ => false end.

Fixpoint send_round (message : string) (conns : list WebSocket) (w : World)
    : list (WebSocket * result Exn ()) * World :=
  match conns with
  | [] => ([], w)
  | c :: conns' =>
      let '(r, w1) := send_text c message w in
      let '(answers, w2) := send_round message conns' w1 in
      ((c, r) :: answers, w2)
  end.

Definition round_events (message : string) (answers : list (WebSocket * result Exn ()))
    : list (io_event WebSocket) :=
  (λ cr, EvSend cr.1 message (returned cr.2)) <$> answers.

Definition round_failed (answers : list (WebSocket * result Exn ())) : list WebSocket :=
  failed (round_events "" answers).
End round.

(** Two states that differ at most in what was printed. *)
Definition same_but_console {WebSocket World Any : Type}
    (s1 s2 : Sys WebSocket World Any) : Prop :=
  self s1 = self s2 ∧ world s1 = world s2 ∧ history s1 = history s2.

(** ** The [/ws] endpoint of [src/server/main.py]

    The endpoint registers the socket, then echoes what it receives
    until an exception ends the loop; only a [WebSocketDisconnect]
    unregisters the socket.  The module is read with its imports
    succeeding, so that [websocket_manager] is the manager of
    [websocket_manager.py]. *)

(** The receiving side of a socket, and the class test of
    [except WebSocketDisconnect]. *)
Class Receiver (WebSocket World Exn : Type) := {
  (** [await websocket.receive_text()] *)
  receive_text : WebSocket → World → result Exn string * World;
  (** [isinstance(e, WebSocketDisconnect)] *)
  is_disconnect : Exn → bool;
}.

(** How far the endpoint got: it returned, or its loop is still running. *)
Inductive served : Type :=
  | Closed
  | StillOpen.

Module main.
Section endpoint.
Context {WebSocket World Exn Any Float : Type}.
Context `{!EqDecision WebSocket}.
Context `{!Runtime WebSocket World Exn Any Float}.
Context `{!Receiver WebSocket World Exn}.

Local Abbreviation Task := (@Task WebSocket World Exn Any).

Definition ws_receive_text (websocket : WebSocket) : Task string :=
  λ s, let '(r, w) := receive_text websocket (world s) in
       (r, {| self := self s; world := w; stdout := stdout s; history := history s |}).

(** [try: body / except WebSocketDisconnect: handler]: any other
    exception goes on to the caller. *)
Definition try_except_disconnect {A} (body : Task A) (handler : Task A) : Task A :=
  λ s, match body s with
       | (Return a, s') => (Return a, s')
       | (Raise e, s') => if is_disconnect e then handler s' else (Raise e, s')
       end.

(** [while True:] has no exit but an exception; after [fuel] turns the
    loop is left running, which [StillOpen] reports. *)
Fixpoint echo_loop (fuel : nat) (websocket : WebSocket) : Task served :=
  match fuel with
  | 0 => ret StillOpen
  | S fuel' =>
      data <~ ws_receive_text websocket ;;
      ws_send_text websocket ("Echo: " +:+ data) ;;;
      echo_loop fuel' websocket
  end.

Definition websocket_endpoint (fuel : nat) (websocket : WebSocket) : Task served :=
  websocket_manager.connect websocket ;;;
  try_except_disconnect
    (echo_loop fuel websocket)
    (websocket_manager.disconnect websocket ;;; ret Closed).

(** The world after [k] turns of the loop that all went through, with
    the texts received, oldest first; [None] if one of them raised. *)
Fixpoint echo_turns (k : nat) (websocket : WebSocket) (w : World)
    : option (list string * World) :=
  match k with
  | 0 => Some ([], w)
  | S k' =>
      match receive_text websocket w with
      | (Return data, w1) =>
          match send_text websocket ("Echo: " +:+ data) w1 with
          | (Return _, w2) =>
              (λ rest : list string * World, (data :: rest.1, rest.2))
                <$> echo_turns k' websocket w2
          | (Raise _, _) => None
          end
      | (Raise _, _) => None
      end
  end.

(** The echoes of the texts received, all delivered. *)
Definition echoes (websocket : WebSocket) (texts : list string)
    : list (io_event WebSocket) :=
  (λ data, EvSend websocket ("Echo: " +:+ data) true) <$> texts.

(** The turn started in world [w] raises [e]: either the receive does,
    or the echo of what was received does.  [evs] is what the turn adds
    to the history and [w'] the world it leaves. *)
Definition turn_raises (websocket : WebSocket) (w : World) (e : Exn)
    (evs : list (io_event WebSocket)) (w' : World) : Prop :=
  (receive_text websocket w = (Raise e, w') ∧ evs = [])
  ∨ ∃ data w1,
      receive_text websocket w = (Return data, w1)
      ∧ send_text websocket ("Echo: " +:+ data) w1 = (Raise e, w')
      ∧ evs = [EvSend websocket ("Echo: " +:+ data) false].
End endpoint.
End main.

(** ** The [/ws] endpoint of [src/server/fastapi_server.py]

    The same coroutine, over the manager defined in that file. *)

Module fastapi_app.
Section endpoint.
Context {WebSocket World Exn Any Float : Type}.
Context `{!EqDecision WebSocket}.
Context `{!Runtime WebSocket World Exn Any Float}.
Context `{!Receiver WebSocket World Exn}.

Local Abbreviation Task := (@Task WebSocket World Exn Any).

Fixpoint echo_loop (fuel : nat) (websocket : WebSocket) : Task served :=
  match fuel with
  | 0 => ret StillOpen
  | S fuel' =>
      data <~ main.ws_receive_text websocket ;;
      ws_send_text websocket ("Echo: " +:+ data) ;;;
      echo_loop fuel' websocket
  end.

Definition websocket_endpoint (fuel : nat) (websocket : WebSocket) : Task served :=
  fastapi_server.connect websocket ;;;
  main.try_except_disconnect
    (echo_loop fuel websocket)
    (fastapi_server.disconnect websocket ;;; ret Closed).
End endpoint.
End fastapi_app.

(** ** A runtime with inboxes

    Handles are numbers; the world holds, for each handle, the texts its
    peer is still to send.  Receiving takes the next text, or raises a
    disconnect when there is none; handshakes and sends go through. *)

Module inbox.
#[global] Instance runtime : Runtime nat (gmap nat (list string)) string Z string := {|
  accept := λ _ w, (Return (), w);
  send_text := λ _ _ w, (Return (), w);
  loop_time := λ _, "0.0";
  json_dumps := scripted.encode;
  str_exn := λ e, e;
  ValueError := "list.remove(x): x not in list";
|}.

#[global] Instance receiver : Receiver nat (gmap nat (list string)) string := {|
  receive_text := λ ws w,
    match w !! ws with
    | Some (data :: rest) => (Return data, <[ws := rest]> w)
    | _ => (Raise "disconnect", w)
    end;
  is_disconnect := λ e, bool_decide (e = "disconnect");
|}.

Definition boot (conns : list nat) (pending : gmap nat (list string))
    : Sys nat (gmap nat (list string)) Z :=
  {| self := {| active_connections := conns; progress_data := ∅ |};
     world := pending; stdout := []; history := [] |}.
End inbox.

(** ** A runtime that accepts a socket once

    Handles are numbers; the world lists the handles whose handshake has
    been accepted.  A second handshake on the same handle raises; sends
    go through. *)

Module strict.
#[global] Instance runtime : Runtime nat (gset nat) string Z string := {|
  accept := λ ws w,
    if decide (ws ∈ w) then (Raise "already accepted", w)
    else (Return (), {[ws]} ∪ w);
  send_text := λ _ _ w, (Return (), w);
  loop_time := λ _, "0.0";
  json_dumps := scripted.encode;
  str_exn := λ e, e;
  ValueError := "list.remove(x): x not in list";
|}.

#[global] Instance receiver : Receiver nat (gset nat) string := {|
  receive_text := λ _ w, (Raise "disconnect", w);
  is_disconnect := λ e, bool_decide (e = "disconnect");
|}.

Definition boot (conns : list nat) (accepted : gset nat) : Sys nat (gset nat) Z :=
  {| self := {| active_connections := conns; progress_data := ∅ |};
     world := accepted; stdout := []; history := [] |}.
End strict.

(** ** The request handlers of [src/server/fastapi_server.py]

    The handlers talk to the database through a connection taken from
    [db_pool].  The driver, [json.loads], [bcrypt] and the response
    models are external; what they answer is a parameter. *)

(** The values the driver and [json.loads] hand out.  A dictionary keeps
    its keys in insertion order, each key once; [POpaque] stands for the
    values that are no container (floats, dates). *)
#[local] Unset Elimination Schemes.
Inductive pyval (Opaque : Type) : Type :=
  | PNone
  | PBool (b : bool)
  | PInt (z : Z)
  | PStr (s : string)
  | PList (l : list (pyval Opaque))
  | PDict (d : list (string * pyval Opaque))
  | POpaque (o : Opaque).
#[local] Set Elimination Schemes.
Arguments PNone {Opaque}.
Arguments PBool {Opaque} b.
Arguments PInt {Opaque} z.
Arguments PStr {Opaque} s.
Arguments PList {Opaque} l.
Arguments PDict {Opaque} d.
Arguments POpaque {Opaque} o.

(** The exceptions a handler sees: those it raises itself, those of the
    interpreter, and those of the libraries. *)
Inductive pyexn (E : Type) : Type :=
  | HTTPException (status_code : Z) (detail : string)
  | TypeError
  | KeyError (key : string)
  | PoolFault (e : fastapi_server.pool_error)
  | LibraryError (e : E).
Arguments HTTPException {E} status_code detail.
Arguments TypeError {E}.
Arguments KeyError {E} key.
Arguments PoolFault {E} e.
Arguments LibraryError {E} e.

(** How a handler stands: it returned, it raised, or it is suspended in
    [acquire] waiting for a connection. *)
Inductive reply (E A : Type) : Type :=
  | Returns (a : A)
  | Raises (e : E)
  | Blocks.
Arguments Returns {E A} a.
Arguments Raises {E A} e.
Arguments Blocks {E A}.

(** The methods of a connection. *)
Inductive method : Type := Execute | Fetch | Fetchrow | Fetchval.

(** A call on a connection: which connection, which method, the
    statement and its arguments. *)
Record query (Opaque : Type) := {
  q_conn : nat;
  q_method : method;
  q_sql : string;
  q_args : list (pyval Opaque);
}.
Arguments q_conn {Opaque} _.
Arguments q_method {Opaque} _.
Arguments q_sql {Opaque} _.
Arguments q_args {Opaque} _.

Class Backend (Db Opaque E : Type) := {
  (** [await conn.execute(sql, *args)]: the status text of the command *)
  conn_execute : nat → string → list (pyval Opaque) → Db → result E string * Db;
  (** [await conn.fetch(sql, *args)] *)
  conn_fetch : nat → string → list (pyval Opaque) → Db
               → result E (list (list (string * pyval Opaque))) * Db;
  (** [await conn.fetchrow(sql, *args)]: a row, or [None] *)
  conn_fetchrow : nat → string → list (pyval Opaque) → Db
                  → result E (option (list (string * pyval Opaque))) * Db;
  (** [await conn.fetchval(sql, *args)] *)
  conn_fetchval : nat → string → list (pyval Opaque) → Db → result E (pyval Opaque) * Db;
  (** [json.loads(x)] *)
  loads : pyval Opaque → result E (pyval Opaque);
  (** [bcrypt.hashpw(password.encode('utf-8'), bcrypt.gensalt()).decode('utf-8')] *)
  hashpw : string → Db → result E string * Db;
  (** [bcrypt.checkpw(password.encode('utf-8'), stored.encode('utf-8'))] *)
  checkpw : string → pyval Opaque → result E bool;
  (** [UserResponse(id=..., email=..., ...)] on the seven fields *)
  user_response : list (pyval Opaque) → result E (pyval Opaque);
  (** [StatsResponse(totalUsers=..., ...)] on the four fields *)
  stats_response : list (pyval Opaque) → result E (pyval Opaque);
  (** [bool(x)] and [x == n] for a value that is no container *)
  opaque_truthy : Opaque → bool;
  opaque_eq_int : Opaque → Z → bool;
  (** [str(e)] *)
  exn_text : pyexn E → string;
}.

(** The process as the handlers see it: the module global [db_pool], the
    database, the console and the calls made on connections so far. *)
Record App (Db Opaque : Type) := {
  db_pool : option fastapi_server.Pool;
  db : Db;
  console : list string;
  queries : list (query Opaque);
}.
Arguments db_pool {Db Opaque} _.
Arguments db {Db Opaque} _.
Arguments console {Db Opaque} _.
Arguments queries {Db Opaque} _.

Section python_values.
Context {Opaque : Type}.
Context {E : Type}.
Implicit Types (v : pyval Opaque) (k : string).

(** [bool(v)] *)
Definition py_truthy (truthy : Opaque → bool) v : bool :=
  match v with
  | PNone => false
  | PBool b => b
  | PInt z => negb (z =? 0)%Z
  | PStr s => negb (String.eqb s EmptyString)
  | PList l => match l with [] => false | _ => true end
  | PDict d => match d with [] => false | _ => true end
  | POpaque o => truthy o
  end.

(** [v == n] for an integer [n] *)
Definition py_eq_int (eq_int : Opaque → Z → bool) v (n : Z) : bool :=
  match v with
  | PInt z => (z =? n)%Z
  | PBool b => ((if b then 1 else 0) =? n)%Z
  | POpaque o => eq_int o n
  | _ => false
  end.

(** [needle in s] for two strings *)
Fixpoint is_substring (needle s : string) : bool :=
  String.prefix needle s
  || match s with
     | EmptyString => false
     | String _ s' => is_substring needle s'
     end.

Fixpoint dict_get (d : list (string * pyval Opaque)) k : option (pyval Opaque) :=
  match d with
  | [] => None
  | (k', v) :: d' => if String.eqb k k' then Some v else dict_get d' k
  end.

(** [d[k] = v] on a dictionary: an existing key keeps its place. *)
Fixpoint dict_set (d : list (string * pyval Opaque)) k v : list (string * pyval Opaque) :=
  match d with
  | [] => [(k, v)]
  | (k', v') :: d' =>
      if String.eqb k k' then (k', v) :: d' else (k', v') :: dict_set d' k v
  end.

(** [k in v]: a key test on a dictionary, an element test on a list, a
    substring test on a string, a [TypeError] on anything else. *)
Definition py_contains k v : result (pyexn E) bool :=
  match v with
  | PDict d => Return (bool_decide (is_Some (dict_get d k)))
  | PList l =>
      Return (existsb (λ x, match x with PStr s => String.eqb s k | _ => false end) l)
  | PStr s => Return (is_substring k s)
  | _ => Raise TypeError
  end.

(** [v[k]] for a string [k] *)
Definition py_getitem v k : result (pyexn E) (pyval Opaque) :=
  match v with
  | PDict d =>
      match dict_get d k with
      | Some x => Return x
      | None => Raise (KeyError k)
      end
  | _ => Raise TypeError
  end.

(** [for x in v]: the elements of a list, the keys of a dictionary, the
    characters of a string. *)
Definition py_iter v : result (pyexn E) (list (pyval Opaque)) :=
  match v with
  | PList l => Return l
  | PDict d => Return ((λ kv, PStr kv.1) <$> d)
  | PStr s => Return ((λ c, PStr (String c EmptyString)) <$> String.list_ascii_of_string s)
  | _ => Raise TypeError
  end.
End python_values.

Module handler.
Section monad.
Context {Db Opaque E : Type}.
Context `{!Backend Db Opaque E}.

Local Abbreviation Value := (pyval Opaque).
Local Abbreviation Exn := (pyexn E).
Local Abbreviation State := (App Db Opaque).

Definition Handler (A : Type) : Type := State → reply Exn A * State.

Definition hret {A} (a : A) : Handler A := λ st, (Returns a, st).

Definition hraise {A} (e : Exn) : Handler A := λ st, (Raises e, st).

Definition hbind {A B} (c : Handler A) (k : A → Handler B) : Handler B :=
  λ st, match c st with
        | (Returns a, st') => k a st'
        | (Raises e, st') => (Raises e, st')
        | (Blocks, st') => (Blocks, st')
        end.

(** [try: body / finally: cleanup]: the cleanup runs however the body
    ended, and an exception of the cleanup replaces the outcome. *)
Definition try_finally {A} (body : Handler A) (cleanup : Handler ()) : Handler A :=
  λ st, match body st with
        | (Blocks, st') => (Blocks, st')
        | (outcome, st') =>
            match cleanup st' with
            | (Returns _, st'') => (outcome, st'')
            | (Raises e, st'') => (Raises e, st'')
            | (Blocks, st'') => (Blocks, st'')
            end
        end.

(** [try: body / except Exception as e: handler e] *)
Definition try_catch {A} (body : Handler A) (handler : Exn → Handler A) : Handler A :=
  λ st, match body st with
        | (Raises e, st') => handler e st'
        | other => other
        end.

(** A pure computation that may raise. *)
Definition lift {A} (r : result Exn A) : Handler A :=
  λ st, (match r with Return a => Returns a | Raise e => Raises e end, st).

Definition hprint (line : string) : Handler () :=
  λ st, (Returns (),
         {| db_pool := db_pool st; db := db st;
            console := console st ++ [line]; queries := queries st |}).

(** A call into the driver: the database moves on and the call is
    recorded. *)
Definition driver {A} (m : method) (call : Db → result E A * Db)
    (conn : nat) (sql : string) (args : list Value) : Handler A :=
  λ st, let '(r, d) := call (db st) in
        (match r with Return a => Returns a | Raise e => Raises (LibraryError e) end,
         {| db_pool := db_pool st; db := d; console := console st;
            queries := queries st ++
              [{| q_conn := conn; q_method := m; q_sql := sql; q_args := args |}] |}).

Definition execute (conn : nat) (sql : string) (args : list Value) : Handler string :=
  driver Execute (conn_execute conn sql args) conn sql args.

Definition fetch (conn : nat) (sql : string) (args : list Value)
    : Handler (list (list (string * Value))) :=
  driver Fetch (conn_fetch conn sql args) conn sql args.

Definition fetchrow (conn : nat) (sql : string) (args : list Value)
    : Handler (option (list (string * Value))) :=
  driver Fetchrow (conn_fetchrow conn sql args) conn sql args.

Definition fetchval (conn : nat) (sql : string) (args : list Value) : Handler Value :=
  driver Fetchval (conn_fetchval conn sql args) conn sql args.

(** [bcrypt.hashpw] draws a salt: it moves the world but is no call on a
    connection. *)
Definition bcrypt_hashpw (password : string) : Handler string :=
  λ st, let '(r, d) := hashpw password (db st) in
        (match r with Return a => Returns a | Raise e => Raises (LibraryError e) end,
         {| db_pool := db_pool st; db := d; console := console st;
            queries := queries st |}).

Definition library {A} (r : result E A) : Handler A :=
  λ st, (match r with Return a => Returns a | Raise e => Raises (LibraryError e) end, st).

(** [conn = await get_db_connection()] *)
Definition acquire_connection : Handler nat :=
  λ st, let '(got, pool) := fastapi_server.get_db_connection (db_pool st) in
        (match got with
         | fastapi_server.Granted conn => Returns conn
         | fastapi_server.Suspended => Blocks
         end,
         {| db_pool := pool; db := db st; console := console st; queries := queries st |}).

(** [await release_db_connection(conn)] *)
Definition release_connection (conn : nat) : Handler () :=
  λ st, let '(r, pool) := fastapi_server.release_db_connection conn (db_pool st) in
        (match r with Return _ => Returns () | Raise e => Raises (PoolFault e) end,
         {| db_pool := pool; db := db st; console := console st; queries := queries st |}).

(** The state after calls on connections: the database they left, the
    lines printed and the calls recorded. *)
Definition advance (st : State) (d : Db) (out : list string) (qs : list (query Opaque))
    : State :=
  {| db_pool := db_pool st; db := d;
     console := console st ++ out; queries := queries st ++ qs |}.

(** The state with another pool. *)
Definition with_pool (st : State) (pool : option fastapi_server.Pool) : State :=
  {| db_pool := pool; db := db st; console := console st; queries := queries st |}.

(** A handler that leaves [db_pool] alone and never waits. *)
Definition pool_neutral {A} (h : Handler A) : Prop :=
  ∀ st, db_pool (h st).2 = db_pool st ∧ (h st).1 ≠ Blocks
        ∧ ∀ pool, h (with_pool st pool) = ((h st).1, with_pool (h st).2 pool).
End monad.
End handler.

Declare Scope handler_scope.
Delimit Scope handler_scope with handler.
Notation "x <- c ;; k" := (handler.hbind c (λ x, k))
  (at level 100, c at next level, k at level 200, right associativity) : handler_scope.
Notation "c >> k" := (handler.hbind c (λ _, k))
  (at level 100, k at level 200, right associativity) : handler_scope.

Module fastapi_handlers.
Import handler.
Section routes.
Context {Db Opaque E : Type}.
Context `{!Backend Db Opaque E}.

Local Abbreviation Value := (pyval Opaque).
Local Abbreviation Exn := (pyexn E).
Local Abbreviation Handler := (@Handler Db Opaque E).
Local Open Scope handler_scope.

(** [bool(row)] for what [fetchrow] returned: [None] is false, and a
    record is true unless it has no field. *)
Definition row_truthy (row : option (list (string * Value))) : bool :=
  match row with
  | None => false
  | Some [] => false
  | Some (_ :: _) => true
  end.

(** [row[column]]: a [TypeError] on [None], a [KeyError] on a record
    without the column. *)
Definition row_getitem (row : option (list (string * Value))) (column : string)
    : result Exn Value :=
  match row with
  | None => Raise TypeError
  | Some fields =>
      match dict_get fields column with
      | Some v => Return v
      | None => Raise (KeyError column)
      end
  end.

(** [for x in xs: body], with the locals the loop updates as an
    accumulator. *)
Fixpoint hfor {X Acc} (xs : list X) (body : X → Acc → Handler Acc) (acc : Acc)
    : Handler Acc :=
  match xs with
  | [] => hret acc
  | x :: xs' => acc' <- body x acc ;; hfor xs' body acc'
  end.

Definition sql_insert_default_user : string :=
  "
                INSERT INTO users (email, username, first_name, last_name, password_hash, created_at, updated_at)
                VALUES ($1, $2, $3, $4, $5, NOW(), NOW())
            ".

Definition sql_insert_default_platform : string :=
  "
                INSERT INTO platforms (name, display_name, is_active, created_at, updated_at)
                VALUES ($1, $2, $3, NOW(), NOW())
            ".

Definition sql_insert_user : string :=
  "
            INSERT INTO users (email, username, first_name, last_name, password_hash, created_at, updated_at)
            VALUES ($1, $2, $3, $4, $5, NOW(), NOW())
            RETURNING *
        ".

Definition sql_insert_model : string :=
  "
                    INSERT INTO comfy_models (workflow_id, name, type, required, created_at, updated_at)
                    VALUES ($1, $2, $3, $4, NOW(), NOW())
                    ON CONFLICT (workflow_id, name) DO NOTHING
                ".

(** The release is the last statement of the [try] block, not a
    [finally]. *)
Definition init_database : Handler () :=
  try_catch
    (conn <- acquire_connection ;;
     execute conn "SELECT 1" [] >>
     hprint "[database] Database connection established" >>
     user_count <- fetchval conn "SELECT COUNT(*) FROM users" [] ;;
     (if py_eq_int opaque_eq_int user_count 0 then
        password_hash <- bcrypt_hashpw "password123" ;;
        execute conn sql_insert_default_user
          [PStr "admin@example.com"; PStr "admin"; PStr "Admin"; PStr "User";
           PStr password_hash] >>
        execute conn sql_insert_default_platform
          [PStr "youtube"; PStr "YouTube"; PBool true] >>
        hprint "[database] Default data initialized"
      else hret ()) >>
     release_connection conn)
    (λ e, hprint ("[database] Error: " +:+ exn_text e)).

Record LoginRequest := {
  login_email : string;
  login_password : string;
}.

Record SignupRequest := {
  firstName : string;
  lastName : string;
  email : string;
  password : string;
  confirmPassword : string;
  agreeToTerms : bool;
}.

(** [UserResponse(id=row['id'], email=row['email'], ...)]: the fields are
    read in the order of the keyword arguments. *)
Definition make_user_response (row : option (list (string * Value))) : Handler Value :=
  id <- lift (row_getitem row "id") ;;
  email <- lift (row_getitem row "email") ;;
  username <- lift (row_getitem row "username") ;;
  first_name <- lift (row_getitem row "first_name") ;;
  last_name <- lift (row_getitem row "last_name") ;;
  created_at <- lift (row_getitem row "created_at") ;;
  updated_at <- lift (row_getitem row "updated_at") ;;
  library (user_response [id; email; username; first_name; last_name;
                          created_at; updated_at]).

Definition login (request : LoginRequest) : Handler Value :=
  conn <- acquire_connection ;;
  try_finally
    (user_row <- fetchrow conn "SELECT * FROM users WHERE email = $1"
                   [PStr (login_email request)] ;;
     if negb (row_truthy user_row)
     then hraise (HTTPException 401 "Invalid email or password")
     else
       stored <- lift (row_getitem user_row "password_hash") ;;
       ok <- library (checkpw (login_password request) stored) ;;
       if negb ok
       then hraise (HTTPException 401 "Invalid email or password")
       else make_user_response user_row)
    (release_connection conn).

(** The character [@]. *)
Definition at_sign : Ascii.ascii := Ascii.ascii_of_nat 64.

(** [s.split('@')[0]]: what stands before the first [@], or all of [s]. *)
Fixpoint before_at (s : string) : string :=
  match s with
  | EmptyString => EmptyString
  | String c s' =>
      if Ascii.eqb c at_sign then EmptyString else String c (before_at s')
  end.

Definition signup (request : SignupRequest) : Handler Value :=
  if negb (String.eqb (password request) (confirmPassword request))
  then hraise (HTTPException 400 "Passwords don't match")
  else if negb (agreeToTerms request)
  then hraise (HTTPException 400 "Must agree to terms")
  else
    conn <- acquire_connection ;;
    try_finally
      (existing_user <- fetchrow conn "SELECT id FROM users WHERE email = $1"
                          [PStr (email request)] ;;
       if row_truthy existing_user
       then hraise (HTTPException 409 "User with this email already exists")
       else
         password_hash <- bcrypt_hashpw (password request) ;;
         user_row <- fetchrow conn sql_insert_user
                       [PStr (email request); PStr (before_at (email request));
                        PStr (firstName request); PStr (lastName request);
                        PStr password_hash] ;;
         make_user_response user_row)
      (release_connection conn).

Definition delete_workflow (workflow_id : Z) : Handler Value :=
  conn <- acquire_connection ;;
  try_finally
    (execute conn "DELETE FROM comfy_models WHERE workflow_id = $1" [PInt workflow_id] >>
     result <- execute conn "DELETE FROM comfy_workflows WHERE id = $1"
                 [PInt workflow_id] ;;
     if String.eqb result "DELETE 0"
     then hraise (HTTPException 404 "Workflow not found")
     else hret (PDict [("message", PStr "Workflow deleted successfully")]))
    (release_connection conn).

(** One turn of the loop over the nodes of a workflow. *)
Definition collect_model (node : Value) (models_found : list Value)
    : result Exn (list Value) :=
  match py_contains "inputs" node with
  | Raise e => Raise e
  | Return false => Return models_found
  | Return true =>
      match py_getitem node "inputs" with
      | Raise e => Raise e
      | Return inputs =>
          match py_contains "ckpt_name" inputs with
          | Raise e => Raise e
          | Return false => Return models_found
          | Return true =>
              match py_getitem inputs "ckpt_name" with
              | Raise e => Raise e
              | Return model_name =>
                  Return (models_found ++
                            [PDict [("name", model_name);
                                    ("type", PStr "checkpoint");
                                    ("required", PBool true)]])
              end
          end
      end
  end.

Definition sync_workflow_models (workflow_id : Z) : Handler Value :=
  conn <- acquire_connection ;;
  try_finally
    (workflow_row <- fetchrow conn "SELECT * FROM comfy_workflows WHERE id = $1"
                       [PInt workflow_id] ;;
     if negb (row_truthy workflow_row)
     then hraise (HTTPException 404 "Workflow not found")
     else
       try_catch
         (workflow_json <- lift (row_getitem workflow_row "workflow_json") ;;
          workflow_data <-
            library (loads (if py_truthy opaque_truthy workflow_json
                            then workflow_json else PStr "{}")) ;;
          has_nodes <- lift (py_contains "nodes" workflow_data) ;;
          models_found <-
            (if has_nodes : bool then
               nodes <- lift (py_getitem workflow_data "nodes") ;;
               items <- lift (py_iter nodes) ;;
               hfor items (λ node found, lift (collect_model node found)) []
             else hret []) ;;
          hfor models_found
            (λ model _,
               name <- lift (py_getitem model "name") ;;
               type <- lift (py_getitem model "type") ;;
               required <- lift (py_getitem model "required") ;;
               execute conn sql_insert_model [PInt workflow_id; name; type; required] >>
               hret ())
            () >>
          hret (PDict [("message", PStr "Models synchronized successfully");
                       ("modelsFound", PInt (Z.of_nat (length models_found)));
                       ("models", PList models_found)]))
         (λ e, hraise (HTTPException 500 ("Failed to sync models: " +:+ exn_text e))))
    (release_connection conn).

(** One turn of the loop over the rows of [get_comfy_generations]: a
    textual [image_urls] is replaced by its parsed value, or by the empty
    list when it does not parse. *)
Definition parse_image_urls (row : list (string * Value)) : list (string * Value) :=
  match dict_get row "image_urls" with
  | Some (PStr text) =>
      match loads (PStr text) with
      | Return parsed => dict_set row "image_urls" parsed
      | Raise _ => dict_set row "image_urls" (PList [])
      end
  | _ => row
  end.

Definition get_comfy_generations : Handler Value :=
  conn <- acquire_connection ;;
  try_finally
    (rows <- fetch conn
               "SELECT * FROM comfy_generations ORDER BY created_at DESC LIMIT 50" [] ;;
     generations <-
       hfor rows (λ row generations, hret (generations ++ [PDict (parse_image_urls row)]))
         [] ;;
     hret (PList generations))
    (release_connection conn).

(** The entry [sync_workflow_models] makes for a model name. *)
Definition model_entry (name : Value) : Value :=
  PDict [("name", name); ("type", PStr "checkpoint"); ("required", PBool true)].

(** The checkpoint a node names: the [ckpt_name] of its [inputs], when
    the node and its inputs are dictionaries. *)
Definition checkpoint_of (node : Value) : option Value :=
  match node with
  | PDict d =>
      match dict_get d "inputs" with
      | Some (PDict inputs) => dict_get inputs "ckpt_name"
      | _ => None
      end
  | _ => None
  end.

(** A node as a workflow has them: a dictionary whose [inputs], if any,
    is a dictionary. *)
Definition plain_node (node : Value) : Prop :=
  match node with
  | PDict d =>
      match dict_get d "inputs" with
      | Some (PDict _) | None => True
      | Some _ => False
      end
  | _ => False
  end.

(** A handler gives its connection back: if [get_db_connection] hands
    one out, the handler ends with [db_pool] being what
    [release_db_connection] makes of it; if the pool is exhausted the
    handler waits and has done nothing else. *)
Definition gives_back {A} (h : Handler A) (st : App Db Opaque) : Prop :=
  match fastapi_server.get_db_connection (db_pool st) with
  | (fastapi_server.Granted conn, pool1) =>
      (h st).1 ≠ Blocks
      ∧ db_pool (h st).2 = (fastapi_server.release_db_connection conn pool1).2
  | (fastapi_server.Suspended, pool1) => h st = (Blocks, with_pool st pool1)
  end.
End routes.
End fastapi_handlers.

(** ** The handlers that only read, and [create_content]

    The remaining routes of [src/server/fastapi_server.py] that take a
    connection. *)

Module fastapi_reads.
Import handler fastapi_handlers.
Section routes.
Context {Db Opaque E : Type}.
Context `{!Backend Db Opaque E}.

Local Abbreviation Value := (pyval Opaque).
Local Abbreviation Exn := (pyexn E).
Local Abbreviation Handler := (@Handler Db Opaque E).
Local Open Scope handler_scope.

(** [x or 0] *)
Definition or_zero (x : Value) : Value :=
  if py_truthy opaque_truthy x then x else PInt 0.

Definition sql_insert_content : string :=
  "
            INSERT INTO content (title, description, type, status, created_at, updated_at)
            VALUES ($1, $2, $3, $4, NOW(), NOW())
            RETURNING *
        ".

Definition sql_select_accounts : string :=
  "
            SELECT a.*, p.name as platform_name, p.display_name as platform_display_name
            FROM accounts a
            LEFT JOIN platforms p ON a.platform_id = p.id
            ORDER BY a.created_at DESC
        ".

Definition sql_select_workflows_with_models : string :=
  "
            SELECT w.*, 
                   COALESCE(array_agg(
                       json_build_object(
                           'id', m.id,
                           'name', m.name,
                           'type', m.type,
                           'required', m.required
                       )
                   ) FILTER (WHERE m.id IS NOT NULL), ARRAY[]::json[]) as models
            FROM comfy_workflows w
            LEFT JOIN comfy_models m ON m.workflow_id = w.id
            GROUP BY w.id
            ORDER BY w.created_at DESC
        ".

Record ContentRequest := {
  title : string;
  description : string;
  content_type : string;
  status : string;
}.

Definition get_stats : Handler Value :=
  conn <- acquire_connection ;;
  try_finally
    (user_count <- fetchval conn "SELECT COUNT(*) FROM users" [] ;;
     platform_count <- fetchval conn "SELECT COUNT(*) FROM platforms" [] ;;
     content_count <- fetchval conn "SELECT COUNT(*) FROM content" [] ;;
     account_count <- fetchval conn "SELECT COUNT(*) FROM accounts" [] ;;
     library (stats_response [or_zero user_count; or_zero platform_count;
                              or_zero content_count; or_zero account_count]))
    (release_connection conn).

Definition get_content : Handler Value :=
  conn <- acquire_connection ;;
  try_finally
    (rows <- fetch conn "SELECT * FROM content ORDER BY created_at DESC" [] ;;
     hret (PList (PDict <$> rows)))
    (release_connection conn).

(** [dict(row)] on [None] is a [TypeError]. *)
Definition create_content (request : ContentRequest) : Handler Value :=
  conn <- acquire_connection ;;
  try_finally
    (row <- fetchrow conn sql_insert_content
              [PStr (title request); PStr (description request);
               PStr (content_type request); PStr (status request)] ;;
     match row with
     | Some fields => hret (PDict fields)
     | None => hraise TypeError
     end)
    (release_connection conn).

Definition get_platforms : Handler Value :=
  conn <- acquire_connection ;;
  try_finally
    (rows <- fetch conn "SELECT * FROM platforms ORDER BY name" [] ;;
     hret (PList (PDict <$> rows)))
    (release_connection conn).

Definition get_accounts : Handler Value :=
  conn <- acquire_connection ;;
  try_finally
    (rows <- fetch conn sql_select_accounts [] ;;
     hret (PList (PDict <$> rows)))
    (release_connection conn).

Definition get_workflows : Handler Value :=
  conn <- acquire_connection ;;
  try_finally
    (rows <- fetch conn "SELECT * FROM comfy_workflows ORDER BY created_at DESC" [] ;;
     hret (PList (PDict <$> rows)))
    (release_connection conn).

Definition get_workflows_with_models : Handler Value :=
  conn <- acquire_connection ;;
  try_finally
    (rows <- fetch conn sql_select_workflows_with_models [] ;;
     workflows <- hfor rows (λ row workflows, hret (workflows ++ [PDict row])) [] ;;
     hret (PList workflows))
    (release_connection conn).

Definition get_vast_servers : Handler Value :=
  conn <- acquire_connection ;;
  try_finally
    (rows <- fetch conn "SELECT * FROM vast_servers ORDER BY created_at DESC" [] ;;
     hret (PList (PDict <$> rows)))
    (release_connection conn).

(** The routes that answer with the rows of one statement. *)
Definition listings : list (Handler Value * string) :=
  [(get_content, "SELECT * FROM content ORDER BY created_at DESC");
   (get_platforms, "SELECT * FROM platforms ORDER BY name");
   (get_accounts, sql_select_accounts);
   (get_workflows, "SELECT * FROM comfy_workflows ORDER BY created_at DESC");
   (get_workflows_with_models, sql_select_workflows_with_models);
   (get_vast_servers, "SELECT * FROM vast_servers ORDER BY created_at DESC")].
End routes.
End fastapi_reads.

(** ** A database in memory

    A test double for the driver: the database is the table of workflows,
    from id to the text of its [workflow_json]; users are not stored.
    [loads] knows two texts. *)

Module memdb.
Definition sample_workflow : pyval () :=
  PDict [("nodes",
          PList [PDict [("class_type", PStr "CheckpointLoaderSimple");
                        ("inputs", PDict [("ckpt_name", PStr "sd15.ckpt")])];
                 PDict [("class_type", PStr "KSampler");
                        ("inputs", PDict [("steps", PInt 20)])];
                 PDict [("class_type", PStr "Note")]])].

Definition text (e : pyexn string) : string :=
  match e with
  | HTTPException _ detail => detail
  | TypeError => "TypeError"
  | KeyError key => key
  | PoolFault _ => "AttributeError"
  | LibraryError e => e
  end.

#[global] Instance backend : Backend (gmap Z string) () string := {|
  conn_execute := λ _ sql args d,
    match args with
    | [PInt id] =>
        if String.eqb sql "DELETE FROM comfy_workflows WHERE id = $1"
        then match d !! id with
             | Some _ => (Return "DELETE 1", delete id d)
             | None => (Return "DELETE 0", d)
             end
        else (Return "DELETE 0", d)
    | _ => (Return "INSERT 0 1", d)
    end;
  conn_fetch := λ _ _ _ d,
    (Return [[("id", PInt 1); ("image_urls", PStr "{}")];
             [("id", PInt 2); ("image_urls", PStr "not json")];
             [("id", PInt 3); ("image_urls", PNone)]], d);
  conn_fetchrow := λ _ sql args d,
    match args with
    | [PInt id] =>
        match d !! id with
        | Some json => (Return (Some [("id", PInt id); ("workflow_json", PStr json)]), d)
        | None => (Return None, d)
        end
    | [PStr email; PStr username; PStr first; PStr last; PStr hash] =>
        (Return (Some [("id", PInt 1); ("email", PStr email);
                       ("username", PStr username); ("first_name", PStr first);
                       ("last_name", PStr last); ("created_at", PNone);
                       ("updated_at", PNone)]), d)
    | _ => (Return None, d)
    end;
  conn_fetchval := λ _ _ _ d, (Return (PInt 1), d);
  loads := λ v,
    match v with
    | PStr s =>
        if String.eqb s "{}" then Return (PDict [])
        else if String.eqb s "sample" then Return sample_workflow
        else Raise "Expecting value"
    | _ => Raise "the JSON object must be str"
    end;
  hashpw := λ pw d, (Return ("hashed:" +:+ pw), d);
  checkpw := λ pw stored,
    Return (match stored with PStr h => String.eqb h ("hashed:" +:+ pw) | _ => false end);
  user_response := λ fields, Return (PList fields);
  stats_response := λ fields, Return (PList fields);
  opaque_truthy := λ _, true;
  opaque_eq_int := λ _ _, false;
  exn_text := text;
|}.

Definition boot (workflows : gmap Z string) : App (gmap Z string) () :=
  {| db_pool := None; db := workflows; console := []; queries := [] |}.

(** A database with the sample workflow under id 3. *)
Definition one_workflow : gmap Z string := {[ 3%Z := "sample" ]}.

Definition sample_nodes : list (pyval ()) :=
  [PDict [("class_type", PStr "CheckpointLoaderSimple");
          ("inputs", PDict [("ckpt_name", PStr "sd15.ckpt")])];
   PDict [("class_type", PStr "KSampler");
          ("inputs", PDict [("steps", PInt 20)])];
   PDict [("class_type", PStr "Note")]].
End memdb.

(** ** A database that refuses to write

    A test double for the driver: the tables are empty, a [SELECT]
    answers, and every [INSERT] raises. *)

Module readonlydb.
#[global] Instance backend : Backend nat () string := {|
  conn_execute := λ _ sql _ d,
    if is_substring "INSERT" sql then (Raise "permission denied", d)
    else (Return "SELECT 1", S d);
  conn_fetch := λ _ _ _ d, (Return [], S d);
  conn_fetchrow := λ _ _ _ d, (Return None, S d);
  conn_fetchval := λ _ _ _ d, (Return (PInt 0), S d);
  loads := λ _, Raise "Expecting value";
  hashpw := λ pw d, (Return ("hashed:" +:+ pw), d);
  checkpw := λ _ _, Return false;
  user_response := λ fields, Return (PList fields);
  stats_response := λ fields, Return (PList fields);
  opaque_truthy := λ _, true;
  opaque_eq_int := λ _ _, false;
  exn_text := memdb.text;
|}.

Definition boot : App nat () :=
  {| db_pool := None; db := 0; console := []; queries := [] |}.
End readonlydb.

(** ** The database address

    [src/server/fastapi_server.py] and [src/server/database.py] read
    [DATABASE_URL] from the environment when they are imported and
    rewrite it with [str.startswith], [str.replace], [in] and
    [str.split].  The texts searched for are ASCII, so a search on the
    bytes of the UTF-8 text finds what a search on its code points
    finds: the address is a [string]. *)

Module py_str.
(** Whether [s.replace(old, new, count)] may still replace: [count] is
    [None] when the argument is left out. *)
Definition may_replace (count : option nat) : bool :=
  match count with
  | Some 0 => false
  | _ => true
  end.

(** [s.replace(old, new, count)] for a non-empty [old]: the text is read
    from the left, an occurrence of [old] is replaced by [new] and the
    reading goes on behind it, so occurrences do not overlap.  [skip]
    counts the characters of the occurrence just replaced that are still
    to be passed over. *)
Fixpoint replace_from (old new : string) (count : option nat) (skip : nat) (s : string)
    : string :=
  match s with
  | EmptyString => EmptyString
  | String c s' =>
      match skip with
      | S k => replace_from old new count k s'
      | 0 =>
          if may_replace count && String.prefix old s
          then new +:+ replace_from old new (Nat.pred <$> count) (String.length old - 1) s'
          else String c (replace_from old new count 0 s')
      end
  end.

Definition replace (old new : string) (count : option nat) (s : string) : string :=
  replace_from old new count 0 s.

(** [s.split(sep)[0]] for a non-empty [sep]: the text before the first
    occurrence of [sep], the whole text when there is none. *)
Fixpoint split_first (sep s : string) : string :=
  match s with
  | EmptyString => EmptyString
  | String c s' =>
      if String.prefix sep s then EmptyString else String c (split_first sep s')
  end.
End py_str.

(** [src/server/database.py], lines 9 to 16: the address handed to
    SQLAlchemy.  [env] is the value of the environment variable, [None]
    when it is not set. *)
Module database.
Definition DATABASE_URL (env : option string) : string :=
  let url := default "postgresql://localhost/socialsync" env in
  let url :=
    if String.prefix "postgresql://" url
    then py_str.replace "postgresql://" "postgresql+asyncpg://" (Some 1) url
    else url in
  if is_substring "?sslmode=" url then py_str.split_first "?sslmode=" url else url.
End database.

(** [src/server/fastapi_server.py], lines 23 to 30: the same rewriting,
    then the address [asyncpg.create_pool] is given. *)
Module fastapi_settings.
Definition DATABASE_URL (env : option string) : string :=
  let url := default "postgresql://localhost/socialsync" env in
  let url :=
    if String.prefix "postgresql://" url
    then py_str.replace "postgresql://" "postgresql+asyncpg://" (Some 1) url
    else url in
  if is_substring "?sslmode=" url then py_str.split_first "?sslmode=" url else url.

Definition asyncpg_url (env : option string) : string :=
  py_str.replace "postgresql+asyncpg://" "postgresql://" None (DATABASE_URL env).
End fastapi_settings.

(** ** The request log

    The middleware [log_requests] of [src/server/main.py] and of
    [src/server/fastapi_server.py].  A text is a list of code points, as
    [len] and slicing count it; the body of a response is a byte string.
    The clock, the arithmetic on its floats and the UTF-8 decoder are
    external. *)

Definition pytext : Type := list N.

(** An ASCII literal. *)
Definition lit (s : string) : pytext :=
  Ascii.N_of_ascii <$> String.list_ascii_of_string s.

(** The character [U+2026]. *)
Definition ellipsis : N := 8230%N.

Record Request := {
  req_method : pytext;
  req_path : pytext;
}.

(** [body] is [None] for a response without the attribute. *)
Record Response := {
  status_code : Z;
  body : option string;
}.

Class Http (Site Time : Type) := {
  (** [time.time()] *)
  time_time : Site → Time;
  (** [int((end - start) * 1000)] *)
  elapsed_ms : Time → Time → Z;
  (** [bytes.decode()], [None] when it raises *)
  decode : string → option pytext;
}.

(** The process as the middleware sees it: what the rest of the
    application can change, and the console. *)
Record Served (Site : Type) := {
  site : Site;
  printed : list pytext;
}.
Arguments site {Site} _.
Arguments printed {Site} _.

Section middleware.
Context {Site Time E : Type}.
Context `{!Http Site Time}.

Definition Middleware (A : Type) : Type := Served Site → result E A * Served Site.

(** The state with further lines on the console. *)
Definition logged (st : Served Site) (lines : list pytext) : Served Site :=
  {| site := site st; printed := printed st ++ lines |}.

(** The line both copies start from. *)
Definition log_line (request : Request) (response : Response) (process_time : Z)
    : pytext :=
  req_method request ++ lit " " ++ req_path request ++ lit " "
  ++ lit (pretty (status_code response)) ++ lit " in "
  ++ lit (pretty process_time) ++ lit "ms".

(** [request.url.path.startswith("/api")] *)
Definition is_api (request : Request) : bool :=
  bool_decide (lit "/api" `prefix_of` req_path request).
End middleware.

Module fastapi_middleware.
Section middleware.
Context {Site Time E : Type}.
Context `{!Http Site Time}.

Definition log_requests (request : Request)
    (call_next : Request → Middleware (E := E) Response) : Middleware Response :=
  λ st,
    let start_time := time_time (site st) in
    match call_next request st with
    | (Raise e, st') => (Raise e, st')
    | (Return response, st') =>
        let process_time := elapsed_ms start_time (time_time (site st')) in
        if is_api request
        then (Return response,
              logged st' [lit "[express] " ++ log_line request response process_time])
        else (Return response, st')
    end.
End middleware.
End fastapi_middleware.

Module main_middleware.
Section middleware.
Context {Site Time E : Type}.
Context `{!Http Site Time}.

(** The [try] block on the body: what it appends to the line.  Whatever
    it raises is passed over, and the line stays as it was. *)
Definition body_excerpt (response : Response) : pytext :=
  match body response with
  | None => []
  | Some bytes =>
      match (if String.eqb bytes EmptyString then Some [] else decode bytes) with
      | None => []
      | Some body_str =>
          let body_str :=
            if decide (80 < length body_str)
            then take 79 body_str ++ [ellipsis]
            else body_str in
          match body_str with
          | [] => []
          | _ => lit " :: " ++ body_str
          end
      end
  end.

Definition log_requests (request : Request)
    (call_next : Request → Middleware (E := E) Response) : Middleware Response :=
  λ st,
    let start_time := time_time (site st) in
    match call_next request st with
    | (Raise e, st') => (Raise e, st')
    | (Return response, st') =>
        let process_time := elapsed_ms start_time (time_time (site st')) in
        if is_api request
        then
          let log_line :=
            log_line request response process_time ++ body_excerpt response in
          (Return response, logged st' [lit "[express] " ++ log_line])
        else (Return response, st')
    end.
End middleware.
End main_middleware.

(** A clock that ticks in milliseconds and a decoder for ASCII bodies. *)
Module ticking.
#[global] Instance http : Http nat nat := {|
  time_time := λ now, now;
  elapsed_ms := λ start stop, (Z.of_nat stop - Z.of_nat start)%Z;
  decode := λ bytes, Some (lit bytes);
|}.

(** An application that takes twelve milliseconds and answers [200] with
    the given body. *)
Definition answer (bytes : string) (request : Request) : Middleware (E := string) Response :=
  λ st, (Return {| status_code := 200; body := Some bytes |},
         {| site := site st + 12; printed := printed st |}).

Definition get_stats : Request :=
  {| req_method := lit "GET"; req_path := lit "/api/stats" |}.

Definition hundred : string :=
  String.string_of_list_ascii (replicate 100 (Ascii.ascii_of_nat 120)).
End ticking.

(** ** What [except Exception] lets pass

    The two copies of [broadcast] differ in their handler:
    [websocket_manager.py] has [except Exception as e], [fastapi_server.py]
    a bare [except:].  To tell them apart, [Exn] is read in this part as
    everything a call can raise, the instances of [BaseException]: the
    exceptions proper and the signals that are none, as
    [asyncio.CancelledError] at an [await]. *)

Class Raised (Exn : Type) := {
  (** [isinstance(e, Exception)] *)
  is_Exception : Exn → bool;
}.

Module with_signals.
Section broadcasts.
Context {WebSocket World Exn Any Float : Type}.
Context `{!EqDecision WebSocket}.
Context `{!Runtime WebSocket World Exn Any Float}.
Context `{!Raised Exn}.

Local Abbreviation Task := (@Task WebSocket World Exn Any).

(** [try: body / except Exception as e: handler e]: what is no
    [Exception] leaves the statement. *)
Definition try_except_Exception {A} (body : Task A) (handler : Exn → Task A) : Task A :=
  λ s, match body s with
       | (Return a, s') => (Return a, s')
       | (Raise e, s') => if is_Exception e then handler e s' else (Raise e, s')
       end.

(** [try: body / except: handler]: whatever is raised is caught. *)
Definition try_except_bare {A} (body : Task A) (handler : Task A) : Task A :=
  λ s, match body s with
       | (Return a, s') => (Return a, s')
       | (Raise _, s') => handler s'
       end.

(** No answer of a round of sends is a signal. *)
Definition all_exceptions (answers : list (WebSocket * result Exn ())) : Prop :=
  Forall (λ a : WebSocket * result Exn (), ∀ e, a.2 = Raise e → is_Exception e = true)
    answers.

(** [broadcast] of [src/server/websocket_manager.py], lines 28 to 39. *)
Definition websocket_manager_broadcast (message : string) : Task () :=
  me <~ get_self ;;
  disconnected <~
    for_each (active_connections me)
      (λ connection disconnected,
         try_except_Exception
           (ws_send_text connection message ;;; ret disconnected)
           (λ e,
              print ("[websocket] Error broadcasting to connection: " +:+ str_exn e) ;;;
              ret (disconnected ++ [connection])))
      [] ;;
  for_each disconnected (λ connection _, websocket_manager.disconnect connection) ().

(** [broadcast] of [src/server/fastapi_server.py], lines 51 to 60. *)
Definition fastapi_server_broadcast (message : string) : Task () :=
  me <~ get_self ;;
  disconnected <~
    for_each (active_connections me)
      (λ connection disconnected,
         try_except_bare
           (ws_send_text connection message ;;; ret disconnected)
           (ret (disconnected ++ [connection])))
      [] ;;
  for_each disconnected (λ connection _, fastapi_server.disconnect connection) ().
End broadcasts.
End with_signals.

(** A runtime with a signal: the world lists the handles whose peer has
    gone away and those whose send is cancelled. *)
Module cancelling.
Inductive raised : Type :=
  | ConnectionClosed
  | NotInList
  | CancelledError.

#[global] Instance runtime : Runtime nat (list nat * list nat) raised Z string := {|
  accept := λ _ w, (Return (), w);
  send_text := λ ws _ w,
    if decide (ws ∈ w.1) then (Raise ConnectionClosed, w)
    else if decide (ws ∈ w.2) then (Raise CancelledError, w)
    else (Return (), w);
  loop_time := λ _, "0.0";
  json_dumps := λ _, Return "{}";
  str_exn := λ e, match e with
                  | ConnectionClosed => "connection closed"
                  | NotInList => "list.remove(x): x not in list"
                  | CancelledError => "cancelled"
                  end;
  ValueError := NotInList;
|}.

#[global] Instance classes : Raised raised := {|
  is_Exception := λ e, match e with
                       | ConnectionClosed | NotInList => true
                       | CancelledError => false
                       end;
|}.

Definition boot (conns gone cancelled : list nat) : Sys nat (list nat * list nat) Z :=
  {| self := {| active_connections := conns; progress_data := ∅ |};
     world := (gone, cancelled); stdout := []; history := [] |}.
End cancelling.

(** * Properties *)

(** ** Lists under [remove] *)

Section remove_facts.
Context {A : Type} `{!EqDecision A}.
Implicit Types (x y : A) (l k dead : list A).

Lemma py_remove_split x l l' :
  py_remove x l = Some l' →
  ∃ l1 l2, l = l1 ++ x :: l2 ∧ l' = l1 ++ l2 ∧ x ∉ l1.
Proof.
  revert l'. induction l as [|y l IH]; intros l' Hrm; [done|].
  simpl in Hrm. destruct (decide (x = y)) as [->|Hne].
  - injection Hrm as <-. exists [], l. split_and!; [done..|]. apply not_elem_of_nil.
  - destruct (py_remove x l) as [l0|] eqn:Hl; [|done].
    injection Hrm as <-.
    destruct (IH l0 eq_refl) as (l1 & l2 & -> & -> & Hnot).
    exists (y :: l1), l2. split_and!; [done..|].
    rewrite not_elem_of_cons. done.
Qed.

Lemma py_remove_None x l : py_remove x l = None ↔ x ∉ l.
Proof.
  induction l as [|y l IH]; simpl.
  - split; [intros _; apply not_elem_of_nil | done].
  - rewrite not_elem_of_cons. destruct (decide (x = y)) as [->|Hne].
    + split; [done | intros [? _]; done].
    + destruct (py_remove x l); simpl.
      * split; [done|]. intros [_ Hl]. by apply IH in Hl.
      * split; [|done]. intros _. split; [done | by apply IH].
Qed.

Lemma py_remove_elem x l : x ∈ l → is_Some (py_remove x l).
Proof.
  intros Hin. destruct (py_remove x l) eqn:Hrm; [by eexists|].
  by apply py_remove_None in Hrm.
Qed.

Lemma discard_absent x l : x ∉ l → discard x l = l.
Proof. intros Hx. unfold discard. by apply py_remove_None in Hx as ->. Qed.

Lemma discard_present x l :
  x ∈ l →
  ∃ l1 l2, l = l1 ++ x :: l2 ∧ discard x l = l1 ++ l2 ∧ x ∉ l1.
Proof.
  intros [l' Hrm]%py_remove_elem. unfold discard. rewrite Hrm. simpl.
  by apply py_remove_split.
Qed.

Lemma discard_sublist x l : discard x l `sublist_of` l.
Proof.
  destruct (decide (x ∈ l)) as [Hin|Hout].
  - destruct (discard_present _ _ Hin) as (l1 & l2 & -> & -> & _).
    apply sublist_app; [done|]. by apply sublist_cons.
  - by rewrite discard_absent.
Qed.

Lemma discard_Permutation x l : x ∈ l → l ≡ₚ x :: discard x l.
Proof.
  intros Hin. destruct (discard_present _ _ Hin) as (l1 & l2 & -> & -> & _).
  by rewrite Permutation_middle.
Qed.

Lemma discard_length x l : x ∈ l → length l = S (length (discard x l)).
Proof. intros Hin. by rewrite (discard_Permutation x l Hin) at 1. Qed.

Lemma discard_NoDup x l : NoDup l → x ∉ discard x l.
Proof.
  intros Hnd. destruct (decide (x ∈ l)) as [Hin|Hout].
  - rewrite (discard_Permutation x l Hin) in Hnd. by apply NoDup_cons in Hnd as [? _].
  - by rewrite discard_absent.
Qed.

Lemma prune_sublist dead l : prune dead l `sublist_of` l.
Proof.
  revert l. induction dead as [|x dead IH]; intros l; [done|].
  unfold prune. simpl. etrans; [apply IH | apply discard_sublist].
Qed.

(** Discarding a sub-multiset removes exactly that multiset. *)
Lemma prune_Permutation dead l : dead ⊆+ l → l ≡ₚ dead ++ prune dead l.
Proof.
  revert l. induction dead as [|x dead IH]; intros l Hsub; [done|].
  assert (x ∈ l) as Hin.
  { eapply elem_of_submseteq; [|done]. by left. }
  rewrite (discard_Permutation x l Hin) in Hsub.
  apply (submseteq_app_inv_l _ _ [x]) in Hsub.
  unfold prune. simpl. rewrite <-(IH _ Hsub).
  by apply discard_Permutation.
Qed.

Lemma occurrences_Permutation x l k :
  l ≡ₚ k → occurrences x l = occurrences x k.
Proof. unfold occurrences. by intros ->. Qed.

Lemma occurrences_app x l k :
  occurrences x (l ++ k) = occurrences x l + occurrences x k.
Proof. unfold occurrences. by rewrite filter_app, length_app. Qed.

Lemma occurrences_elem x l : x ∈ l → 1 ≤ occurrences x l.
Proof.
  intros Hx. unfold occurrences.
  assert (x ∈ filter (x =.) l) as Hf by by apply list_elem_of_filter.
  destruct (filter (x =.) l); [by apply elem_of_nil in Hf | simpl; lia].
Qed.

Lemma occurrences_NoDup x l : NoDup l → occurrences x l ≤ 1.
Proof.
  unfold occurrences. induction 1 as [|y l Hy Hnd IH]; [simpl; lia|].
  rewrite filter_cons. destruct (decide (x = y)) as [<-|]; [|done].
  simpl. destruct (filter (x =.) l) as [|z k] eqn:Hf; [done|].
  assert (z ∈ filter (x =.) l) as Hz by (rewrite Hf; left).
  apply list_elem_of_filter in Hz as [<- Hz]. done.
Qed.
End remove_facts.

(** ** What a round of sends leaves in the history *)

Section event_facts.
Context {WebSocket : Type}.
Implicit Types (ev : io_event WebSocket) (evs : list (io_event WebSocket)).

Lemma failed_app evs1 evs2 : failed (evs1 ++ evs2) = failed evs1 ++ failed evs2.
Proof. unfold failed. by rewrite filter_app, fmap_app. Qed.

Lemma delivered_app evs1 evs2 :
  delivered (evs1 ++ evs2) = delivered evs1 ++ delivered evs2.
Proof. unfold delivered. by rewrite filter_app, fmap_app. Qed.


Lemma failed_sublist evs : failed evs `sublist_of` ev_target <$> evs.
Proof. unfold failed. apply fmap_sublist, sublist_filter. Qed.

Lemma delivered_sublist evs : delivered evs `sublist_of` ev_target <$> evs.
Proof. unfold delivered. apply fmap_sublist, sublist_filter. Qed.
End event_facts.

(** ** Runs of the registry methods *)

Section runs.
Context {WebSocket World Exn Any Float : Type}.
Context `{!EqDecision WebSocket}.
Context `{!Runtime WebSocket World Exn Any Float}.

Local Abbreviation Task := (@Task WebSocket World Exn Any).
Local Abbreviation State := (Sys WebSocket World Any).
Implicit Types (s : State) (ws c : WebSocket) (conns dead : list WebSocket).
Implicit Types (message : string).

Lemma bind_run {A B} (t : Task A) (k : A → Task B) s :
  bind t k s =
  match t s with
  | (Return a, s') => k a s'
  | (Raise e, s') => (Raise e, s')
  end.
Proof. done. Qed.

Lemma evolve_id s : evolve s (active_connections (self s)) (world s) [] [] = s.
Proof. destruct s as [[??]???]. unfold evolve. simpl. by rewrite !app_nil_r. Qed.

Lemma evolve_evolve s conns w out evs conns' w' out' evs' :
  evolve (evolve s conns w out evs) conns' w' out' evs' =
  evolve s conns' w' (out ++ out') (evs ++ evs').
Proof. unfold evolve. simpl. by rewrite !app_assoc. Qed.

Lemma print_console_only line : console_only (print line : Task ()).
Proof.
  intros s. exists [line]. destruct s as [[??]???].
  unfold print, evolve. simpl. by rewrite app_nil_r.
Qed.

Lemma ret_console_only : console_only (ret () : Task ()).
Proof. intros s. exists []. by rewrite evolve_id. Qed.

(** One guarded removal followed by a line on the console: the shape of
    both [disconnect] methods. *)
Lemma guarded_remove_run (remove : WebSocket → Task ()) (line : nat → string) ws s :
  (∀ s0 l, py_remove ws (active_connections (self s0)) = Some l →
           remove ws s0 = set_active_connections l s0) →
  (me <~ get_self ;;
   (if decide (ws ∈ active_connections me) then remove ws else ret ()) ;;;
   me <~ get_self ;;
   print (line (length (active_connections me)))) s
  = (Return (),
     evolve s (discard ws (active_connections (self s))) (world s)
       [line (length (discard ws (active_connections (self s))))] []).
Proof.
  intros Hremove. rewrite bind_run. simpl. rewrite bind_run.
  destruct (decide (ws ∈ active_connections (self s))) as [Hin|Hout].
  - destruct (py_remove_elem _ _ Hin) as [l Hl].
    rewrite (Hremove s l Hl). unfold discard. rewrite Hl.
    unfold evolve. simpl. by rewrite !app_nil_r.
  - rewrite discard_absent by done. clear Hremove Hout.
    destruct s as [[??]???]. unfold evolve. simpl. by rewrite !app_nil_r.
Qed.

Lemma remove_connection_run ws s l :
  py_remove ws (active_connections (self s)) = Some l →
  websocket_manager.remove_connection ws s = set_active_connections l s.
Proof.
  intros Hl. unfold websocket_manager.remove_connection.
  rewrite bind_run. simpl. by rewrite Hl.
Qed.

Lemma disconnect_run ws s :
  websocket_manager.disconnect ws s
  = (Return (),
     evolve s (discard ws (active_connections (self s))) (world s)
       ["[websocket] Client disconnected. Total connections: "
          +:+ pretty (length (discard ws (active_connections (self s))))] []).
Proof.
  apply (guarded_remove_run websocket_manager.remove_connection
           (λ n, "[websocket] Client disconnected. Total connections: " +:+ pretty n)).
  intros s0 l. apply remove_connection_run.
Qed.

Lemma fastapi_remove_connection_run ws s l :
  py_remove ws (active_connections (self s)) = Some l →
  fastapi_server.remove_connection ws s = set_active_connections l s.
Proof.
  intros Hl. unfold fastapi_server.remove_connection.
  rewrite bind_run. simpl. by rewrite Hl.
Qed.

Lemma fastapi_disconnect_run ws s :
  fastapi_server.disconnect ws s
  = (Return (),
     evolve s (discard ws (active_connections (self s))) (world s)
       ["[websocket] Client disconnected. Total: "
          +:+ pretty (length (discard ws (active_connections (self s))))] []).
Proof.
  apply (guarded_remove_run fastapi_server.remove_connection
           (λ n, "[websocket] Client disconnected. Total: " +:+ pretty n)).
  intros s0 l. apply fastapi_remove_connection_run.
Qed.
(** The second loop of [broadcast]: one [disconnect] per collected handle. *)
Lemma prune_loop_run (disc : WebSocket → Task ()) dead s :
  (∀ ws s0, ∃ out,
     disc ws s0 = (Return (),
                   evolve s0 (discard ws (active_connections (self s0))) (world s0) out [])) →
  ∃ out,
    for_each dead (λ connection _, disc connection) () s
    = (Return (), evolve s (prune dead (active_connections (self s))) (world s) out []).
Proof.
  intros Hdisc. revert s. induction dead as [|c dead IH]; intros s.
  - exists []. simpl. unfold ret. by rewrite evolve_id.
  - simpl. rewrite bind_run.
    destruct (Hdisc c s) as [out1 ->].
    destruct (IH (evolve s (discard c (active_connections (self s))) (world s) out1 []))
      as [out2 ->].
    exists (out1 ++ out2). by rewrite evolve_evolve.
Qed.

Lemma for_each_cons {X Acc} (x : X) (xs : list X) (body : X → Acc → Task Acc) acc s :
  for_each (x :: xs) body acc s =
  match body x acc s with
  | (Return acc', s') => for_each xs body acc' s'
  | (Raise e, s') => (Raise e, s')
  end.
Proof. done. Qed.

(** One turn of the first loop of [broadcast]: the send is attempted once;
    if it raises, the handler logs and the handle is collected. *)
Lemma send_step_run (log : Exn → Task ()) message c (acc : list WebSocket) s :
  (∀ e, console_only (log e)) →
  ∃ ok out w,
    try_except
      (ws_send_text c message ;;; ret acc)
      (λ e, log e ;;; ret (acc ++ [c])) s
    = (Return (acc ++ if ok : bool then [] else [c]),
       evolve s (active_connections (self s)) w out [EvSend c message ok]).
Proof.
  intros Hlog. destruct s as [[conns prog] w0 out0 evs0].
  unfold try_except. rewrite bind_run.
  unfold ws_send_text, transport. simpl.
  destruct (send_text c message w0) as [[[]|e] w1].
  - exists true, [], w1. unfold ret, evolve. simpl. by rewrite !app_nil_r.
  - rewrite bind_run.
    match goal with |- context [log e ?st] => destruct (Hlog e st) as [out1 ->] end.
    exists false, out1, w1. unfold ret, evolve. simpl. by rewrite !app_nil_r.
Qed.

(** The first loop of [broadcast]: one send per entry, in order, whatever
    the outcome of the sends before; the handles whose send raised are
    collected, and the registry is not touched. *)
Lemma send_loop_run (log : Exn → Task ()) message conns (acc : list WebSocket) s :
  (∀ e, console_only (log e)) →
  ∃ evs out w,
    for_each conns
      (λ connection disconnected,
         try_except
           (ws_send_text connection message ;;; ret disconnected)
           (λ e, log e ;;; ret (disconnected ++ [connection])))
      acc s
    = (Return (acc ++ failed evs),
       evolve s (active_connections (self s)) w out evs)
    ∧ ev_target <$> evs = conns
    ∧ Forall (λ ev, is_send_of message ev = true) evs.
Proof.
  intros Hlog. revert acc s. induction conns as [|c conns IH]; intros acc s.
  - exists [], [], (world s). simpl. unfold ret.
    by rewrite evolve_id, app_nil_r.
  - rewrite for_each_cons.
    destruct (send_step_run log message c acc s Hlog) as (ok & out1 & w1 & ->).
    destruct (IH (acc ++ (if ok then [] else [c]))
                (evolve s (active_connections (self s)) w1 out1 [EvSend c message ok]))
      as (evs & out & w & -> & Htargets & Hsends).
    exists (EvSend c message ok :: evs), (out1 ++ out), w. split_and!.
    + rewrite evolve_evolve. simpl. f_equal. f_equal.
      rewrite <-app_assoc. f_equal.
      unfold failed. rewrite filter_cons. simpl.
      destruct ok; simpl.
      * destruct (decide (true = false)); done.
      * destruct (decide (false = false)); done.
    + rewrite fmap_cons. simpl. by f_equal.
    + constructor; [|done]. simpl. by rewrite bool_decide_eq_true.
Qed.

(** Both loops in sequence, for any console-only logging and any
    [disconnect] that is a guarded removal. *)
Lemma rounds_run (log : Exn → Task ()) (disc : WebSocket → Task ()) message s :
  (∀ e, console_only (log e)) →
  (∀ ws s0, ∃ out,
     disc ws s0 = (Return (),
                   evolve s0 (discard ws (active_connections (self s0))) (world s0) out [])) →
  ∃ evs out w,
    (me <~ get_self ;;
     disconnected <~
       for_each (active_connections me)
         (λ connection disconnected,
            try_except
              (ws_send_text connection message ;;; ret disconnected)
              (λ e, log e ;;; ret (disconnected ++ [connection])))
         [] ;;
     for_each disconnected (λ connection _, disc connection) ()) s
    = (Return (),
       evolve s (prune (failed evs) (active_connections (self s))) w out evs)
    ∧ ev_target <$> evs = active_connections (self s)
    ∧ Forall (λ ev, is_send_of message ev = true) evs.
Proof.
  intros Hlog Hdisc. rewrite bind_run. simpl. rewrite bind_run.
  destruct (send_loop_run log message (active_connections (self s)) [] s Hlog)
    as (evs & out1 & w & -> & Htargets & Hsends).
  simpl.
  destruct (prune_loop_run disc (failed evs)
              (evolve s (active_connections (self s)) w out1 evs) Hdisc)
    as [out2 ->].
  exists evs, (out1 ++ out2), w. split_and!; [|done..].
  rewrite evolve_evolve. simpl. by rewrite app_nil_r.
Qed.

Lemma broadcast_run message s :
  ∃ evs out w,
    websocket_manager.broadcast message s
    = (Return (),
       evolve s (prune (failed evs) (active_connections (self s))) w out evs)
    ∧ ev_target <$> evs = active_connections (self s)
    ∧ Forall (λ ev, is_send_of message ev = true) evs.
Proof.
  apply (rounds_run
           (λ e, print ("[websocket] Error broadcasting to connection: " +:+ str_exn e))
           websocket_manager.disconnect).
  - intros e. apply print_console_only.
  - intros ws s0. eexists. apply disconnect_run.
Qed.

Lemma fastapi_broadcast_run message s :
  ∃ evs out w,
    fastapi_server.broadcast message s
    = (Return (),
       evolve s (prune (failed evs) (active_connections (self s))) w out evs)
    ∧ ev_target <$> evs = active_connections (self s)
    ∧ Forall (λ ev, is_send_of message ev = true) evs.
Proof.
  apply (rounds_run (λ _, ret ()) fastapi_server.disconnect).
  - intros _. apply ret_console_only.
  - intros ws s0. eexists. apply fastapi_disconnect_run.
Qed.
End runs.

(** ** The broadcast registry *)

Section registry_claims.
Context {WebSocket World Exn Any Float : Type}.
Context `{!EqDecision WebSocket}.
Context `{!Runtime WebSocket World Exn Any Float}.

Local Abbreviation Task := (@Task WebSocket World Exn Any).
Local Abbreviation State := (Sys WebSocket World Any).
Implicit Types (s : State) (ws c : WebSocket) (message : string).

(** What both [broadcast] methods do, read off the run lemmas: [evs] are
    the sends of this call. *)
Lemma broadcast_effect (bc : string → Task ()) message s :
  (∃ evs out w,
     bc message s
     = (Return (),
        evolve s (prune (failed evs) (active_connections (self s))) w out evs)
     ∧ ev_target <$> evs = active_connections (self s)
     ∧ Forall (λ ev, is_send_of message ev = true) evs) →
  ∃ evs,
    (bc message s).1 = Return ()
    ∧ history (bc message s).2 = history s ++ evs
    ∧ active_connections (self (bc message s).2)
      = prune (failed evs) (active_connections (self s))
    ∧ progress_data (self (bc message s).2) = progress_data (self s)
    ∧ ev_target <$> evs = active_connections (self s)
    ∧ Forall (λ ev, is_send_of message ev = true) evs.
Proof.
  intros (evs & out & w & -> & Htargets & Hsends). by exists evs.
Qed.


End registry_claims.

Section registry_methods.
Context {WebSocket World Exn Any Float : Type}.
Context `{!EqDecision WebSocket}.
Context `{!Runtime WebSocket World Exn Any Float}.

Local Abbreviation Task := (@Task WebSocket World Exn Any).
Local Abbreviation State := (Sys WebSocket World Any).
Implicit Types (s : State) (ws c : WebSocket) (message : string).

Lemma connect_run c s :
  websocket_manager.connect c s =
  match accept c (world s) with
  | (Return _, w) =>
      (Return (),
       evolve s (active_connections (self s) ++ [c]) w
         ["[websocket] Client connected. Total connections: "
            +:+ pretty (length (active_connections (self s) ++ [c]))]
         [EvAccept c true])
  | (Raise e, w) =>
      (Raise e, evolve s (active_connections (self s)) w [] [EvAccept c false])
  end.
Proof.
  destruct s as [[conns prog] w0 out0 evs0].
  unfold websocket_manager.connect. rewrite bind_run.
  unfold ws_accept, transport. simpl.
  destruct (accept c w0) as [[[]|e] w1]; unfold evolve; simpl.
  - done.
  - by rewrite app_nil_r.
Qed.

(** C2, as the code has it.  [connect] has no membership test: when the
    handshake succeeds the handle is appended, registered or not; when
    the handshake raises, the exception reaches the caller and the
    registry is as before.  Two [connect] calls for one handle therefore
    add one entry per handshake that succeeded: two when both calls
    return, one only when the second handshake raised.  A duplicate-free
    registry stays so when the handle connected was not registered. *)
Theorem connect_appends c s :
  let once := websocket_manager.connect c s in
  let twice := (websocket_manager.connect c ;;; websocket_manager.connect c) s in
  match accept c (world s) with
  | (Return _, _) =>
      once.1 = Return ()
      ∧ active_connections (self once.2) = active_connections (self s) ++ [c]
  | (Raise e, _) =>
      once.1 = Raise e
      ∧ active_connections (self once.2) = active_connections (self s)
  end
  ∧ (∃ evs,
       history twice.2 = history s ++ evs
       ∧ Forall (λ ev, ev_target ev = c) evs
       ∧ active_connections (self twice.2)
         = active_connections (self s)
             ++ replicate (length (filter (λ ev, ev_ok ev = true) evs)) c)
  ∧ (twice.1 = Return () →
     occurrences c (active_connections (self twice.2))
     = occurrences c (active_connections (self s)) + 2)
  ∧ (NoDup (active_connections (self s)) → c ∉ active_connections (self s) →
     NoDup (active_connections (self once.2))).
Proof.
  cbv zeta. split_and!.
  - rewrite connect_run. by destruct (accept c (world s)) as [[[]|e] w].
  - rewrite bind_run, connect_run.
    destruct (accept c (world s)) as [[[]|e] w].
    + rewrite connect_run. simpl.
      destruct (accept c w) as [[[]|e] w']; simpl.
      * exists [EvAccept c true; EvAccept c true].
        rewrite <-!app_assoc. split_and!; [done|by repeat constructor|done].
      * exists [EvAccept c true; EvAccept c false].
        rewrite <-!app_assoc. split_and!; [done|by repeat constructor|done].
    + simpl. exists [EvAccept c false].
      split_and!; [done|by repeat constructor|by rewrite app_nil_r].
  - rewrite bind_run, connect_run.
    destruct (accept c (world s)) as [[[]|e] w]; [|done].
    rewrite connect_run. simpl.
    destruct (accept c w) as [[[]|e] w']; [|done].
    intros _. simpl. rewrite !occurrences_app.
    unfold occurrences at 2 3. rewrite filter_cons. simpl.
    destruct (decide (c = c)); [simpl; lia | done].
  - intros Hnd Hout. rewrite connect_run.
    destruct (accept c (world s)) as [[[]|e] w]; simpl; [|done].
    apply NoDup_app. split_and!; [done| |apply NoDup_singleton].
    intros x Hx ->%list_elem_of_singleton. done.
Qed.

Lemma send_personal_message_run message ws s :
  websocket_manager.send_personal_message message ws s =
  match send_text ws message (world s) with
  | (Return _, w) =>
      (Return (), evolve s (active_connections (self s)) w [] [EvSend ws message true])
  | (Raise e, w) =>
      (Return (),
       evolve s (discard ws (active_connections (self s))) w
         ["[websocket] Error sending personal message: " +:+ str_exn e;
          "[websocket] Client disconnected. Total connections: "
            +:+ pretty (length (discard ws (active_connections (self s))))]
         [EvSend ws message false])
  end.
Proof.
  destruct s as [[conns prog] w0 out0 evs0].
  unfold websocket_manager.send_personal_message, try_except.
  unfold ws_send_text, transport. simpl.
  destruct (send_text ws message w0) as [[[]|e] w1].
  - unfold evolve. simpl. by rewrite app_nil_r.
  - rewrite bind_run. simpl. rewrite disconnect_run.
    unfold evolve. simpl. by rewrite <-!app_assoc, app_nil_r.
Qed.

(** C3, as the code has it.  [send_personal_message] always returns
    normally.  When the underlying send raises, the exception is caught:
    a line goes to the console, the handle's first entry (if any) leaves
    the registry, and the caller is handed the same [None] as after a
    successful send. *)
Theorem send_personal_message_swallows message ws s :
  let r := websocket_manager.send_personal_message message ws s in
  r.1 = Return ()
  ∧ history r.2
    = history s ++ [EvSend ws message
                      (match (send_text ws message (world s)).1 with
                       | Return _ => true
                       | Raise _ => false
                       end)]
  ∧ progress_data (self r.2) = progress_data (self s)
  ∧ match (send_text ws message (world s)).1 with
    | Return _ =>
        active_connections (self r.2) = active_connections (self s)
        ∧ stdout r.2 = stdout s
    | Raise e =>
        active_connections (self r.2) = discard ws (active_connections (self s))
        ∧ ∃ line, stdout r.2
                  = stdout s ++ ["[websocket] Error sending personal message: "
                                   +:+ str_exn e; line]
    end.
Proof.
  simpl. rewrite send_personal_message_run.
  destruct (send_text ws message (world s)) as [[[]|e] w]; simpl.
  - split_and!; try done. by rewrite app_nil_r.
  - split_and!; try done. by eexists.
Qed.

(** C8. [disconnect] returns normally on every input.  If the handle is
    registered its first entry is removed and nothing else moves: the
    registry has one entry fewer, and in a duplicate-free registry the
    handle is gone.  If the handle is not registered the registry is
    unchanged.  The progress store, the transports and the history are
    never touched. *)
Theorem disconnect_removes_if_present ws s :
  let r := websocket_manager.disconnect ws s in
  let before := active_connections (self s) in
  let after := active_connections (self r.2) in
  r.1 = Return ()
  ∧ progress_data (self r.2) = progress_data (self s)
  ∧ world r.2 = world s
  ∧ history r.2 = history s
  ∧ (ws ∈ before →
     (∃ l1 l2, before = l1 ++ ws :: l2 ∧ after = l1 ++ l2 ∧ ws ∉ l1)
     ∧ length before = S (length after)
     ∧ (NoDup before → ws ∉ after))
  ∧ (ws ∉ before → after = before).
Proof.
  simpl. rewrite disconnect_run. simpl. rewrite app_nil_r.
  split_and!; try done.
  - intros Hin. split_and!.
    + by apply discard_present.
    + by apply discard_length.
    + apply discard_NoDup.
  - apply discard_absent.
Qed.

End registry_methods.

(** ** The message helpers and the progress store *)

Section progress_claims.
Context {WebSocket World Exn Any Float : Type}.
Context `{!EqDecision WebSocket}.
Context `{!Runtime WebSocket World Exn Any Float}.

Local Abbreviation Task := (@Task WebSocket World Exn Any).
Local Abbreviation State := (Sys WebSocket World Any).
Implicit Types (s : State) (ws c : WebSocket) (message : string).
Implicit Types (a b progress : gmap string Any).

Lemma broadcast_progress_run (generation_id : Z) progress s :
  websocket_manager.broadcast_progress generation_id progress s =
  match json_dumps [("type", PyStr "progress");
                    ("generationId", PyInt generation_id);
                    ("data", PyDict progress)] with
  | Return text => websocket_manager.broadcast text s
  | Raise e => (Raise e, s)
  end.
Proof.
  unfold websocket_manager.broadcast_progress. rewrite bind_run. unfold dumps.
  by destruct (json_dumps _).
Qed.

Lemma broadcast_setup_progress_run (server_id step total_steps : Z) message s :
  websocket_manager.broadcast_setup_progress server_id step total_steps message s =
  match json_dumps [("type", PyStr "setup_progress");
                    ("serverId", PyInt server_id);
                    ("step", PyInt step);
                    ("totalSteps", PyInt total_steps);
                    ("message", PyStr message);
                    ("timestamp", PyFloat (loop_time (world s)))] with
  | Return text => websocket_manager.broadcast text s
  | Raise e => (Raise e, s)
  end.
Proof.
  unfold websocket_manager.broadcast_setup_progress. rewrite bind_run.
  unfold get_time. rewrite bind_run. unfold dumps.
  by destruct (json_dumps _).
Qed.

(** C7. [broadcast_progress] builds the dictionary with the keys [type]
    (the string [progress]), [generationId] and [data], in that order,
    encodes it with [json.dumps] and hands the text to [broadcast];
    [broadcast_setup_progress] does the same with the keys [type] (the
    string [setup_progress]), [serverId], [step], [totalSteps], [message]
    and [timestamp], the latter being the event loop's clock.  Every send
    of the call carries exactly that text.  If the encoder raises, no
    send is made. *)
Theorem progress_helpers_broadcast_json
    (generation_id server_id step total_steps : Z) progress message s :
  let progress_msg : list (string * pyobj Any Float) :=
    [("type", PyStr "progress");
     ("generationId", PyInt generation_id);
     ("data", PyDict progress)] in
  let setup_msg : list (string * pyobj Any Float) :=
    [("type", PyStr "setup_progress");
     ("serverId", PyInt server_id);
     ("step", PyInt step);
     ("totalSteps", PyInt total_steps);
     ("message", PyStr message);
     ("timestamp", PyFloat (loop_time (world s)))] in
  let sends_only (text : string) (r : result Exn () * State) :=
    ∃ evs, history r.2 = history s ++ evs
           ∧ ev_target <$> evs = active_connections (self s)
           ∧ Forall (λ ev, is_send_of text ev = true) evs in
  match json_dumps progress_msg with
  | Return text =>
      websocket_manager.broadcast_progress generation_id progress s
      = websocket_manager.broadcast text s
      ∧ sends_only text (websocket_manager.broadcast_progress generation_id progress s)
  | Raise e =>
      websocket_manager.broadcast_progress generation_id progress s = (Raise e, s)
  end
  ∧ match json_dumps setup_msg with
    | Return text =>
        websocket_manager.broadcast_setup_progress server_id step total_steps message s
        = websocket_manager.broadcast text s
        ∧ sends_only text
            (websocket_manager.broadcast_setup_progress
               server_id step total_steps message s)
    | Raise e =>
        websocket_manager.broadcast_setup_progress server_id step total_steps message s
        = (Raise e, s)
    end.
Proof.
  cbv zeta. rewrite broadcast_progress_run, broadcast_setup_progress_run.
  split.
  - destruct (json_dumps _) as [text|e]; [|done].
    split; [done|].
    destruct (broadcast_run text s) as (evs & out & w & -> & Htargets & Hsends).
    by exists evs.
  - destruct (json_dumps _) as [text|e]; [|done].
    split; [done|].
    destruct (broadcast_run text s) as (evs & out & w & -> & Htargets & Hsends).
    by exists evs.
Qed.

Lemma store_progress_run (generation_id : Z) progress s :
  (websocket_manager.store_progress (Exn := Exn)) generation_id progress s
  = (Return (),
     {| self := {| active_connections := active_connections (self s);
                   progress_data := <[generation_id := progress]> (progress_data (self s)) |};
        world := world s; stdout := stdout s; history := history s |}).
Proof. done. Qed.

Lemma get_progress_run (generation_id : Z) s :
  (websocket_manager.get_progress (Exn := Exn)) generation_id s
  = (Return (default ∅ (progress_data (self s) !! generation_id)), s).
Proof. done. Qed.

(** C4. Two [store_progress] calls for one generation id followed by
    [get_progress] return the second payload.  The second call replaces
    the record of the first: the store holds one record for the id, as
    many records as after the first call, and the records of the other
    ids are those it held before. *)
Theorem store_progress_last_write_wins (generation_id : Z) a b s :
  let s1 := ((websocket_manager.store_progress (Exn := Exn)) generation_id a s).2 in
  let s2 := ((websocket_manager.store_progress (Exn := Exn)) generation_id b s1).2 in
  ((websocket_manager.store_progress (Exn := Exn)) generation_id a ;;;
   (websocket_manager.store_progress (Exn := Exn)) generation_id b ;;;
   (websocket_manager.get_progress (Exn := Exn)) generation_id) s
  = (Return b, s2)
  ∧ occurrences generation_id (map_to_list (progress_data (self s2))).*1 = 1
  ∧ size (progress_data (self s2)) = size (progress_data (self s1))
  ∧ ∀ other, other ≠ generation_id →
             progress_data (self s2) !! other = progress_data (self s) !! other.
Proof.
  cbv zeta. rewrite !bind_run, !store_progress_run. simpl.
  split_and!.
  - rewrite bind_run, store_progress_run, get_progress_run. simpl.
    by rewrite lookup_insert_eq.
  - apply Nat.le_antisymm.
    + apply occurrences_NoDup, NoDup_fst_map_to_list.
    + apply occurrences_elem, list_elem_of_fmap.
      exists (generation_id, b). split; [done|].
      apply elem_of_map_to_list, lookup_insert_eq.
  - rewrite !map_size_insert, lookup_insert_eq. simpl.
    by destruct (progress_data (self s) !! generation_id).
  - intros other Hother. by rewrite !lookup_insert_ne.
Qed.

(** C9. [get_progress] returns on every id and changes nothing; for an id
    without a record the value returned is the empty mapping. *)
Theorem get_progress_default (generation_id : Z) s :
  progress_data (self s) !! generation_id = None →
  (websocket_manager.get_progress (Exn := Exn)) generation_id s = (Return ∅, s)
  ∧ ∀ other : Z, ∃ d, (websocket_manager.get_progress (Exn := Exn)) other s = (Return d, s).
Proof.
  intros Hnone. rewrite get_progress_run, Hnone. split; [done|].
  intros other. eexists. apply get_progress_run.
Qed.

(** C10. [broadcast] adds nothing to the registry and does not touch the
    progress store: the registry after the call is a subsequence of the
    registry before it, and [progress_data] is what it was.  The methods
    of the progress store leave the registry as it is. *)
Theorem registry_and_store_are_framed message (generation_id : Z) progress s :
  (∀ bc : string → Task (),
     bc ∈ [websocket_manager.broadcast; fastapi_server.broadcast] →
     active_connections (self (bc message s).2) `sublist_of` active_connections (self s)
     ∧ progress_data (self (bc message s).2) = progress_data (self s))
  ∧ active_connections (self ((websocket_manager.store_progress (Exn := Exn)) generation_id progress s).2)
    = active_connections (self s)
  ∧ ((websocket_manager.get_progress (Exn := Exn)) generation_id s).2 = s
  ∧ ((websocket_manager.get_all_progress (Exn := Exn)) s).2 = s
  ∧ active_connections (self ((websocket_manager.clear_progress (Exn := Exn)) generation_id s).2)
    = active_connections (self s).
Proof.
  split_and!; try done.
  - intros bc Hbc.
    assert (∃ evs out w,
      bc message s
      = (Return (),
         evolve s (prune (failed evs) (active_connections (self s))) w out evs))
      as (evs & out & w & ->).
    { apply elem_of_cons in Hbc as [-> | Hbc].
      - destruct (broadcast_run message s) as (evs & out & w & Hrun & _); eauto.
      - apply list_elem_of_singleton in Hbc as ->.
        destruct (fastapi_broadcast_run message s) as (evs & out & w & Hrun & _); eauto. }
    simpl. split; [apply prune_sublist | done].
  - unfold websocket_manager.clear_progress. rewrite bind_run. simpl.
    by destruct (decide (is_Some (progress_data (self s) !! generation_id))).
Qed.
End progress_claims.

(** ** The database pool *)

Section pool_claims.
Import fastapi_server.
Implicit Types (p : Pool) (db : option Pool) (calls : list pool_call).

Lemma py_remove_length {A} `{!EqDecision A} (x : A) (l l' : list A) :
  py_remove x l = Some l' → length l = S (length l').
Proof.
  intros (l1 & l2 & -> & -> & _)%py_remove_split.
  rewrite !length_app. simpl. lia.
Qed.

(** Handing out a connection keeps the number of connections unless none
    is idle, and then opens one only below the maximum. *)
Lemma grant_sizes p c p' :
  grant p = Some (c, p') →
  length (idle p) + length (in_use p) ≤ maximum p →
  maximum p' = maximum p
  ∧ length (idle p') + length (in_use p') ≤ maximum p'
  ∧ length (in_use p') = S (length (in_use p))
  ∧ (opened p = length (idle p) + length (in_use p) →
     opened p' = length (idle p') + length (in_use p'))
  ∧ opened p ≤ opened p' ≤ S (opened p)
  ∧ (idle p ≠ [] → opened p' = opened p)
  ∧ waiting p' = waiting p.
Proof.
  unfold grant. intros Hgrant Hsize.
  destruct (idle p) as [|c0 rest] eqn:Hidle.
  - destruct (decide (length (in_use p) = maximum p)) as [Hfull|Hroom]; [done|].
    injection Hgrant as <- <-. simpl in *. rewrite length_app. simpl.
    split_and!; try done; lia.
  - injection Hgrant as <- <-. simpl in *. rewrite length_app. simpl.
    split_and!; try done; lia.
Qed.

Lemma acquire_inv n p :
  pool_inv n (Some p) → pool_inv (S n) (Some (acquire p).2).
Proof.
  intros (Hmax & Hsize & Hopened & Hn). unfold acquire.
  destruct (grant p) as [[c p']|] eqn:Hgrant; simpl.
  - destruct (grant_sizes _ _ _ Hgrant Hsize) as (Hmax' & ? & ? & Ho & ? & _).
    split_and!; [congruence | done | by apply Ho | lia].
  - split_and!; [done..|lia].
Qed.

Lemma release_inv n conn p :
  pool_inv n (Some p) → pool_inv n (Some (release conn p)).
Proof.
  intros (Hmax & Hsize & Hopened & Hn). unfold release.
  destruct (py_remove conn (in_use p)) as [rest|] eqn:Hrm; [|done].
  apply py_remove_length in Hrm.
  set (p1 := {| minimum := minimum p; maximum := maximum p;
                idle := idle p ++ [conn]; in_use := rest;
                opened := opened p; waiting := waiting p |}).
  assert (pool_inv n (Some p1)) as Hp1.
  { unfold p1. simpl. rewrite length_app. simpl. split_and!; [done|lia..]. }
  simpl. destruct (waiting p) as [|k]; [done|].
  destruct (grant p1) as [[c p2]|] eqn:Hgrant; [|done].
  destruct Hp1 as (Hmax1 & Hsize1 & Hopened1 & Hn1).
  destruct (grant_sizes _ _ _ Hgrant Hsize1) as (Hmax2 & ? & ? & Ho & ? & Hsame & _).
  simpl. split_and!; [congruence | done | by apply Ho |].
  rewrite Hsame; [done|]. unfold p1. simpl. by destruct (idle p).
Qed.

Lemma pool_step_inv n db c :
  pool_inv n db →
  pool_inv (n + (if is_acquire c then 1 else 0)) (pool_step db c).
Proof.
  intros Hinv. destruct c as [|conn]; simpl.
  - rewrite Nat.add_1_r. unfold get_db_connection.
    destruct db as [p|].
    + pose proof (acquire_inv n p Hinv) as Hacq.
      by destruct (acquire p).
    + assert (pool_inv 0 (Some (create_pool 1 10))) as Hnew.
      { simpl. split_and!; [done | lia | done..]. }
      simpl in Hinv. subst n.
      pose proof (acquire_inv 0 _ Hnew) as Hacq.
      by destruct (acquire (create_pool 1 10)).
  - rewrite Nat.add_0_r. destruct db as [p|]; simpl; [|done].
    by apply release_inv.
Qed.

Lemma pool_run_inv n db calls :
  pool_inv n db →
  pool_inv (n + length (filter (λ c, is_acquire c = true) calls)) (foldl pool_step db calls).
Proof.
  revert n db. induction calls as [|c calls IH]; intros n db Hinv; simpl.
  - by rewrite Nat.add_0_r.
  - apply (pool_step_inv _ _ c), IH in Hinv.
    rewrite filter_cons. destruct c as [|conn]; simpl in *.
    + destruct (decide (true = true)); [|done]. simpl.
      by rewrite <-Nat.add_assoc in Hinv.
    + destruct (decide (false = true)); [done|].
      by rewrite Nat.add_0_r in Hinv.
Qed.

(** C6. Whatever acquire and release calls the handlers make, in any
    order and with any handles, the connections in use never exceed the
    maximum the pool was created with, which is 10; together with the idle
    ones they never exceed it either.  No connection exists before the
    first acquire, each connection is opened by an acquire call, and a
    release opens none. *)
Theorem pool_never_exceeds_maximum calls :
  pool_run [] = None
  ∧ match pool_run calls with
    | None => filter (λ c, is_acquire c = true) calls = []
    | Some p =>
        maximum p = 10
        ∧ length (in_use p) ≤ maximum p
        ∧ length (idle p) + length (in_use p) ≤ maximum p
        ∧ opened p = length (idle p) + length (in_use p)
        ∧ opened p ≤ length (filter (λ c, is_acquire c = true) calls)
    end
  ∧ ∀ conn, match pool_run calls with
            | None => True
            | Some p =>
                opened (release conn p) = opened p
            end.
Proof.
  split; [done|].
  pose proof (pool_run_inv 0 None calls eq_refl) as Hinv.
  fold (pool_run calls) in Hinv. split.
  - destruct (pool_run calls) as [p|]; simpl in Hinv.
    + destruct Hinv as (? & ? & ? & ?). split_and!; [done|lia|done..].
    + by apply length_zero_iff_nil.
  - intros conn. destruct (pool_run calls) as [p|]; [|done].
    destruct Hinv as (Hmax & Hsize & Hopened & Hn). unfold release.
    destruct (py_remove conn (in_use p)) as [rest|] eqn:Hrm; [|done].
    apply py_remove_length in Hrm. simpl.
    destruct (waiting p) as [|k]; [done|].
    match goal with |- context [grant ?q] => destruct (grant q) as [[c p2]|] eqn:Hgrant end;
      [|done].
    simpl. apply grant_sizes in Hgrant as (_ & _ & _ & _ & _ & Hsame & _).
    + rewrite Hsame; [done|]. simpl. by destruct (idle p).
    + simpl. rewrite length_app. simpl. lia.
Qed.
End pool_claims.

(** ** Concrete runs on the scripted runtime *)

(** The scenario of the specification: A, B, C registered, B's send
    raises; A and C receive the message and the registry is left with
    A and C. *)
Example broadcast_scenario :
  let r := websocket_manager.broadcast "x" (scripted.boot [1; 2; 3] [2]) in
  r.1 = Return ()
  ∧ delivered (history r.2) = [1; 3]
  ∧ failed (history r.2) = [2]
  ∧ active_connections (self r.2) = [1; 3].
Proof. vm_compute. done. Qed.

(** C2 fails as stated: from the empty registry, two [connect] calls for
    handle 7, both handshakes succeeding, leave two entries for 7. *)
Lemma connect_twice_two_entries :
  let r := (websocket_manager.connect 7 ;;; websocket_manager.connect 7)
             (scripted.boot [] []) in
  r.1 = Return ()
  ∧ active_connections (self r.2) = [7; 7]
  ∧ occurrences 7 (active_connections (self r.2)) = 2
  ∧ ¬ NoDup (active_connections (self r.2)).
Proof.
  vm_compute. split_and!; [done..|].
  intros [Hnotin _]%NoDup_cons. apply Hnotin. left.
Qed.

Lemma connect_appends_witness :
  NoDup (active_connections
           (self (websocket_manager.connect 7 (scripted.boot [3] [])).2)).
Proof.
  apply (connect_appends (Runtime0 := scripted.runtime) 7 (scripted.boot [3] [])).
  - simpl. apply NoDup_singleton.
  - simpl. intros Hin%list_elem_of_singleton. discriminate Hin.
Defined.

(** C3 fails as stated: handle 1 is registered and its peer is gone, so
    the send raises; [send_personal_message] unregisters the handle and
    returns normally, exactly as it does when the send succeeds. *)
Lemma send_failure_not_reported :
  let s := scripted.boot [1] [1] in
  let r := websocket_manager.send_personal_message "hi" 1 s in
  (send_text 1 "hi" (world s)).1 = Raise "peer gone"
  ∧ r.1 = Return ()
  ∧ active_connections (self r.2) = []
  ∧ r.1 = (websocket_manager.send_personal_message "hi" 1 (scripted.boot [1] [])).1.
Proof. vm_compute. done. Qed.

Lemma disconnect_removes_if_present_witness :
  2 ∉ active_connections
        (self (websocket_manager.disconnect 2 (scripted.boot [1; 2; 3] [])).2).
Proof.
  apply (disconnect_removes_if_present (Runtime0 := scripted.runtime) 2
           (scripted.boot [1; 2; 3] [])).
  - simpl. apply elem_of_cons. right. left.
  - simpl. apply NoDup_ListNoDup. repeat constructor; simpl; intuition discriminate.
Defined.

Lemma get_progress_default_witness :
  websocket_manager.get_progress (Exn := string) 5 (scripted.boot [1] [])
  = (Return ∅, scripted.boot [1] []).
Proof.
  apply (get_progress_default (Exn := string) 5 (scripted.boot [1] [])).
  reflexivity.
Defined.

(** The encoder of the scripted runtime on the two message shapes. *)
Example broadcast_progress_scenario :
  ∃ text,
    scripted.encode [("type", PyStr "progress");
                     ("generationId", PyInt 7);
                     ("data", PyDict {[ "pct" := 50%Z ]})] = Return text
    ∧ history (websocket_manager.broadcast_progress 7 {[ "pct" := 50%Z ]}
                 (scripted.boot [4] [])).2
      = [EvSend 4 text true].
Proof. eexists. split; [reflexivity|]. vm_compute. done. Qed.

(** * Further properties of the registry *)

Section exact_runs.
Context {WebSocket World Exn Any Float : Type}.
Context `{!EqDecision WebSocket}.
Context `{!Runtime WebSocket World Exn Any Float}.

Local Abbreviation Task := (@Task WebSocket World Exn Any).
Local Abbreviation State := (Sys WebSocket World Any).
Implicit Types (s : State) (ws c : WebSocket) (conns dead : list WebSocket).
Implicit Types (message : string) (answers : list (WebSocket * result Exn ())).

Lemma round_failed_events message answers :
  failed (round_events message answers) = round_failed answers.
Proof.
  unfold round_failed, failed, round_events.
  induction answers as [|[c r] answers IH]; [done|].
  rewrite !fmap_cons, !filter_cons.
  repeat case_decide; simplify_eq/=; rewrite ?fmap_cons; [by f_equal | done].
Qed.

Lemma round_events_targets message conns w :
  ev_target <$> round_events message (send_round message conns w).1 = conns.
Proof.
  revert w. induction conns as [|c conns IH]; intros w; [done|].
  simpl. destruct (send_text c message w) as [r w1].
  specialize (IH w1). destruct (send_round message conns w1) as [answers w2].
  simpl in *. f_equal. exact IH.
Qed.

Lemma round_failed_sublist message conns w :
  round_failed (send_round message conns w).1 `sublist_of` conns.
Proof.
  rewrite <-(round_failed_events message).
  rewrite <-(round_events_targets message conns w) at 2.
  apply failed_sublist.
Qed.

(** One turn of the first loop, with the transport's answer made
    explicit; a send that returns prints nothing. *)
Lemma send_step_exact (log : Exn → Task ()) message c (acc : list WebSocket) s :
  (∀ e, console_only (log e)) →
  ∃ out,
    try_except
      (ws_send_text c message ;;; ret acc)
      (λ e, log e ;;; ret (acc ++ [c])) s
    = (Return (acc ++ round_failed [(c, (send_text c message (world s)).1)]),
       evolve s (active_connections (self s)) (send_text c message (world s)).2 out
         (round_events message [(c, (send_text c message (world s)).1)]))
    ∧ (returned (send_text c message (world s)).1 = true → out = []).
Proof.
  intros Hlog. destruct s as [[conns prog] w0 out0 evs0].
  unfold try_except. rewrite bind_run.
  unfold ws_send_text, transport. simpl.
  destruct (send_text c message w0) as [[[]|e] w1]; simpl.
  - exists []. split; [|done].
    unfold ret, evolve, round_failed, failed. simpl. by rewrite !app_nil_r.
  - rewrite bind_run.
    match goal with |- context [log e ?st] => destruct (Hlog e st) as [out1 ->] end.
    exists out1. split; [|done].
    unfold ret, evolve, round_failed, failed. simpl. by rewrite !app_nil_r.
Qed.

Lemma send_loop_exact (log : Exn → Task ()) message conns (acc : list WebSocket) s :
  (∀ e, console_only (log e)) →
  ∃ out,
    for_each conns
      (λ connection disconnected,
         try_except
           (ws_send_text connection message ;;; ret disconnected)
           (λ e, log e ;;; ret (disconnected ++ [connection])))
      acc s
    = (Return (acc ++ round_failed (send_round message conns (world s)).1),
       evolve s (active_connections (self s)) (send_round message conns (world s)).2 out
         (round_events message (send_round message conns (world s)).1))
    ∧ (round_failed (send_round message conns (world s)).1 = [] → out = []).
Proof.
  intros Hlog. revert acc s. induction conns as [|c conns IH]; intros acc s.
  - exists []. simpl. unfold ret, round_failed, failed. simpl.
    by rewrite evolve_id, app_nil_r.
  - rewrite for_each_cons.
    destruct (send_step_exact log message c acc s Hlog) as (out1 & -> & Hquiet1).
    simpl. destruct (send_text c message (world s)) as [r w1]. simpl in *.
    match goal with |- context [for_each conns _ ?a ?st] =>
      destruct (IH a st) as (out2 & -> & Hquiet2) end.
    simpl in *. destruct (send_round message conns w1) as [answers w2]. simpl in *.
    exists (out1 ++ out2). split.
    + rewrite evolve_evolve. simpl. rewrite <-app_assoc. f_equal. f_equal.
      unfold round_failed. by rewrite <-failed_app.
    + intros Hnone.
      assert (round_failed [(c, r)] ++ round_failed answers = []) as Hnil.
      { unfold round_failed in *. by rewrite <-failed_app. }
      apply app_eq_nil in Hnil as [Hc Hrest].
      rewrite Hquiet2 by done. rewrite app_nil_r. apply Hquiet1.
      unfold round_failed, failed in Hc. simpl in Hc.
      rewrite filter_cons in Hc. simpl in Hc.
      destruct (returned r); [done|].
      by destruct (decide (false = false)).
Qed.

Lemma prune_loop_quiet (disc : WebSocket → Task ()) s :
  for_each [] (λ connection _, disc connection) () s = (Return (), s).
Proof. done. Qed.

(** Both loops, with the registry, the world and the history after the
    call determined by the answers of the transports: only the console
    depends on which copy of [broadcast] ran. *)
Lemma rounds_exact (log : Exn → Task ()) (disc : WebSocket → Task ()) message s :
  (∀ e, console_only (log e)) →
  (∀ ws s0, ∃ out,
     disc ws s0 = (Return (),
                   evolve s0 (discard ws (active_connections (self s0))) (world s0) out [])) →
  let round := send_round message (active_connections (self s)) (world s) in
  ∃ out,
    (me <~ get_self ;;
     disconnected <~
       for_each (active_connections me)
         (λ connection disconnected,
            try_except
              (ws_send_text connection message ;;; ret disconnected)
              (λ e, log e ;;; ret (disconnected ++ [connection])))
         [] ;;
     for_each disconnected (λ connection _, disc connection) ()) s
    = (Return (),
       evolve s (prune (round_failed round.1) (active_connections (self s)))
         round.2 out (round_events message round.1))
    ∧ (round_failed round.1 = [] → out = []).
Proof.
  intros Hlog Hdisc. cbv zeta. rewrite bind_run. simpl. rewrite bind_run.
  destruct (send_loop_exact log message (active_connections (self s)) [] s Hlog)
    as (out1 & -> & Hquiet1).
  simpl.
  destruct (send_round message (active_connections (self s)) (world s))
    as [answers w] eqn:Hround.
  simpl in *.
  destruct (round_failed answers) as [|d dead] eqn:Hfailed.
  - exists []. split; [|done]. rewrite Hquiet1 by done. done.
  - destruct (prune_loop_run disc (d :: dead)
                (evolve s (active_connections (self s)) w out1
                   (round_events message answers)) Hdisc) as [out2 ->].
    exists (out1 ++ out2). split; [|done].
    rewrite evolve_evolve. simpl. by rewrite app_nil_r.
Qed.

Lemma broadcast_exact message s :
  let round := send_round message (active_connections (self s)) (world s) in
  ∃ out,
    websocket_manager.broadcast message s
    = (Return (),
       evolve s (prune (round_failed round.1) (active_connections (self s)))
         round.2 out (round_events message round.1))
    ∧ (round_failed round.1 = [] → out = []).
Proof.
  apply (rounds_exact
           (λ e, print ("[websocket] Error broadcasting to connection: " +:+ str_exn e))
           websocket_manager.disconnect).
  - intros e. apply print_console_only.
  - intros ws s0. eexists. apply disconnect_run.
Qed.

Lemma fastapi_broadcast_exact message s :
  let round := send_round message (active_connections (self s)) (world s) in
  ∃ out,
    fastapi_server.broadcast message s
    = (Return (),
       evolve s (prune (round_failed round.1) (active_connections (self s)))
         round.2 out (round_events message round.1))
    ∧ (round_failed round.1 = [] → out = []).
Proof.
  apply (rounds_exact (λ _, ret ()) fastapi_server.disconnect).
  - intros _. apply ret_console_only.
  - intros ws s0. eexists. apply fastapi_disconnect_run.
Qed.
End exact_runs.

(** ** The claims about [broadcast], on the answers of the transports *)

Section broadcast_claims.
Context {WebSocket World Exn Any Float : Type}.
Context `{!EqDecision WebSocket}.
Context `{!Runtime WebSocket World Exn Any Float}.

Local Abbreviation Task := (@Task WebSocket World Exn Any).
Local Abbreviation State := (Sys WebSocket World Any).
Implicit Types (s : State) (ws c : WebSocket) (conns : list WebSocket).
Implicit Types (message : string) (answers : list (WebSocket * result Exn ())).

Lemma send_round_targets message conns w :
  (send_round message conns w).1.*1 = conns.
Proof.
  revert w. induction conns as [|c conns IH]; intros w; [done|].
  simpl. destruct (send_text c message w) as [r w1].
  specialize (IH w1). destruct (send_round message conns w1) as [answers w2].
  simpl in *. by f_equal.
Qed.

Lemma send_round_app message conns1 conns2 w :
  send_round message (conns1 ++ conns2) w
  = ((send_round message conns1 w).1
       ++ (send_round message conns2 (send_round message conns1 w).2).1,
     (send_round message conns2 (send_round message conns1 w).2).2).
Proof.
  revert w. induction conns1 as [|c conns1 IH]; intros w.
  - simpl. by destruct (send_round message conns2 w).
  - simpl. destruct (send_text c message w) as [r w1]. rewrite IH.
    destruct (send_round message conns1 w1) as [answers1 w2]. simpl.
    by destruct (send_round message conns2 w2).
Qed.

(** The send an entry gets is the call of [send_text] on it in the world
    the sends to the entries before it left, whatever those answered. *)
Lemma send_round_lookup message conns w i c :
  conns !! i = Some c →
  (send_round message conns w).1 !! i
  = Some (c, (send_text c message (send_round message (take i conns) w).2).1).
Proof.
  intros Hi. rewrite <-(take_drop_middle conns i c Hi) at 1.
  rewrite send_round_app. cbn [fst].
  assert (length (send_round message (take i conns) w).1 = i) as Hlen.
  { rewrite <-(length_fmap fst), send_round_targets, length_take.
    apply lookup_lt_Some in Hi. lia. }
  rewrite lookup_app_r by lia. rewrite Hlen, Nat.sub_diag. simpl.
  destruct (send_text c message _) as [r w1].
  by destruct (send_round message (drop (S i) conns) w1).
Qed.




(** C5. A [broadcast] never raises, whatever the sends answer.  Every
    entry of the registry gets exactly one send: the entry at position
    [i] gets the call of [send_text] made in the world the first [i]
    sends left, whether those returned or raised, and nothing is sent
    twice to an entry.  A handle is therefore tried as many times as it
    has entries: once when it is registered once, and more than once when
    it is registered more than once. *)
Theorem broadcast_contains_failures message s :
  let r := websocket_manager.broadcast message s in
  let conns := active_connections (self s) in
  let round := send_round message conns (world s) in
  r.1 = Return ()
  ∧ world r.2 = round.2
  ∧ history r.2 = history s ++ round_events message round.1
  ∧ length round.1 = length conns
  ∧ (∀ i c, conns !! i = Some c →
       round.1 !! i
       = Some (c, (send_text c message
                     (send_round message (take i conns) (world s)).2).1))
  ∧ (∀ c, occurrences c round.1.*1 = occurrences c conns)
  ∧ (∀ c, occurrences c round.1.*1 ≤ 1 ↔ occurrences c conns ≤ 1).
Proof.
  cbv zeta. destruct (broadcast_exact message s) as (out & -> & _).
  pose proof (send_round_targets message (active_connections (self s)) (world s))
    as Htargets.
  cbn [fst snd evolve self world history active_connections].
  split_and!; try done.
  - by rewrite <-(length_fmap fst), Htargets.
  - intros i c Hi. by apply send_round_lookup.
  - intros c. by rewrite Htargets.
  - intros c. by rewrite Htargets.
Qed.
End broadcast_claims.


(** C5 fails as stated: handle 7 is connected twice, both handshakes
    succeeding, and one [broadcast] then calls [send_text] on it twice. *)
Lemma broadcast_sends_twice_to_duplicate :
  let s := ((websocket_manager.connect 7 ;;; websocket_manager.connect 7)
              (scripted.boot [] [])).2 in
  let r := websocket_manager.broadcast "x" s in
  active_connections (self s) = [7; 7]
  ∧ (send_round "x" (active_connections (self s)) (world s)).1
    = [(7, Return ()); (7, Return ())]
  ∧ r.1 = Return ()
  ∧ history r.2 = history s ++ [EvSend 7 "x" true; EvSend 7 "x" true]
  ∧ occurrences 7 (ev_target <$> [EvSend 7 "x" true; EvSend 7 "x" true]) = 2.
Proof. vm_compute. done. Qed.

Section registry_algebra.
Context {WebSocket World Exn Any Float : Type}.
Context `{!EqDecision WebSocket}.
Context `{!Runtime WebSocket World Exn Any Float}.

Local Abbreviation Task := (@Task WebSocket World Exn Any).
Local Abbreviation State := (Sys WebSocket World Any).
Implicit Types (s : State) (ws c : WebSocket) (conns dead : list WebSocket).
Implicit Types (message : string).

Lemma discard_app_new c conns :
  discard c (conns ++ [c]) = if decide (c ∈ conns) then discard c conns ++ [c] else conns.
Proof.
  destruct (decide (c ∈ conns)) as [Hin|Hout].
  - destruct (discard_present c conns Hin) as (l1 & l2 & -> & -> & Hl1).
    rewrite <-!app_assoc. simpl.
    assert (c ∈ l1 ++ c :: l2 ++ [c]) as Hin'.
    { apply elem_of_app. right. left. }
    destruct (discard_present _ _ Hin') as (k1 & k2 & Heq & -> & Hk1).
    assert (k1 = l1) as ->.
    { revert k1 Heq Hk1. clear Hin Hin'. induction l1 as [|x l1 IH]; intros k1 Heq Hk1.
      - destruct k1 as [|y k1]; [done|]. simpl in Heq. injection Heq as <- _.
        exfalso. apply Hk1. left.
      - apply not_elem_of_cons in Hl1 as [Hx Hl1].
        destruct k1 as [|y k1]; simpl in Heq.
        + injection Heq as -> _. done.
        + injection Heq as <- Heq. f_equal. apply IH; [done..|].
          by apply not_elem_of_cons in Hk1 as [_ ?]. }
    apply app_inv_head in Heq. injection Heq as <-. done.
  - assert (c ∈ conns ++ [c]) as Hin' by (apply elem_of_app; right; left).
    destruct (discard_present _ _ Hin') as (k1 & k2 & Heq & -> & Hk1).
    revert k1 Heq Hk1. clear Hin'. induction conns as [|x conns IH]; intros k1 Heq Hk1.
    + destruct k1 as [|y k1]; simpl in Heq.
      * by injection Heq as <-.
      * injection Heq as <- Heq. by destruct k1.
    + apply not_elem_of_cons in Hout as [Hx Hout].
      destruct k1 as [|y k1]; simpl in Heq.
      * injection Heq as -> _. done.
      * injection Heq as <- Heq. simpl. f_equal. apply IH; [done..|].
        by apply not_elem_of_cons in Hk1 as [_ ?].
Qed.

Lemma discard_discard_NoDup c conns :
  NoDup conns → discard c (discard c conns) = discard c conns.
Proof. intros Hnd. apply discard_absent. by apply discard_NoDup. Qed.

Lemma prune_all conns : prune conns conns = [].
Proof.
  pose proof (prune_Permutation conns conns (reflexivity _)) as Hperm.
  apply Permutation_length in Hperm. rewrite length_app in Hperm.
  apply length_zero_iff_nil. lia.
Qed.

Lemma prune_NoDup_disjoint dead conns c :
  NoDup conns → dead ⊆+ conns → c ∈ dead → c ∉ prune dead conns.
Proof.
  intros Hnd Hsub Hc.
  rewrite (prune_Permutation dead conns Hsub) in Hnd.
  apply NoDup_app in Hnd as (_ & Hdisj & _). by apply Hdisj.
Qed.

Lemma fastapi_connect_run c s :
  fastapi_server.connect c s =
  match accept c (world s) with
  | (Return _, w) =>
      (Return (),
       evolve s (active_connections (self s) ++ [c]) w
         ["[websocket] Client connected. Total: "
            +:+ pretty (length (active_connections (self s) ++ [c]))]
         [EvAccept c true])
  | (Raise e, w) =>
      (Raise e, evolve s (active_connections (self s)) w [] [EvAccept c false])
  end.
Proof.
  destruct s as [[conns prog] w0 out0 evs0].
  unfold fastapi_server.connect. rewrite bind_run.
  unfold ws_accept, transport. simpl.
  destruct (accept c w0) as [[[]|e] w1]; unfold evolve; simpl.
  - done.
  - by rewrite app_nil_r.
Qed.

(** X2. What a [broadcast] leaves behind is decided by the answers of
    the transports alone.  If no send raises, the registry and the
    console are exactly as before and only the world and the history
    move; in particular on an empty registry the call changes nothing at
    all.  If every send raises, the registry ends empty. *)
Theorem broadcast_by_answers message s :
  let conns := active_connections (self s) in
  let round := send_round message conns (world s) in
  let r := websocket_manager.broadcast message s in
  (round_failed round.1 = [] →
   r = (Return (), evolve s conns round.2 [] (round_events message round.1)))
  ∧ (conns = [] → r = (Return (), s))
  ∧ (round_failed round.1 = conns → active_connections (self r.2) = []).
Proof.
  cbv zeta. destruct (broadcast_exact message s) as (out & -> & Hquiet).
  split_and!.
  - intros Hnone. rewrite Hquiet by done. by rewrite Hnone.
  - intros Hempty. rewrite Hempty in *. simpl in *.
    rewrite Hquiet by done. unfold prune, round_failed, failed. simpl.
    rewrite <-Hempty. apply f_equal, evolve_id.
  - intros ->. simpl. apply prune_all.
Qed.

(** X3. Two broadcasts in a row: the second one sends exactly to the
    entries the first one left, in their order.  In a duplicate-free
    registry a handle whose send raised during the first broadcast gets
    no send during the second. *)
Theorem second_broadcast_skips_pruned (m1 m2 : string) s :
  let conns := active_connections (self s) in
  let round1 := send_round m1 conns (world s) in
  let survivors := prune (round_failed round1.1) conns in
  let round2 := send_round m2 survivors round1.2 in
  let r := (websocket_manager.broadcast m1 ;;; websocket_manager.broadcast m2) s in
  r.1 = Return ()
  ∧ history r.2 = history s ++ round_events m1 round1.1 ++ round_events m2 round2.1
  ∧ ev_target <$> round_events m2 round2.1 = survivors
  ∧ (NoDup conns →
     ∀ c, c ∈ round_failed round1.1 → c ∉ ev_target <$> round_events m2 round2.1).
Proof.
  cbv zeta. rewrite bind_run.
  destruct (broadcast_exact m1 s) as (out1 & -> & _).
  match goal with |- context [websocket_manager.broadcast m2 ?st] =>
    destruct (broadcast_exact m2 st) as (out2 & -> & _) end.
  simpl. split_and!.
  - done.
  - by rewrite <-app_assoc.
  - apply round_events_targets.
  - intros Hnd c Hc. rewrite round_events_targets.
    apply prune_NoDup_disjoint; [done| |done].
    apply sublist_submseteq, round_failed_sublist.
Qed.

(** X4. No method but [connect] adds to the registry: after
    [disconnect], [send_personal_message], [broadcast_progress] or
    [broadcast_setup_progress] the registry is a subsequence of what it
    was, so a duplicate-free registry stays duplicate-free. *)
Theorem registry_never_grows message c (generation_id server_id step total : Z)
    (progress : gmap string Any) s :
  ∀ t : Task (),
    t ∈ [websocket_manager.disconnect c;
         websocket_manager.send_personal_message message c;
         websocket_manager.broadcast message;
         websocket_manager.broadcast_progress generation_id progress;
         websocket_manager.broadcast_setup_progress server_id step total message] →
    active_connections (self (t s).2) `sublist_of` active_connections (self s)
    ∧ (NoDup (active_connections (self s)) → NoDup (active_connections (self (t s).2))).
Proof.
  intros t Ht.
  assert (active_connections (self (t s).2) `sublist_of` active_connections (self s))
    as Hsub.
  { assert (∀ m, active_connections (self (websocket_manager.broadcast m s).2)
                 `sublist_of` active_connections (self s)) as Hbc.
    { intros m. destruct (broadcast_run m s) as (evs & out & w & -> & _).
      apply prune_sublist. }
    repeat (apply elem_of_cons in Ht as [-> | Ht]).
    - rewrite disconnect_run. apply discard_sublist.
    - rewrite send_personal_message_run.
      destruct (send_text c message (world s)) as [[[]|e] w]; simpl;
        [done | apply discard_sublist].
    - apply Hbc.
    - rewrite broadcast_progress_run. destruct (json_dumps _); [apply Hbc | done].
    - rewrite broadcast_setup_progress_run. destruct (json_dumps _); [apply Hbc | done].
    - by apply elem_of_nil in Ht. }
  split; [done|]. intros Hnd. by eapply sublist_NoDup.
Qed.

(** X5. A [connect] followed by a [disconnect] of the same handle, the
    handshake succeeding: if the handle was not registered the registry
    is back to what it was; if it was, its oldest entry is the one
    removed and the new one stays at the end. *)
Theorem connect_then_disconnect c s :
  returned (accept c (world s)).1 = true →
  let r := (websocket_manager.connect c ;;; websocket_manager.disconnect c) s in
  let conns := active_connections (self s) in
  r.1 = Return ()
  ∧ active_connections (self r.2)
    = (if decide (c ∈ conns) then discard c conns ++ [c] else conns)
  ∧ length (active_connections (self r.2)) = length conns.
Proof.
  intros Hok. cbv zeta. rewrite bind_run, connect_run.
  destruct (accept c (world s)) as [[[]|e] w]; [|done].
  rewrite disconnect_run. simpl. rewrite discard_app_new.
  split_and!; [done..|].
  destruct (decide (c ∈ active_connections (self s))) as [Hin|]; [|done].
  rewrite length_app, (discard_length c _ Hin). simpl. lia.
Qed.

(** X6. In a duplicate-free registry a second [disconnect] of the same
    handle changes nothing in the registry; in any registry each
    [disconnect] removes at most one entry. *)
Theorem disconnect_twice c s :
  let once := websocket_manager.disconnect c s in
  let twice := (websocket_manager.disconnect c ;;; websocket_manager.disconnect c) s in
  twice.1 = Return ()
  ∧ length (active_connections (self s)) ≤ S (length (active_connections (self once.2)))
  ∧ (NoDup (active_connections (self s)) →
     active_connections (self twice.2) = active_connections (self once.2)).
Proof.
  cbv zeta. rewrite bind_run, disconnect_run, disconnect_run. simpl.
  split_and!; [done| |].
  - destruct (decide (c ∈ active_connections (self s))) as [Hin|Hout].
    + rewrite (discard_length c _ Hin). lia.
    + rewrite discard_absent by done. lia.
  - apply discard_discard_NoDup.
Qed.
End registry_algebra.

(** ** The two copies of the manager *)

Section copies.
Context {WebSocket World Exn Any Float : Type}.
Context `{!EqDecision WebSocket}.
Context `{!Runtime WebSocket World Exn Any Float}.
Context `{!Raised Exn}.

Local Abbreviation Task := (@Task WebSocket World Exn Any).
Local Abbreviation State := (Sys WebSocket World Any).
Implicit Types (s : State) (ws c : WebSocket) (conns head tail : list WebSocket).
Implicit Types (message : string) (answers : list (WebSocket * result Exn ())).

Lemma for_each_app {X Acc} (xs ys : list X) (body : X → Acc → Task Acc) acc s :
  for_each (xs ++ ys) body acc s =
  match for_each xs body acc s with
  | (Return acc', s') => for_each ys body acc' s'
  | (Raise e, s') => (Raise e, s')
  end.
Proof.
  revert acc s. induction xs as [|x xs IH]; intros acc s; [done|].
  rewrite <-app_comm_cons, !for_each_cons.
  destruct (body x acc s) as [[acc'|e] s']; [apply IH | done].
Qed.

(** While no signal is raised, [except Exception] is [except]. *)
Lemma guarded_loop_plain (log : Exn → Task ()) message conns (acc : list WebSocket) s :
  (∀ e, console_only (log e)) →
  with_signals.all_exceptions (send_round message conns (world s)).1 →
  for_each conns
    (λ connection disconnected,
       with_signals.try_except_Exception
         (ws_send_text connection message ;;; ret disconnected)
         (λ e, log e ;;; ret (disconnected ++ [connection])))
    acc s
  = for_each conns
      (λ connection disconnected,
         try_except
           (ws_send_text connection message ;;; ret disconnected)
           (λ e, log e ;;; ret (disconnected ++ [connection])))
      acc s.
Proof.
  intros Hlog. revert acc s. induction conns as [|c conns IH]; intros acc s Hall; [done|].
  rewrite !for_each_cons.
  assert (with_signals.try_except_Exception
            (ws_send_text c message ;;; ret acc)
            (λ e, log e ;;; ret (acc ++ [c])) s
          = try_except
              (ws_send_text c message ;;; ret acc)
              (λ e, log e ;;; ret (acc ++ [c])) s) as ->.
  { unfold with_signals.try_except_Exception, try_except. rewrite bind_run.
    unfold ws_send_text, transport.
    simpl in Hall. destruct (send_text c message (world s)) as [[[]|e] w1]; [done|].
    destruct (send_round message conns w1) as [answers w2].
    apply Forall_cons in Hall as [Hc _]. simpl in *. by rewrite (Hc e eq_refl). }
  destruct (send_step_exact log message c acc s Hlog) as (out1 & -> & _).
  apply IH. unfold with_signals.all_exceptions in *. cbn [world evolve].
  simpl in Hall. destruct (send_text c message (world s)) as [r w1].
  cbn [snd]. destruct (send_round message conns w1) as [answers w2].
  by apply Forall_cons in Hall as [_ Hall].
Qed.

(** The first signal ends the loop of [websocket_manager.py]. *)
Lemma guarded_loop_signal (log : Exn → Task ()) message head ws tail
    (acc : list WebSocket) s e :
  (∀ e, console_only (log e)) →
  with_signals.all_exceptions (send_round message head (world s)).1 →
  (send_text ws message (send_round message head (world s)).2).1 = Raise e →
  is_Exception e = false →
  ∃ out,
    for_each (head ++ ws :: tail)
      (λ connection disconnected,
         with_signals.try_except_Exception
           (ws_send_text connection message ;;; ret disconnected)
           (λ e, log e ;;; ret (disconnected ++ [connection])))
      acc s
    = (Raise e,
       evolve s (active_connections (self s))
         (send_text ws message (send_round message head (world s)).2).2 out
         (round_events message
            ((send_round message head (world s)).1 ++ [(ws, Raise e)]))).
Proof.
  intros Hlog Hall Hsend Hsignal.
  rewrite for_each_app, guarded_loop_plain by done.
  destruct (send_loop_exact log message head acc s Hlog) as (out & -> & _).
  exists out. rewrite for_each_cons.
  unfold with_signals.try_except_Exception. rewrite bind_run.
  unfold ws_send_text, transport. cbn [world evolve].
  destruct (send_text ws message (send_round message head (world s)).2) as [r w1].
  simpl in Hsend. subst r. rewrite Hsignal.
  unfold evolve, round_events. simpl. by rewrite fmap_app, !app_assoc.
Qed.

Lemma bare_broadcast_run message s :
  with_signals.fastapi_server_broadcast message s = fastapi_server.broadcast message s.
Proof. done. Qed.

(** X1. The manager copied into [fastapi_server.py] against the one of
    [websocket_manager.py], with [Exn] read as everything that can be
    raised.  [connect] and [disconnect] hold no [try] and end alike in
    both copies, up to the lines printed.  The two [broadcast] methods
    end alike as long as every failing send raises an [Exception].  They
    part on the first send that raises a signal, such as a cancellation:
    under [except Exception] it leaves the [broadcast] of
    [websocket_manager.py], which has then pruned nothing and sent
    nothing to the entries behind; under the bare [except:] the copy
    swallows it, completes the round and unregisters that socket. *)
Theorem manager_copies_agree message c s :
  let agree (r1 r2 : result Exn () * State) :=
    r1.1 = r2.1 ∧ same_but_console r1.2 r2.2 in
  let conns := active_connections (self s) in
  let round := send_round message conns (world s) in
  agree (websocket_manager.connect c s) (fastapi_server.connect c s)
  ∧ agree (websocket_manager.disconnect c s) (fastapi_server.disconnect c s)
  ∧ (with_signals.all_exceptions round.1 →
     with_signals.websocket_manager_broadcast message s
     = websocket_manager.broadcast message s
     ∧ agree (with_signals.websocket_manager_broadcast message s)
         (with_signals.fastapi_server_broadcast message s))
  ∧ (∀ head ws tail e,
       conns = head ++ ws :: tail →
       let first := send_round message head (world s) in
       with_signals.all_exceptions first.1 →
       (send_text ws message first.2).1 = Raise e →
       is_Exception e = false →
       let r1 := with_signals.websocket_manager_broadcast message s in
       let r2 := with_signals.fastapi_server_broadcast message s in
       r1.1 = Raise e
       ∧ active_connections (self r1.2) = conns
       ∧ world r1.2 = (send_text ws message first.2).2
       ∧ history r1.2 = history s ++ round_events message (first.1 ++ [(ws, Raise e)])
       ∧ r2.1 = Return ()
       ∧ active_connections (self r2.2) = prune (round_failed round.1) conns
       ∧ ws ∈ round_failed round.1
       ∧ length (active_connections (self r2.2)) < length conns
       ∧ world r2.2 = round.2
       ∧ history r2.2 = history s ++ round_events message round.1).
Proof.
  cbv beta zeta. unfold same_but_console.
  rewrite connect_run, fastapi_connect_run, disconnect_run, fastapi_disconnect_run.
  split; [by destruct (accept c (world s)) as [[[]|e] w]|].
  split; [done|]. split.
  - intros Hall.
    assert (with_signals.websocket_manager_broadcast message s
            = websocket_manager.broadcast message s) as Hsame.
    { unfold with_signals.websocket_manager_broadcast, websocket_manager.broadcast.
      rewrite !bind_run. cbn [get_self fst snd]. rewrite !bind_run.
      rewrite guarded_loop_plain; [done| |done].
      intros e. apply print_console_only. }
    split; [done|]. rewrite Hsame, bare_broadcast_run.
    destruct (broadcast_exact message s) as (out1 & -> & _).
    by destruct (fastapi_broadcast_exact message s) as (out2 & -> & _).
  - intros head ws tail e Hconns Hall Hsend Hsignal.
    rewrite bare_broadcast_run.
    destruct (fastapi_broadcast_exact message s) as (out2 & -> & _).
    unfold with_signals.websocket_manager_broadcast.
    rewrite bind_run. cbn [get_self]. rewrite bind_run, Hconns.
    destruct (guarded_loop_signal
                (λ e, print ("[websocket] Error broadcasting to connection: "
                             +:+ str_exn e))
                message head ws tail [] s e) as (out1 & ->); try done.
    { intros e0. apply print_console_only. }
    rewrite <-Hconns. cbn [fst snd evolve self world history active_connections].
    assert (ws ∈ round_failed
                   (send_round message (active_connections (self s)) (world s)).1)
      as Hpruned.
    { rewrite Hconns, send_round_app. cbn [fst].
      unfold round_failed, round_events. rewrite fmap_app, failed_app.
      apply elem_of_app. right.
      simpl. destruct (send_text ws message _) as [r w1]. simpl in Hsend. subst r.
      destruct (send_round message tail w1) as [answers w2]. simpl.
      unfold failed. rewrite filter_cons. simpl.
      by left. }
    split_and!; try done.
    pose proof (prune_Permutation _ _
                  (sublist_submseteq _ _
                     (round_failed_sublist message (active_connections (self s))
                        (world s)))) as Hperm.
    apply Permutation_length in Hperm. rewrite length_app in Hperm.
    destruct (round_failed _) as [|d dead]; [by apply elem_of_nil in Hpruned|].
    simpl in *. lia.
Qed.
End copies.

(** A round in which the send to handle 1 fails and the send to handle 2
    is cancelled: the [broadcast] of [websocket_manager.py] ends with
    the cancellation, every handle still registered and nothing sent to
    handle 3; the copy returns and keeps handle 3 only. *)
Example cancelled_broadcast_scenario :
  let s := cancelling.boot [1; 2; 3] [1] [2] in
  let r1 := with_signals.websocket_manager_broadcast "x" s in
  let r2 := with_signals.fastapi_server_broadcast "x" s in
  r1.1 = Raise cancelling.CancelledError
  ∧ active_connections (self r1.2) = [1; 2; 3]
  ∧ history r1.2 = [EvSend 1 "x" false; EvSend 2 "x" false]
  ∧ r2.1 = Return ()
  ∧ active_connections (self r2.2) = [3]
  ∧ history r2.2 = [EvSend 1 "x" false; EvSend 2 "x" false; EvSend 3 "x" true].
Proof. vm_compute. done. Qed.

(** * Further properties of the progress store *)

Section store_algebra.
Context {WebSocket World Exn Any : Type}.

Local Abbreviation Task := (@Task WebSocket World Exn Any).
Local Abbreviation State := (Sys WebSocket World Any).
Local Abbreviation store_progress :=
  (@websocket_manager.store_progress WebSocket World Exn Any).
Local Abbreviation get_progress :=
  (@websocket_manager.get_progress WebSocket World Exn Any).
Local Abbreviation get_all_progress :=
  (@websocket_manager.get_all_progress WebSocket World Exn Any).
Local Abbreviation clear_progress :=
  (@websocket_manager.clear_progress WebSocket World Exn Any).
Implicit Types (s : State) (id other : Z) (a b progress : gmap string Any).

(** The state with another progress store. *)
Definition with_progress s (d : gmap Z (gmap string Any)) : State :=
  {| self := {| active_connections := active_connections (self s);
                progress_data := d |};
     world := world s; stdout := stdout s; history := history s |}.

Lemma with_progress_id s : with_progress s (progress_data (self s)) = s.
Proof. by destruct s as [[??]???]. Qed.

Lemma store_progress_with id progress s :
  store_progress id progress s
  = (Return (), with_progress s (<[id := progress]> (progress_data (self s)))).
Proof. done. Qed.

Lemma clear_progress_with id s :
  clear_progress id s = (Return (), with_progress s (delete id (progress_data (self s)))).
Proof.
  unfold websocket_manager.clear_progress. rewrite bind_run. simpl.
  destruct (decide (is_Some (progress_data (self s) !! id))) as [Hsome|Hnone].
  - done.
  - apply eq_None_not_Some in Hnone. rewrite delete_id by done.
    unfold ret. by rewrite with_progress_id.
Qed.

(** X7. [clear_progress] never raises.  After it [get_progress] of the
    same id returns the empty mapping and the records of the other ids
    are untouched; the store has one record fewer if the id had one.
    Clearing an id that has no record leaves the whole state as it
    was. *)
Theorem clear_progress_forgets id s :
  let r := clear_progress id s in
  r.1 = Return ()
  ∧ (get_progress id r.2).1 = Return ∅
  ∧ (∀ other, other ≠ id → (get_progress other r.2).1 = (get_progress other s).1)
  ∧ (is_Some (progress_data (self s) !! id) →
     S (size (progress_data (self r.2))) = size (progress_data (self s)))
  ∧ (progress_data (self s) !! id = None → r = (Return (), s)).
Proof.
  cbv zeta. rewrite clear_progress_with. simpl. split_and!.
  - done.
  - by rewrite lookup_delete_eq.
  - intros other Hother. by rewrite lookup_delete_ne.
  - intros [old Hold]. rewrite map_size_delete, Hold. simpl.
    assert (size (progress_data (self s)) ≠ 0); [|lia].
    intros Hzero%map_size_empty_inv. by rewrite Hzero in Hold.
  - intros Hnone. rewrite delete_id by done. by rewrite with_progress_id.
Qed.

(** X8. Storing a record for an id that had none and then clearing it
    brings the state back to what it was; clearing before storing is the
    same as storing alone. *)
Theorem store_then_clear_restores id progress s :
  progress_data (self s) !! id = None →
  (store_progress id progress ;;; clear_progress id) s = (Return (), s)
  ∧ (clear_progress id ;;; store_progress id progress) s = store_progress id progress s.
Proof.
  intros Hnone.
  rewrite !bind_run, store_progress_with, !clear_progress_with, !store_progress_with.
  unfold with_progress. simpl.
  rewrite delete_insert_id, insert_delete_eq by done.
  split; [|done]. by destruct s as [[??]???].
Qed.

(** X9. Records are independent: stores for two different ids can be
    made in either order with the same final state, and a store or a
    clear for one id never changes what [get_progress] returns for
    another. *)
Theorem store_progress_commutes id other a b s :
  id ≠ other →
  (store_progress id a ;;; store_progress other b) s
  = (store_progress other b ;;; store_progress id a) s
  ∧ (get_progress other (store_progress id a s).2).1 = (get_progress other s).1
  ∧ (get_progress other (clear_progress id s).2).1 = (get_progress other s).1.
Proof.
  intros Hne. rewrite !bind_run, !store_progress_with, clear_progress_with.
  unfold with_progress. simpl. split_and!.
  - by rewrite insert_insert_ne.
  - by rewrite lookup_insert_ne.
  - by rewrite lookup_delete_ne.
Qed.
End store_algebra.

(** * The [/ws] endpoint *)

Section endpoint_claims.
Context {WebSocket World Exn Any Float : Type}.
Context `{!EqDecision WebSocket}.
Context `{!Runtime WebSocket World Exn Any Float}.
Context `{!Receiver WebSocket World Exn}.

Local Abbreviation Task := (@Task WebSocket World Exn Any).
Local Abbreviation State := (Sys WebSocket World Any).
Implicit Types (s : State) (ws : WebSocket) (fuel k : nat) (w : World).
Implicit Types (texts : list string) (e : Exn).

Lemma echo_loop_S fuel ws s :
  main.echo_loop (S fuel) ws s =
  match receive_text ws (world s) with
  | (Return data, w1) =>
      match send_text ws ("Echo: " +:+ data) w1 with
      | (Return _, w2) =>
          main.echo_loop fuel ws
            (evolve s (active_connections (self s)) w2 []
               [EvSend ws ("Echo: " +:+ data) true])
      | (Raise e, w2) =>
          (Raise e, evolve s (active_connections (self s)) w2 []
                      [EvSend ws ("Echo: " +:+ data) false])
      end
  | (Raise e, w1) => (Raise e, evolve s (active_connections (self s)) w1 [] [])
  end.
Proof.
  destruct s as [[conns prog] w0 out0 evs0].
  simpl. rewrite bind_run. unfold main.ws_receive_text. simpl.
  destruct (receive_text ws w0) as [[data|e] w1]; simpl.
  - rewrite bind_run. unfold ws_send_text, transport. simpl.
    destruct (send_text ws ("Echo: " +:+ data) w1) as [[[]|e] w2];
      unfold evolve; simpl; by rewrite ?app_nil_r.
  - unfold evolve. simpl. by rewrite !app_nil_r.
Qed.

(** The loop after [k] good turns and a turn that raises. *)
Lemma echo_loop_raises k : ∀ fuel ws s texts wk e evs w',
  main.echo_turns k ws (world s) = Some (texts, wk) →
  main.turn_raises ws wk e evs w' →
  k < fuel →
  main.echo_loop fuel ws s
  = (Raise e, evolve s (active_connections (self s)) w' [] (main.echoes ws texts ++ evs)).
Proof.
  induction k as [|k IH]; intros fuel ws s texts wk e evs w' Hturns Hraise Hfuel;
    (destruct fuel as [|fuel]; [lia|]); rewrite echo_loop_S; simpl in Hturns.
  - injection Hturns as <- <-.
    destruct Hraise as [[-> ->] | (data & w1 & -> & -> & ->)]; done.
  - destruct (receive_text ws (world s)) as [[data|e0] w1]; [|done].
    destruct (send_text ws ("Echo: " +:+ data) w1) as [[[]|e0] w2]; [|done].
    destruct (main.echo_turns k ws w2) as [[rest w3]|] eqn:Hrest; [|done].
    simpl in Hturns. injection Hturns as <- <-.
    erewrite IH; [|exact Hrest|exact Hraise|lia].
    rewrite evolve_evolve. simpl. done.
Qed.

(** The loop when every turn it has fuel for goes through. *)
Lemma echo_loop_running fuel : ∀ ws s texts w',
  main.echo_turns fuel ws (world s) = Some (texts, w') →
  main.echo_loop fuel ws s
  = (Return StillOpen, evolve s (active_connections (self s)) w' [] (main.echoes ws texts)).
Proof.
  induction fuel as [|fuel IH]; intros ws s texts w' Hturns.
  - simpl in Hturns. injection Hturns as <- <-. simpl. unfold ret.
    f_equal. symmetry. apply evolve_id.
  - rewrite echo_loop_S. simpl in Hturns.
    destruct (receive_text ws (world s)) as [[data|e0] w1]; [|done].
    destruct (send_text ws ("Echo: " +:+ data) w1) as [[[]|e0] w2]; [|done].
    destruct (main.echo_turns fuel ws w2) as [[rest w3]|] eqn:Hrest; [|done].
    simpl in Hturns. injection Hturns as <- <-.
    erewrite IH; [|exact Hrest]. by rewrite evolve_evolve.
Qed.

Lemma endpoint_run fuel ws s :
  main.websocket_endpoint fuel ws s =
  match websocket_manager.connect ws s with
  | (Return _, s1) =>
      match main.echo_loop fuel ws s1 with
      | (Return a, s2) => (Return a, s2)
      | (Raise e, s2) =>
          if is_disconnect e
          then (Return Closed, (websocket_manager.disconnect ws s2).2)
          else (Raise e, s2)
      end
  | (Raise e, s1) => (Raise e, s1)
  end.
Proof.
  unfold main.websocket_endpoint. rewrite bind_run.
  destruct (websocket_manager.connect ws s) as [[[]|e] s1]; [|done].
  unfold main.try_except_disconnect.
  destruct (main.echo_loop fuel ws s1) as [[a|e] s2]; [done|].
  destruct (is_disconnect e); [|done].
  rewrite bind_run, disconnect_run. done.
Qed.

(** X10. A session of the endpoint.  The handshake succeeds, [k] texts
    are received and echoed, and the next turn raises [e], from the
    receive or from the echo.  With fuel for more than [k] turns the
    endpoint then ends: if [e] is a [WebSocketDisconnect] it returns and
    the socket's oldest entry has left the registry, so that a socket
    that was not registered before leaves the registry as it was; any
    other exception reaches the caller and the socket stays registered.
    Each text received was answered by one echo, in order. *)
Theorem endpoint_session fuel k ws s w0 texts wk e evs w' :
  accept ws (world s) = (Return (), w0) →
  main.echo_turns k ws w0 = Some (texts, wk) →
  main.turn_raises ws wk e evs w' →
  k < fuel →
  let r := main.websocket_endpoint fuel ws s in
  let conns := active_connections (self s) in
  r.1 = (if is_disconnect e then Return Closed else Raise e)
  ∧ active_connections (self r.2)
    = (if is_disconnect e then discard ws (conns ++ [ws]) else conns ++ [ws])
  ∧ (is_disconnect e = true → ws ∉ conns → active_connections (self r.2) = conns)
  ∧ history r.2 = history s ++ EvAccept ws true :: main.echoes ws texts ++ evs
  ∧ world r.2 = w'
  ∧ progress_data (self r.2) = progress_data (self s).
Proof.
  intros Haccept Hturns Hraise Hfuel. cbv zeta.
  rewrite endpoint_run, connect_run, Haccept.
  erewrite echo_loop_raises; [|exact Hturns|exact Hraise|exact Hfuel].
  rewrite evolve_evolve. simpl.
  destruct (is_disconnect e) eqn:Hclass.
  - rewrite disconnect_run. simpl. rewrite !app_nil_r.
    split_and!; try done.
    intros _ Hfresh. rewrite discard_app_new. by rewrite decide_False.
  - simpl. split_and!; done.
Qed.

(** X11. A refused handshake: the exception of [accept] leaves the
    endpoint whatever its class, nothing is registered, received or
    echoed, and nothing is printed. *)
Theorem endpoint_handshake_refused fuel ws s e w0 :
  accept ws (world s) = (Raise e, w0) →
  main.websocket_endpoint fuel ws s
  = (Raise e, evolve s (active_connections (self s)) w0 [] [EvAccept ws false]).
Proof.
  intros Haccept. by rewrite endpoint_run, connect_run, Haccept.
Qed.

Lemma echo_turns_length k : ∀ ws w texts w',
  main.echo_turns k ws w = Some (texts, w') → length texts = k.
Proof.
  induction k as [|k IH]; intros ws w texts w' Hturns; simpl in Hturns.
  - by injection Hturns as <- <-.
  - destruct (receive_text ws w) as [[data|e0] w1]; [|done].
    destruct (send_text ws ("Echo: " +:+ data) w1) as [[[]|e0] w2]; [|done].
    destruct (main.echo_turns k ws w2) as [[rest w3]|] eqn:Hrest; [|done].
    simpl in Hturns. injection Hturns as <- <-. simpl. f_equal. by eapply IH.
Qed.

(** Either all [fuel] turns go through, or some turn within them raises. *)
Lemma echo_turns_cases fuel : ∀ ws w,
  (∃ texts w', main.echo_turns fuel ws w = Some (texts, w'))
  ∨ (∃ k texts wk e evs w',
       k < fuel ∧ main.echo_turns k ws w = Some (texts, wk)
       ∧ main.turn_raises ws wk e evs w').
Proof.
  induction fuel as [|fuel IH]; intros ws w.
  - left. by exists [], w.
  - destruct (receive_text ws w) as [[data|e] w1] eqn:Hrecv.
    + destruct (send_text ws ("Echo: " +:+ data) w1) as [[[]|e] w2] eqn:Hsend.
      * destruct (IH ws w2) as [(texts & w' & Hall) | (k & texts & wk & e & evs & w' & Hk & Hturns & Hraise)].
        -- left. exists (data :: texts), w'. simpl. by rewrite Hrecv, Hsend, Hall.
        -- right. exists (S k), (data :: texts), wk, e, evs, w'.
           split_and!; [lia| |done]. simpl. by rewrite Hrecv, Hsend, Hturns.
      * right. exists 0, [], w, e, [EvSend ws ("Echo: " +:+ data) false], w2.
        split_and!; [lia|done|]. right. by exists data, w1.
    + right. exists 0, [], w, e, [], w1. split_and!; [lia|done|]. by left.
Qed.

(** X12. The fuel only bounds how long the loop is watched.  An endpoint
    reported still open after [fuel] turns has made exactly [fuel]
    echoes and holds its registration; an endpoint that ended with some
    fuel ends the same way, in the same state, with any larger fuel. *)
Theorem endpoint_fuel_stable fuel ws s :
  let r := main.websocket_endpoint fuel ws s in
  (r.1 = Return StillOpen →
   ∃ texts,
     length texts = fuel
     ∧ history r.2 = history s ++ EvAccept ws true :: main.echoes ws texts
     ∧ active_connections (self r.2) = active_connections (self s) ++ [ws])
  ∧ (r.1 ≠ Return StillOpen →
     ∀ more, main.websocket_endpoint (fuel + more) ws s = r).
Proof.
  cbv zeta. rewrite endpoint_run.
  setoid_rewrite endpoint_run. rewrite connect_run.
  destruct (accept ws (world s)) as [[[]|e] w0]; [|done].
  set (s1 := evolve s (active_connections (self s) ++ [ws]) w0 _ _).
  destruct (echo_turns_cases fuel ws (world s1))
    as [(texts & w' & Hall) | (k & texts & wk & e & evs & w' & Hk & Hturns & Hraise)].
  - rewrite (echo_loop_running fuel ws s1 texts w' Hall). split; [|done].
    intros _. exists texts. split_and!.
    + by eapply echo_turns_length.
    + unfold s1. rewrite evolve_evolve. done.
    + done.
  - rewrite (echo_loop_raises k fuel ws s1 texts wk e evs w' Hturns Hraise Hk).
    split.
    + by destruct (is_disconnect e).
    + intros _ more.
      rewrite (echo_loop_raises k (fuel + more) ws s1 texts wk e evs w' Hturns Hraise);
        [done | lia].
Qed.
Lemma fastapi_echo_loop fuel : ∀ ws s,
  fastapi_app.echo_loop fuel ws s = main.echo_loop fuel ws s.
Proof.
  induction fuel as [|fuel IH]; intros ws s; [done|].
  simpl. rewrite !bind_run.
  destruct (main.ws_receive_text ws s) as [[data|e] s1]; [|done].
  rewrite !bind_run.
  destruct (ws_send_text ws ("Echo: " +:+ data) s1) as [[[]|e] s2]; [|done].
  apply IH.
Qed.

(** The loop does not look at the console. *)
Lemma echo_loop_console fuel ws s1 s2 :
  same_but_console s1 s2 →
  (main.echo_loop fuel ws s1).1 = (main.echo_loop fuel ws s2).1
  ∧ same_but_console (main.echo_loop fuel ws s1).2 (main.echo_loop fuel ws s2).2.
Proof.
  intros (Hself & Hworld & Hhist).
  destruct (echo_turns_cases fuel ws (world s1))
    as [(texts & w' & Hall) | (k & texts & wk & e & evs & w' & Hk & Hturns & Hraise)].
  - rewrite (echo_loop_running fuel ws s1 texts w' Hall).
    rewrite Hworld in Hall.
    rewrite (echo_loop_running fuel ws s2 texts w' Hall).
    unfold same_but_console. simpl. by rewrite Hself, Hhist.
  - rewrite (echo_loop_raises k fuel ws s1 texts wk e evs w' Hturns Hraise Hk).
    rewrite Hworld in Hturns.
    rewrite (echo_loop_raises k fuel ws s2 texts wk e evs w' Hturns Hraise Hk).
    unfold same_but_console. simpl. by rewrite Hself, Hhist.
Qed.

(** X13. The [/ws] endpoint of [fastapi_server.py] and the one of
    [main.py] serve a socket alike: for every fuel they end the same
    way and leave the same registry, progress store, transports and
    history; only the console lines differ. *)
Theorem endpoint_copies_agree fuel ws s :
  (fastapi_app.websocket_endpoint fuel ws s).1 = (main.websocket_endpoint fuel ws s).1
  ∧ same_but_console (fastapi_app.websocket_endpoint fuel ws s).2
      (main.websocket_endpoint fuel ws s).2.
Proof.
  rewrite endpoint_run. unfold fastapi_app.websocket_endpoint.
  rewrite bind_run, connect_run, fastapi_connect_run.
  destruct (accept ws (world s)) as [[[]|e] w0]; [|done].
  unfold main.try_except_disconnect. rewrite fastapi_echo_loop.
  set (s1 := evolve s _ w0 ["[websocket] Client connected. Total: " +:+ _] _).
  set (s2 := evolve s _ w0 ["[websocket] Client connected. Total connections: " +:+ _] _).
  assert (same_but_console s1 s2) as Hsame by done.
  destruct (echo_loop_console fuel ws s1 s2 Hsame) as [Hres (Hself & Hworld & Hhist)].
  destruct (main.echo_loop fuel ws s1) as [[a|e] t1],
           (main.echo_loop fuel ws s2) as [[a'|e'] t2]; simpl in *; try done.
  injection Hres as <-.
  destruct (is_disconnect e); [|done].
  rewrite bind_run, fastapi_disconnect_run, disconnect_run.
  unfold same_but_console. simpl. by rewrite Hself, Hworld, Hhist.
Qed.
End endpoint_claims.

(** ** Concrete runs for the further properties *)

Lemma registry_never_grows_witness :
  NoDup (active_connections
           (self (websocket_manager.broadcast "x" (scripted.boot [1; 2; 3] [2])).2)).
Proof.
  apply (registry_never_grows (Runtime0 := scripted.runtime) "x" 0 0 0 0 0 ∅
           (scripted.boot [1; 2; 3] [2]) (websocket_manager.broadcast "x")).
  - do 2 right. left.
  - simpl. apply NoDup_ListNoDup. repeat constructor; simpl; intuition discriminate.
Defined.

Lemma connect_then_disconnect_witness :
  active_connections
    (self ((websocket_manager.connect 2 ;;; websocket_manager.disconnect 2)
             (scripted.boot [1; 2; 3] [])).2)
  = [1; 3; 2].
Proof.
  destruct (connect_then_disconnect (Runtime0 := scripted.runtime) 2
              (scripted.boot [1; 2; 3] []) eq_refl) as (_ & Hconns & _).
  exact Hconns.
Defined.

Lemma store_then_clear_restores_witness :
  (websocket_manager.store_progress (Exn := string) 5 {[ "pct" := 50%Z ]} ;;;
   websocket_manager.clear_progress 5) (scripted.boot [1] [])
  = (Return (), scripted.boot [1] []).
Proof.
  apply (store_then_clear_restores (Exn := string) 5 {[ "pct" := 50%Z ]}
           (scripted.boot [1] [])).
  reflexivity.
Defined.

Lemma store_progress_commutes_witness :
  (websocket_manager.store_progress (Exn := string) 1 {[ "pct" := 10%Z ]} ;;;
   websocket_manager.store_progress 2 {[ "pct" := 20%Z ]}) (scripted.boot [] [])
  = (websocket_manager.store_progress (Exn := string) 2 {[ "pct" := 20%Z ]} ;;;
     websocket_manager.store_progress 1 {[ "pct" := 10%Z ]}) (scripted.boot [] []).
Proof.
  apply (store_progress_commutes (Exn := string) 1 2
           {[ "pct" := 10%Z ]} {[ "pct" := 20%Z ]} (scripted.boot [] [])).
  discriminate.
Defined.

(** A peer that sends two texts and goes away: both are echoed and the
    registry is back to the other sockets. *)
Lemma endpoint_session_witness :
  let r := main.websocket_endpoint 5 7 (inbox.boot [3] {[ 7 := ["a"; "b"] ]}) in
  r.1 = Return Closed
  ∧ active_connections (self r.2) = [3]
  ∧ history r.2 = [EvAccept 7 true; EvSend 7 "Echo: a" true; EvSend 7 "Echo: b" true].
Proof.
  pose proof (endpoint_session (Runtime0 := inbox.runtime) (Receiver0 := inbox.receiver)
                5 2 7 (inbox.boot [3] {[ 7 := ["a"; "b"] ]})
                {[ 7 := ["a"; "b"] ]} ["a"; "b"]
                (<[7 := []]> (<[7 := ["b"]]> {[ 7 := ["a"; "b"] ]}))
                "disconnect" []
                (<[7 := []]> (<[7 := ["b"]]> {[ 7 := ["a"; "b"] ]}))
                eq_refl eq_refl (or_introl (conj eq_refl eq_refl)) ltac:(lia))
    as (Hres & Hconns & _ & Hhist & _).
  cbv zeta. split_and!; [exact Hres | exact Hconns | exact Hhist].
Defined.

Lemma endpoint_handshake_refused_witness :
  main.websocket_endpoint 3 7 (strict.boot [7] {[ 7 ]})
  = (Raise "already accepted",
     evolve (strict.boot [7] {[ 7 ]}) [7] {[ 7 ]} [] [EvAccept 7 false]).
Proof.
  apply (endpoint_handshake_refused (Runtime0 := strict.runtime)
           (Receiver0 := strict.receiver) 3 7 (strict.boot [7] {[ 7 ]})).
  reflexivity.
Defined.

(** On the runtime that accepts a socket once, a second [connect] of a
    registered handle raises and the registry keeps its single entry. *)
Example connect_twice_strict :
  let r := (websocket_manager.connect 7 ;;; websocket_manager.connect 7)
             (strict.boot [] ∅) in
  r.1 = Raise "already accepted" ∧ active_connections (self r.2) = [7].
Proof. vm_compute. done. Qed.

(** * The request handlers *)

Section handler_runs.
Import handler fastapi_handlers.
Context {Db Opaque E : Type}.
Context `{!Backend Db Opaque E}.

Local Abbreviation Value := (pyval Opaque).
Local Abbreviation Exn := (pyexn E).
Local Abbreviation Handler := (@Handler Db Opaque E).
Local Abbreviation State := (App Db Opaque).
Local Open Scope handler_scope.
Implicit Types (st : State) (conn c : nat) (sql : string) (args : list Value).

Lemma hbind_run {A B} (h : Handler A) (k : A → Handler B) st :
  hbind h k st =
  match h st with
  | (Returns a, st') => k a st'
  | (Raises e, st') => (Raises e, st')
  | (Blocks, st') => (Blocks, st')
  end.
Proof. done. Qed.

Lemma with_pool_same st : with_pool st (db_pool st) = st.
Proof. by destruct st. Qed.

Lemma neutral_ret {A} (a : A) : pool_neutral (hret a : Handler A).
Proof. by intros st. Qed.

Lemma neutral_raise {A} (e : Exn) : pool_neutral (hraise e : Handler A).
Proof. by intros st. Qed.

Lemma neutral_lift {A} (r : result Exn A) : pool_neutral (lift r : Handler A).
Proof. intros st. by destruct r. Qed.

Lemma neutral_library {A} (r : result E A) : pool_neutral (library r : Handler A).
Proof. intros st. by destruct r. Qed.

Lemma neutral_print line : pool_neutral (hprint line : Handler ()).
Proof. by intros st. Qed.

Lemma neutral_driver {A} m (call : Db → result E A * Db) conn sql args :
  pool_neutral (driver m call conn sql args : Handler A).
Proof.
  intros st. unfold driver. simpl.
  destruct (call (db st)) as [[a|e] d]; by simpl.
Qed.

Lemma neutral_hashpw pw : pool_neutral (bcrypt_hashpw pw : Handler string).
Proof.
  intros st. unfold bcrypt_hashpw. simpl.
  destruct (hashpw pw (db st)) as [[a|e] d]; by simpl.
Qed.

Lemma neutral_bind {A B} (h : Handler A) (k : A → Handler B) :
  pool_neutral h → (∀ a, pool_neutral (k a)) → pool_neutral (hbind h k).
Proof.
  intros Hh Hk st. destruct (Hh st) as (Hpool & Hblock & Hmove).
  assert (∀ pool, hbind h k (with_pool st pool)
                  = ((hbind h k st).1, with_pool (hbind h k st).2 pool)) as Hmoved.
  { intros pool. rewrite !hbind_run, Hmove.
    destruct (h st) as [[a|e|] st1]; simpl in *; [|done..].
    apply (Hk a st1). }
  rewrite hbind_run in *.
  destruct (h st) as [[a|e|] st1]; simpl in *; [|done..].
  destruct (Hk a st1) as (Hpool' & Hblock' & _).
  split_and!; [congruence | done | done].
Qed.

Lemma neutral_catch {A} (h : Handler A) (k : Exn → Handler A) :
  pool_neutral h → (∀ e, pool_neutral (k e)) → pool_neutral (try_catch h k).
Proof.
  intros Hh Hk st. destruct (Hh st) as (Hpool & Hblock & Hmove).
  unfold try_catch. setoid_rewrite Hmove.
  destruct (h st) as [[a|e|] st1]; simpl in *; [done| |done].
  destruct (Hk e st1) as (Hpool' & Hblock' & Hmove').
  split_and!; [congruence | done | done].
Qed.

Lemma neutral_for {X Acc} (xs : list X) (body : X → Acc → Handler Acc) acc :
  (∀ x a, pool_neutral (body x a)) → pool_neutral (hfor xs body acc).
Proof.
  intros Hbody. revert acc. induction xs as [|x xs IH]; intros acc; simpl.
  - apply neutral_ret.
  - apply neutral_bind; [apply Hbody | apply IH].
Qed.

(** A handler of the shape
    [conn = await get_db_connection(); try: body finally: release]. *)
Lemma with_connection_run {A} (body : nat → Handler A) st :
  (∀ conn, pool_neutral (body conn)) →
  (conn <- acquire_connection ;; try_finally (body conn) (release_connection conn)) st
  = match fastapi_server.get_db_connection (db_pool st) with
    | (fastapi_server.Granted c, pool1) =>
        ((body c st).1,
         with_pool (body c st).2 (fastapi_server.release_db_connection c pool1).2)
    | (fastapi_server.Suspended, pool1) => (Blocks, with_pool st pool1)
    end.
Proof.
  intros Hbody. rewrite hbind_run. unfold acquire_connection.
  unfold fastapi_server.get_db_connection.
  destruct (fastapi_server.acquire _) as [[c|] p1]; [|done].
  change {| db_pool := Some p1; db := db st; console := console st; queries := queries st |}
    with (with_pool st (Some p1)).
  destruct (Hbody c st) as (Hpool & Hblock & Hmove).
  unfold try_finally. rewrite Hmove.
  destruct (body c st) as [[a|e|] st1]; simpl in *; done.
Qed.
End handler_runs.

Section handler_claims.
Import handler fastapi_handlers.
Context {Db Opaque E : Type}.
Context `{!Backend Db Opaque E}.

Local Abbreviation Value := (pyval Opaque).
Local Abbreviation Exn := (pyexn E).
Local Abbreviation Handler := (@Handler Db Opaque E).
Local Abbreviation State := (App Db Opaque).
Local Open Scope handler_scope.
Implicit Types (st : State) (conn c : nat) (sql : string) (args : list Value).

Ltac neutral :=
  repeat (intros;
          first [ apply neutral_ret | apply neutral_raise | apply neutral_lift
                | apply neutral_library | apply neutral_print | apply neutral_driver
                | apply neutral_hashpw | apply neutral_bind | apply neutral_catch
                | apply neutral_for
                | match goal with
                  | |- pool_neutral (if ?b then _ else _) => destruct b
                  end ]).

Lemma gives_back_intro {A} (body : nat → Handler A) st :
  (∀ conn, pool_neutral (body conn)) →
  gives_back
    (conn <- acquire_connection ;; try_finally (body conn) (release_connection conn)) st.
Proof.
  intros Hbody. unfold gives_back. rewrite with_connection_run by done.
  destruct (fastapi_server.get_db_connection (db_pool st)) as [[c|] pool1]; [|done].
  simpl. split; [|done]. apply Hbody.
Qed.

Lemma neutral_make_user_response row : pool_neutral (make_user_response row).
Proof. unfold make_user_response. neutral. Qed.

Lemma neutral_login_body request conn :
  pool_neutral
    (user_row <- fetchrow conn "SELECT * FROM users WHERE email = $1"
                   [PStr (login_email request)] ;;
     if negb (row_truthy user_row)
     then hraise (HTTPException 401 "Invalid email or password")
     else
       stored <- lift (row_getitem user_row "password_hash") ;;
       ok <- library (checkpw (login_password request) stored) ;;
       if negb ok
       then hraise (HTTPException 401 "Invalid email or password")
       else make_user_response user_row).
Proof. unfold fetchrow. neutral; apply neutral_make_user_response. Qed.

(** X14. Every handler written as
    [conn = await get_db_connection(); try: ... finally: await release_db_connection(conn)]
    gives its connection back however its body ends, by a return or by
    an exception; while the pool is exhausted it waits without having
    made any call.  This holds for [login], [delete_workflow],
    [sync_workflow_models], [get_comfy_generations], and for [signup]
    once the request has passed its two checks. *)
Theorem handlers_give_back (login_request : LoginRequest) (signup_request : SignupRequest)
    (workflow_id : Z) st :
  gives_back (login login_request) st
  ∧ gives_back (delete_workflow workflow_id) st
  ∧ gives_back (sync_workflow_models workflow_id) st
  ∧ gives_back get_comfy_generations st
  ∧ (password signup_request = confirmPassword signup_request →
     agreeToTerms signup_request = true →
     gives_back (signup signup_request) st).
Proof.
  split_and!.
  - apply gives_back_intro. intros conn. apply neutral_login_body.
  - apply gives_back_intro. intros conn. unfold execute. neutral.
  - apply gives_back_intro. intros conn. unfold fetchrow, execute. neutral.
  - apply gives_back_intro. intros conn. unfold fetch. neutral.
  - intros Hpw Hterms. unfold signup. rewrite Hpw, Hterms, String.eqb_refl. simpl.
    apply gives_back_intro. intros conn. unfold fetchrow.
    neutral; apply neutral_make_user_response.
Qed.
Lemma acquire_granted st c pool1 :
  fastapi_server.get_db_connection (db_pool st) = (fastapi_server.Granted c, pool1) →
  acquire_connection (E := E) st = (Returns c, with_pool st pool1)
  ∧ ∃ p1, pool1 = Some p1.
Proof.
  intros Hget. unfold acquire_connection. rewrite Hget. split; [done|].
  unfold fastapi_server.get_db_connection in Hget.
  destruct (fastapi_server.acquire _) as [got p1]. injection Hget as _ <-. by eexists.
Qed.

Lemma with_connection_granted {A} (body : nat → Handler A) st c pool1 :
  (∀ conn, pool_neutral (body conn)) →
  fastapi_server.get_db_connection (db_pool st) = (fastapi_server.Granted c, pool1) →
  (conn <- acquire_connection ;; try_finally (body conn) (release_connection conn)) st
  = ((body c st).1,
     with_pool (body c st).2 (fastapi_server.release_db_connection c pool1).2).
Proof. intros Hbody Hget. by rewrite with_connection_run, Hget. Qed.

Lemma driver_run {A} m (call : Db → result E A * Db) conn sql args st :
  driver m call conn sql args st
  = (match (call (db st)).1 with
     | Return a => Returns a
     | Raise e => Raises (LibraryError e)
     end,
     advance st (call (db st)).2 []
       [{| q_conn := conn; q_method := m; q_sql := sql; q_args := args |}]).
Proof.
  unfold driver, advance. destruct (call (db st)) as [r d]. simpl.
  by rewrite app_nil_r.
Qed.

Lemma advance_advance st d out qs d' out' qs' :
  advance (advance st d out qs) d' out' qs' = advance st d' (out ++ out') (qs ++ qs').
Proof. unfold advance. simpl. by rewrite !app_assoc. Qed.

(** X15. [delete_workflow] deletes the models of the workflow first and
    the workflow second, on the connection it was given.  It answers 404
    exactly when the second DELETE reports [DELETE 0], by which time the
    first DELETE has already run; an exception of the first DELETE stops
    the handler before the second.  The connection is given back on
    every path. *)
Theorem delete_workflow_outcomes (workflow_id : Z) st c pool1 :
  fastapi_server.get_db_connection (db_pool st) = (fastapi_server.Granted c, pool1) →
  let q1 := {| q_conn := c; q_method := Execute;
               q_sql := "DELETE FROM comfy_models WHERE workflow_id = $1";
               q_args := [PInt workflow_id] |} in
  let q2 := {| q_conn := c; q_method := Execute;
               q_sql := "DELETE FROM comfy_workflows WHERE id = $1";
               q_args := [PInt workflow_id] |} in
  let released := (fastapi_server.release_db_connection c pool1).2 in
  delete_workflow workflow_id st =
  match conn_execute c (q_sql q1) (q_args q1) (db st) with
  | (Raise e, d1) =>
      (Raises (LibraryError e), with_pool (advance st d1 [] [q1]) released)
  | (Return _, d1) =>
      match conn_execute c (q_sql q2) (q_args q2) d1 with
      | (Raise e, d2) =>
          (Raises (LibraryError e), with_pool (advance st d2 [] [q1; q2]) released)
      | (Return status, d2) =>
          (if String.eqb status "DELETE 0"
           then Raises (HTTPException 404 "Workflow not found")
           else Returns (PDict [("message", PStr "Workflow deleted successfully")]),
           with_pool (advance st d2 [] [q1; q2]) released)
      end
  end.
Proof.
  intros Hget. cbv zeta. unfold delete_workflow.
  rewrite (with_connection_granted _ st c pool1) by (try done; unfold execute; neutral).
  match goal with |- ((?b).1, _) = _ => destruct b as [r0 st0] eqn:Hbody end.
  simpl. rewrite hbind_run in Hbody. unfold execute at 1 in Hbody.
  rewrite driver_run in Hbody.
  destruct (conn_execute c _ [PInt workflow_id] (db st)) as [[status1|e] d1];
    simpl in *; [|by injection Hbody as <- <-].
  rewrite hbind_run in Hbody. unfold execute in Hbody. rewrite driver_run in Hbody.
  simpl in Hbody.
  destruct (conn_execute c _ [PInt workflow_id] d1) as [[status|e] d2]; simpl in *.
  - rewrite advance_advance in Hbody. simpl in Hbody.
    destruct (String.eqb status "DELETE 0"); by injection Hbody as <- <-.
  - rewrite advance_advance in Hbody. by injection Hbody as <- <-.
Qed.

Lemma release_granted st c p1 :
  db_pool st = Some p1 →
  release_connection (E := E) c st
  = (Returns (), with_pool st (Some (fastapi_server.release c p1))).
Proof. intros Hpool. unfold release_connection. by rewrite Hpool. Qed.

Ltac step_init H :=
  rewrite ?hbind_run in H;
  match type of H with
  | context [execute ?a ?b ?x ?s] =>
      unfold execute at 1 in H; rewrite (driver_run Execute _ a b x s) in H;
      destruct (conn_execute a b x (db s)) as [[?|?] ?]; simpl in H
  | context [fetchval ?a ?b ?x ?s] =>
      unfold fetchval at 1 in H; rewrite (driver_run Fetchval _ a b x s) in H;
      destruct (conn_fetchval a b x (db s)) as [[?|?] ?]; simpl in H
  | context [bcrypt_hashpw ?pw ?s] =>
      unfold bcrypt_hashpw at 1 in H;
      destruct (hashpw pw (db s)) as [[?|?] ?]; simpl in H
  | context [hprint ?l ?s] => unfold hprint at 1 in H; simpl in H
  | context [if py_eq_int ?f ?v ?n then _ else _] =>
      destruct (py_eq_int f v n); simpl in H
  end.

Lemma granted_in_use (pool : option fastapi_server.Pool) c pool1 :
  fastapi_server.get_db_connection pool = (fastapi_server.Granted c, pool1) →
  ∃ p1, pool1 = Some p1 ∧ c ∈ fastapi_server.in_use p1.
Proof.
  unfold fastapi_server.get_db_connection, fastapi_server.acquire.
  set (p := match pool with Some p => p | None => _ end). clearbody p.
  unfold fastapi_server.grant.
  destruct (fastapi_server.idle p) as [|c0 rest].
  - case_decide; [done|]. intros [= <- <-]. eexists. split; [done|].
    simpl. apply elem_of_app. right. by left.
  - intros [= <- <-]. eexists. split; [done|].
    simpl. apply elem_of_app. right. by left.
Qed.

(** Releasing a connection that is in use changes the pool. *)
Lemma release_changes (p1 : fastapi_server.Pool) c :
  c ∈ fastapi_server.in_use p1 → fastapi_server.release c p1 ≠ p1.
Proof.
  intros Hin Heq. unfold fastapi_server.release in Heq.
  destruct (py_remove c (fastapi_server.in_use p1)) as [rest|] eqn:Hremove.
  2:{ apply py_remove_None in Hremove. done. }
  apply py_remove_length in Hremove.
  destruct (fastapi_server.waiting p1) as [|n] eqn:Hwaiting; simpl in Heq.
  - apply (f_equal fastapi_server.in_use) in Heq. simpl in Heq. rewrite Heq in Hremove. lia.
  - destruct (fastapi_server.grant _) as [[c2 p2]|].
    + apply (f_equal fastapi_server.waiting) in Heq. simpl in Heq. lia.
    + apply (f_equal fastapi_server.in_use) in Heq. simpl in Heq.
      rewrite Heq in Hremove. lia.
Qed.

(** X16. [init_database] never lets an exception out: what a call on
    the connection or [bcrypt] raises is printed after
    [[database] Error: ] and swallowed.  Its release is the last
    statement of the [try] block and not a [finally].  The connection is
    therefore given back exactly when every call returned; as soon as
    one call raises, be it [SELECT 1], the count, the hashing or one of
    the two INSERTs, no later call is made and the connection stays
    taken from the pool.  The exceptions are those of class [Exception],
    which is what the handler catches. *)
Theorem init_database_swallows_and_leaks st :
  ((init_database st).1 = Returns () ∨ (init_database st).1 = Blocks)
  ∧ ∀ c pool1,
      fastapi_server.get_db_connection (db_pool st) = (fastapi_server.Granted c, pool1) →
      let released := (fastapi_server.release_db_connection c pool1).2 in
      let established := "[database] Database connection established" in
      let initialized := "[database] Default data initialized" in
      let error e := "[database] Error: " +:+ exn_text (LibraryError e) in
      let given_back d out qs : reply Exn () * App Db Opaque :=
        (Returns (), with_pool (advance st d out qs) released) in
      let kept d out qs : reply Exn () * App Db Opaque :=
        (Returns (), with_pool (advance st d out qs) pool1) in
      let q1 := {| q_conn := c; q_method := Execute; q_sql := "SELECT 1";
                   q_args := [] |} in
      let q2 := {| q_conn := c; q_method := Fetchval;
                   q_sql := "SELECT COUNT(*) FROM users"; q_args := [] |} in
      let user password_hash :=
        [PStr "admin@example.com"; PStr "admin"; PStr "Admin"; PStr "User";
         PStr password_hash] in
      let q3 password_hash :=
        {| q_conn := c; q_method := Execute; q_sql := sql_insert_default_user;
           q_args := user password_hash |} in
      let platform := [PStr "youtube"; PStr "YouTube"; PBool true] in
      let q4 := {| q_conn := c; q_method := Execute;
                   q_sql := sql_insert_default_platform; q_args := platform |} in
      released ≠ pool1
      ∧ (∃ p1, pool1 = Some p1 ∧ c ∈ fastapi_server.in_use p1)
      ∧ init_database st =
        match conn_execute c "SELECT 1" [] (db st) with
        | (Raise e, d1) => kept d1 [error e] [q1]
        | (Return _, d1) =>
            match conn_fetchval c "SELECT COUNT(*) FROM users" [] d1 with
            | (Raise e, d2) => kept d2 [established; error e] [q1; q2]
            | (Return user_count, d2) =>
                if py_eq_int opaque_eq_int user_count 0 then
                  match hashpw "password123" d2 with
                  | (Raise e, d3) => kept d3 [established; error e] [q1; q2]
                  | (Return password_hash, d3) =>
                      match conn_execute c sql_insert_default_user
                              (user password_hash) d3 with
                      | (Raise e, d4) =>
                          kept d4 [established; error e] [q1; q2; q3 password_hash]
                      | (Return _, d4) =>
                          match conn_execute c sql_insert_default_platform platform d4 with
                          | (Raise e, d5) =>
                              kept d5 [established; error e]
                                [q1; q2; q3 password_hash; q4]
                          | (Return _, d5) =>
                              given_back d5 [established; initialized]
                                [q1; q2; q3 password_hash; q4]
                          end
                      end
                  end
                else given_back d2 [established] [q1; q2]
            end
        end.
Proof.
  split.
  - destruct (init_database st) as [r0 st0] eqn:Hrun. simpl.
    unfold init_database, try_catch in Hrun. rewrite hbind_run in Hrun.
    unfold acquire_connection in Hrun.
    destruct (fastapi_server.get_db_connection (db_pool st)) as [[c|] pool1] eqn:Hget;
      [|right; by injection Hrun as <- _].
    destruct (acquire_granted st c pool1 Hget) as [_ [p1 ->]].
    left. simpl in Hrun. repeat step_init Hrun; by injection Hrun as <- _.
  - intros c pool1 Hget. cbv zeta.
    destruct (granted_in_use _ _ _ Hget) as (p1 & -> & Hin).
    split_and!.
    + simpl. intros [= Heq]. by apply (release_changes p1 c).
    + by exists p1.
    + unfold init_database, try_catch, hbind, acquire_connection, execute, fetchval,
        driver, bcrypt_hashpw, hprint, hret, release_connection, with_pool, advance.
      rewrite Hget. simpl.
      repeat match goal with
             | |- context [py_eq_int ?f ?v ?n] =>
                 destruct (py_eq_int f v n); simpl
             | |- context [conn_execute ?a ?b ?x ?d] =>
                 destruct (conn_execute a b x d) as [[?|?] ?]; simpl
             | |- context [conn_fetchval ?a ?b ?x ?d] =>
                 destruct (conn_fetchval a b x d) as [[?|?] ?]; simpl
             | |- context [hashpw ?pw ?d] =>
                 destruct (hashpw pw d) as [[?|?] ?]; simpl
             end;
        rewrite ?app_nil_r, <-?app_assoc; reflexivity.
Qed.
Lemma make_user_response_state row st : (make_user_response row st).2 = st.
Proof.
  unfold make_user_response.
  repeat (rewrite hbind_run; unfold lift at 1;
          match goal with |- context [row_getitem row ?k] =>
            destruct (row_getitem row k) as [?|?]; simpl; [|done] end).
  done.
Qed.

(** X17. [login] answers an unknown email and a wrong password alike:
    in both cases it raises the same 401 with the same detail, leaves
    the same trace and gives the connection back.  Whatever happens it
    makes exactly one call on the connection, the SELECT by email. *)
Theorem login_refusals_alike (request : LoginRequest) st c pool1 row d1 :
  fastapi_server.get_db_connection (db_pool st) = (fastapi_server.Granted c, pool1) →
  conn_fetchrow c "SELECT * FROM users WHERE email = $1" [PStr (login_email request)] (db st)
  = (Return row, d1) →
  let q := {| q_conn := c; q_method := Fetchrow;
              q_sql := "SELECT * FROM users WHERE email = $1";
              q_args := [PStr (login_email request)] |} in
  (row_truthy row = false
   ∨ (∃ stored,
        row_getitem (E := E) row "password_hash" = Return stored
        ∧ checkpw (login_password request) stored = Return false) →
   login request st
   = (Raises (HTTPException 401 "Invalid email or password"),
      with_pool (advance st d1 [] [q]) (fastapi_server.release_db_connection c pool1).2))
  ∧ queries (login request st).2 = queries st ++ [q].
Proof.
  intros Hget Hfetch. cbv zeta. unfold login.
  rewrite (with_connection_granted _ st c pool1)
    by (try done; intros conn; apply neutral_login_body).
  match goal with |- context [((?b).1, _)] => destruct b as [r0 st0] eqn:Hbody end.
  simpl. rewrite hbind_run in Hbody. unfold fetchrow in Hbody.
  rewrite driver_run, Hfetch in Hbody. simpl in Hbody.
  split.
  - intros [Hnone | (stored & Hstored & Hcheck)].
    + rewrite Hnone in Hbody. simpl in Hbody. by injection Hbody as <- <-.
    + destruct (row_truthy row); simpl in Hbody; [|by injection Hbody as <- <-].
      rewrite hbind_run in Hbody. unfold lift at 1 in Hbody. rewrite Hstored in Hbody.
      rewrite hbind_run in Hbody. unfold library at 1 in Hbody. rewrite Hcheck in Hbody.
      simpl in Hbody. by injection Hbody as <- <-.
  - destruct (row_truthy row); simpl in Hbody; [|by injection Hbody as _ <-].
    rewrite hbind_run in Hbody. unfold lift at 1 in Hbody.
    destruct (row_getitem row "password_hash") as [stored|e]; simpl in Hbody;
      [|by injection Hbody as _ <-].
    rewrite hbind_run in Hbody. unfold library at 1 in Hbody.
    destruct (checkpw _ stored) as [[]|e]; simpl in Hbody;
      try by injection Hbody as _ <-.
    pose proof (make_user_response_state row
                  (advance st d1 [] [{| q_conn := c; q_method := Fetchrow;
                      q_sql := "SELECT * FROM users WHERE email = $1";
                      q_args := [PStr (login_email request)] |}])) as Hstate.
    rewrite Hbody in Hstate. simpl in Hstate. by rewrite Hstate.
Qed.

Lemma before_at_split (s : string) :
  ∃ rest,
    s = before_at s +:+ rest
    ∧ (rest = EmptyString ∨ ∃ tail, rest = String at_sign tail)
    ∧ at_sign ∉ String.list_ascii_of_string (before_at s).
Proof.
  induction s as [|ch s (rest & Heq & Hrest & Hnone)]; simpl.
  - exists EmptyString. split_and!; [done | by left | apply not_elem_of_nil].
  - destruct (Ascii.eqb ch at_sign) eqn:Hch.
    + apply Ascii.eqb_eq in Hch as ->. exists (String at_sign s).
      split_and!; [done | right; by eexists | apply not_elem_of_nil].
    + exists rest. split_and!; [|done|].
      * change (String ch s = String ch (before_at s +:+ rest)). by f_equal.
      * change (at_sign ∉ ch :: String.list_ascii_of_string (before_at s)).
        apply not_elem_of_cons. split; [|done].
        intros <-. by rewrite Ascii.eqb_refl in Hch.
Qed.

(** X18. [signup] checks the request before it touches anything: if
    the two passwords differ it raises 400 [Passwords don't match],
    whatever the other fields, and if the terms are not agreed it raises
    400 [Must agree to terms]; in both cases no connection is taken and
    the process is left as it was.  For an email already present it
    raises 409 after a single SELECT, without hashing or inserting.
    Otherwise the INSERT carries, as username, the part of the email
    before its first [@]. *)
Theorem signup_checks_first (request : SignupRequest) st :
  (password request ≠ confirmPassword request →
   signup request st = (Raises (HTTPException 400 "Passwords don't match"), st))
  ∧ (password request = confirmPassword request → agreeToTerms request = false →
     signup request st = (Raises (HTTPException 400 "Must agree to terms"), st))
  ∧ (∀ c pool1 row d1,
       password request = confirmPassword request → agreeToTerms request = true →
       fastapi_server.get_db_connection (db_pool st) = (fastapi_server.Granted c, pool1) →
       conn_fetchrow c "SELECT id FROM users WHERE email = $1" [PStr (email request)] (db st)
       = (Return row, d1) →
       let q := {| q_conn := c; q_method := Fetchrow;
                   q_sql := "SELECT id FROM users WHERE email = $1";
                   q_args := [PStr (email request)] |} in
       (row_truthy row = true →
        signup request st
        = (Raises (HTTPException 409 "User with this email already exists"),
           with_pool (advance st d1 [] [q])
             (fastapi_server.release_db_connection c pool1).2))
       ∧ (row_truthy row = false →
          ∀ hash d2, hashpw (password request) d1 = (Return hash, d2) →
          ∃ username rest,
            email request = username +:+ rest
            ∧ (rest = EmptyString ∨ ∃ tail, rest = String at_sign tail)
            ∧ (at_sign ∉ String.list_ascii_of_string username)
            ∧ queries (signup request st).2
              = queries st ++
                  [q; ({| q_conn := c; q_method := Fetchrow; q_sql := sql_insert_user;
                          q_args := [PStr (email request); PStr username;
                                     PStr (firstName request); PStr (lastName request);
                                     PStr hash] |})])).
Proof.
  split_and!.
  - intros Hdiff. unfold signup.
    destruct (String.eqb_spec (password request) (confirmPassword request)); done.
  - intros Hsame Hterms. unfold signup. by rewrite Hsame, String.eqb_refl, Hterms.
  - intros c pool1 row d1 Hsame Hterms Hget Hfetch. cbv zeta.
    unfold signup. rewrite Hsame, String.eqb_refl, Hterms. simpl.
    rewrite (with_connection_granted _ st c pool1)
      by (try done; intros conn; unfold fetchrow;
          neutral; apply neutral_make_user_response).
    match goal with |- context [((?b).1, _)] => destruct b as [r0 st0] eqn:Hbody end.
    simpl. rewrite hbind_run in Hbody. unfold fetchrow at 1 in Hbody.
    rewrite driver_run, Hfetch in Hbody. simpl in Hbody.
    split.
    + intros Htrue. rewrite Htrue in Hbody. by injection Hbody as <- <-.
    + intros Hfalse hash d2 Hhash. rewrite Hfalse in Hbody.
      rewrite hbind_run in Hbody. unfold bcrypt_hashpw at 1 in Hbody. simpl in Hbody.
      rewrite Hhash in Hbody. simpl in Hbody.
      rewrite hbind_run in Hbody. unfold fetchrow in Hbody. rewrite driver_run in Hbody.
      simpl in Hbody.
      destruct (before_at_split (email request)) as (rest & Heq & Hrest & Hnone).
      exists (before_at (email request)), rest. split_and!; [done..|].
      destruct (conn_fetchrow c sql_insert_user _ d2) as [[row2|e] d3]; simpl in Hbody.
      * match type of Hbody with make_user_response ?r ?s = _ =>
          pose proof (make_user_response_state r s) as Hstate end.
        rewrite Hbody in Hstate. simpl in Hstate. rewrite Hstate. simpl.
        by rewrite <-app_assoc.
      * injection Hbody as _ <-. simpl. by rewrite <-app_assoc.
Qed.
Lemma collect_model_plain (node : Value) (found : list Value) :
  plain_node node →
  collect_model (E := E) node found
  = Return (found ++ match checkpoint_of node with
                     | Some name => [model_entry name]
                     | None => []
                     end).
Proof.
  destruct node as [| | | |l|d|o]; try done. simpl. intros Hplain.
  unfold collect_model, py_contains, py_getitem, checkpoint_of.
  destruct (dict_get d "inputs") as [inputs|] eqn:Hinputs; simpl.
  - destruct inputs as [| | | |l|inputs|o]; try done. simpl.
    destruct (dict_get inputs "ckpt_name") as [name|]; simpl; [done|].
    by rewrite app_nil_r.
  - by rewrite app_nil_r.
Qed.

Lemma collect_loop_plain (nodes : list Value) : ∀ (found : list Value) st,
  Forall plain_node nodes →
  hfor (E := E) nodes (λ node found, lift (collect_model node found)) found st
  = (Returns (found ++ (model_entry <$> omap checkpoint_of nodes)), st).
Proof.
  induction nodes as [|node nodes IH]; intros found st Hplain; simpl.
  - unfold hret. by rewrite app_nil_r.
  - apply Forall_cons in Hplain as [Hnode Hnodes].
    rewrite hbind_run. unfold lift at 1. rewrite collect_model_plain by done.
    rewrite IH by done. rewrite <-app_assoc. f_equal. f_equal. f_equal.
    by destruct (checkpoint_of node).
Qed.

Lemma hfor_cons {X Acc} (x : X) (xs : list X) (body : X → Acc → Handler Acc) acc st :
  hfor (x :: xs) body acc st =
  match body x acc st with
  | (Returns acc', st') => hfor xs body acc' st'
  | (Raises e, st') => (Raises e, st')
  | (Blocks, st') => (Blocks, st')
  end.
Proof. done. Qed.

(** One turn of the loop over the models found. *)
Lemma insert_step_run (workflow_id : Z) c (name : Value) st :
  (name <- lift (py_getitem (model_entry name) "name") ;;
   type <- lift (py_getitem (model_entry name) "type") ;;
   required <- lift (py_getitem (model_entry name) "required") ;;
   execute c sql_insert_model [PInt workflow_id; name; type; required] >>
   hret ()) st
  = (match (conn_execute c sql_insert_model
              [PInt workflow_id; name; PStr "checkpoint"; PBool true] (db st)).1 with
     | Return _ => Returns ()
     | Raise e => Raises (LibraryError e)
     end,
     advance st
       (conn_execute c sql_insert_model
          [PInt workflow_id; name; PStr "checkpoint"; PBool true] (db st)).2 []
       [{| q_conn := c; q_method := Execute; q_sql := sql_insert_model;
           q_args := [PInt workflow_id; name; PStr "checkpoint"; PBool true] |}]).
Proof.
  do 3 (rewrite hbind_run; unfold lift at 1; simpl).
  rewrite hbind_run. unfold execute. rewrite driver_run.
  by destruct (conn_execute c sql_insert_model _ (db st)) as [[status|e] d1].
Qed.

Lemma insert_loop_run (workflow_id : Z) c (names : list Value) : ∀ st,
  (∀ args d, returned (conn_execute c sql_insert_model args d).1 = true) →
  ∃ d',
    hfor (model_entry <$> names)
      (λ model _,
         name <- lift (py_getitem model "name") ;;
         type <- lift (py_getitem model "type") ;;
         required <- lift (py_getitem model "required") ;;
         execute c sql_insert_model [PInt workflow_id; name; type; required] >>
         hret ())
      () st
    = (Returns (),
       advance st d' []
         ((λ name, {| q_conn := c; q_method := Execute; q_sql := sql_insert_model;
                      q_args := [PInt workflow_id; name; PStr "checkpoint"; PBool true] |})
            <$> names)).
Proof.
  intros st Hok. revert st. induction names as [|name names IH]; intros st.
  - exists (db st). simpl. unfold hret, advance. destruct st. simpl.
    by rewrite !app_nil_r.
  - rewrite !fmap_cons, hfor_cons, insert_step_run.
    specialize (Hok [PInt workflow_id; name; PStr "checkpoint"; PBool true] (db st)).
    destruct (conn_execute c sql_insert_model _ (db st)) as [[status|e] d1]; [|done].
    simpl. destruct (IH (advance st d1 []
                           [{| q_conn := c; q_method := Execute; q_sql := sql_insert_model;
                               q_args := [PInt workflow_id; name; PStr "checkpoint";
                                          PBool true] |}])) as [d' ->].
    exists d'. by rewrite advance_advance.
Qed.

(** X19. [sync_workflow_models] on a workflow whose JSON is a dictionary
    with a list of plain nodes under [nodes], or with no [nodes] at all:
    the models found are the [ckpt_name] of the inputs of the nodes that
    have one, in the order of the nodes, each marked as a required
    checkpoint; one INSERT is made per model found, in that order, after
    the SELECT; the answer carries the models and their number.  The
    INSERTs are assumed to go through. *)
Theorem sync_collects_checkpoints (workflow_id : Z) st c pool1 row d1 text d nodes :
  fastapi_server.get_db_connection (db_pool st) = (fastapi_server.Granted c, pool1) →
  conn_fetchrow c "SELECT * FROM comfy_workflows WHERE id = $1" [PInt workflow_id] (db st)
  = (Return (Some row), d1) →
  dict_get row "workflow_json" = Some text →
  loads (if py_truthy opaque_truthy text then text else PStr "{}") = Return (PDict d) →
  (dict_get d "nodes" = Some (PList nodes) ∨ (dict_get d "nodes" = None ∧ nodes = [])) →
  Forall plain_node nodes →
  (∀ args d0, returned (conn_execute c sql_insert_model args d0).1 = true) →
  let names := omap checkpoint_of nodes in
  ∃ d',
    sync_workflow_models workflow_id st
    = (Returns (PDict [("message", PStr "Models synchronized successfully");
                       ("modelsFound", PInt (Z.of_nat (length names)));
                       ("models", PList (model_entry <$> names))]),
       with_pool
         (advance st d' []
            ({| q_conn := c; q_method := Fetchrow;
                q_sql := "SELECT * FROM comfy_workflows WHERE id = $1";
                q_args := [PInt workflow_id] |}
             :: ((λ name, {| q_conn := c; q_method := Execute; q_sql := sql_insert_model;
                             q_args := [PInt workflow_id; name; PStr "checkpoint";
                                        PBool true] |}) <$> names)))
         (fastapi_server.release_db_connection c pool1).2)
    ∧ length names ≤ length nodes.
Proof.
  intros Hget Hfetch Hjson Hloads Hnodes Hplain Hok. cbv zeta.
  unfold sync_workflow_models.
  rewrite (with_connection_granted _ st c pool1)
    by (try done; intros conn; unfold fetchrow, execute; neutral).
  match goal with |- context [((?b).1, _)] => destruct b as [r0 st0] eqn:Hbody end.
  simpl. rewrite hbind_run in Hbody. unfold fetchrow in Hbody.
  rewrite driver_run, Hfetch in Hbody. simpl in Hbody.
  assert (row_truthy (Some row) = true) as Htruthy by by destruct row.
  simpl in Htruthy. rewrite Htruthy in Hbody.
  simpl in Hbody. unfold try_catch in Hbody.
  rewrite hbind_run in Hbody. unfold lift at 1 in Hbody. simpl in Hbody.
  rewrite Hjson in Hbody.
  rewrite hbind_run in Hbody. unfold library at 1 in Hbody. rewrite Hloads in Hbody.
  rewrite hbind_run in Hbody. unfold lift at 1 in Hbody. simpl in Hbody.
  rewrite hbind_run in Hbody.
  assert (∀ s0 : State,
    ((if bool_decide (is_Some (dict_get d "nodes")) then
        nodes0 <- lift (py_getitem (PDict d) "nodes") ;;
        items <- lift (py_iter nodes0) ;;
        hfor items (λ node found, lift (collect_model node found)) []
      else hret []) : Handler (list Value)) s0
    = (Returns (model_entry <$> omap checkpoint_of nodes), s0)) as Hcollect.
  { intros s0. destruct Hnodes as [Hlist | [Hnone ->]].
    - rewrite Hlist. rewrite bool_decide_eq_true_2 by by eexists.
      rewrite hbind_run. unfold lift at 1. simpl. rewrite Hlist.
      rewrite hbind_run. unfold lift at 1. simpl.
      by rewrite collect_loop_plain.
    - rewrite Hnone. rewrite bool_decide_eq_false_2 by by intros [? ?]. done. }
  rewrite Hcollect in Hbody.
  rewrite hbind_run in Hbody.
  match type of Hbody with context [hfor _ _ () ?s] =>
    destruct (insert_loop_run workflow_id c (omap checkpoint_of nodes) s Hok) as [d' Hins]
  end.
  rewrite Hins in Hbody. simpl in Hbody.
  injection Hbody as <- <-.
  exists d'. split.
  - rewrite length_fmap. by rewrite advance_advance.
  - clear. induction nodes as [|node nodes IH]; [done|].
    change (omap checkpoint_of (node :: nodes))
      with (match checkpoint_of node with
            | Some name => name :: omap checkpoint_of nodes
            | None => omap checkpoint_of nodes
            end).
    destruct (checkpoint_of node); simpl length; lia.
Qed.

(** X20. What [sync_workflow_models] can answer with.  An exception of
    the SELECT leaves the handler as it is; a workflow that is not found
    gives 404 after that single call; past that point every exception,
    be it of [json.loads], of the shape of the JSON or of an INSERT, is
    turned into a 500 whose detail starts with [Failed to sync models: ]. *)
Theorem sync_failures_wrapped (workflow_id : Z) st c pool1 :
  fastapi_server.get_db_connection (db_pool st) = (fastapi_server.Granted c, pool1) →
  let q := {| q_conn := c; q_method := Fetchrow;
              q_sql := "SELECT * FROM comfy_workflows WHERE id = $1";
              q_args := [PInt workflow_id] |} in
  let released := (fastapi_server.release_db_connection c pool1).2 in
  match conn_fetchrow c (q_sql q) (q_args q) (db st) with
  | (Raise e, d1) =>
      sync_workflow_models workflow_id st
      = (Raises (LibraryError e), with_pool (advance st d1 [] [q]) released)
  | (Return row, d1) =>
      if row_truthy row
      then (∃ answer, (sync_workflow_models workflow_id st).1 = Returns answer)
           ∨ (∃ e, (sync_workflow_models workflow_id st).1
                   = Raises (HTTPException 500 ("Failed to sync models: " +:+ exn_text e)))
      else sync_workflow_models workflow_id st
           = (Raises (HTTPException 404 "Workflow not found"),
              with_pool (advance st d1 [] [q]) released)
  end.
Proof.
  intros Hget. cbv zeta. unfold sync_workflow_models.
  rewrite (with_connection_granted _ st c pool1)
    by (try done; intros conn; unfold fetchrow, execute; neutral).
  match goal with |- context [((?b).1, _)] => destruct b as [r0 st0] eqn:Hbody end.
  simpl. rewrite hbind_run in Hbody. unfold fetchrow in Hbody.
  rewrite driver_run in Hbody. simpl in Hbody.
  destruct (conn_fetchrow c _ [PInt workflow_id] (db st)) as [[row|e] d1]; simpl in Hbody;
    [|by injection Hbody as <- <-].
  destruct (row_truthy row); simpl in Hbody; [|by injection Hbody as <- <-].
  unfold try_catch in Hbody.
  match type of Hbody with context [match ?b ?s with _ => _ end] =>
    assert (pool_neutral b) as Hneutral by (unfold execute; neutral);
    destruct (Hneutral s) as (_ & Hblocks & _);
    destruct (b s) as [[answer|e|] st1]
  end; simpl in *.
  - left. injection Hbody as <- _. by eexists.
  - right. injection Hbody as <- _. by eexists.
  - done.
Qed.

Lemma dict_set_get (d : list (string * Value)) k v :
  dict_get (dict_set d k v) k = Some v.
Proof.
  induction d as [|[k' v'] d IH]; simpl.
  - by rewrite String.eqb_refl.
  - destruct (String.eqb k k') eqn:Hk; simpl; rewrite Hk; [done | exact IH].
Qed.

Lemma dict_set_get_ne (d : list (string * Value)) k k0 v :
  k0 ≠ k → dict_get (dict_set d k v) k0 = dict_get d k0.
Proof.
  intros Hne. induction d as [|[k' v'] d IH]; simpl.
  - by apply String.eqb_neq in Hne as ->.
  - destruct (String.eqb k k') eqn:Hk; simpl.
    + apply String.eqb_eq in Hk as ->. by apply String.eqb_neq in Hne as ->.
    + by rewrite IH.
Qed.

Lemma dict_set_keys (d : list (string * Value)) k v :
  is_Some (dict_get d k) → (dict_set d k v).*1 = d.*1.
Proof.
  induction d as [|[k' v'] d IH]; simpl.
  - by intros [? ?].
  - destruct (String.eqb k k') eqn:Hk; simpl; [done|].
    intros Hsome. f_equal. by apply IH.
Qed.

Lemma append_loop_run {X} (f : X → Value) (xs : list X) : ∀ (acc : list Value) st,
  hfor (E := E) xs (λ x acc, hret (acc ++ [f x])) acc st
  = (Returns (acc ++ (f <$> xs)), st).
Proof.
  induction xs as [|x xs IH]; intros acc st; simpl.
  - unfold hret. by rewrite app_nil_r.
  - rewrite hbind_run. unfold hret at 1. rewrite IH. by rewrite <-app_assoc.
Qed.

(** X21. [get_comfy_generations] answers with one dictionary per row
    fetched, in the order fetched, after a single call on the
    connection.  A row keeps its columns and their order; only a textual
    [image_urls] is changed, into what [json.loads] makes of it or into
    the empty list when [json.loads] raises, so that a text that does not
    parse never fails the request. *)
Theorem generations_parse_image_urls st c pool1 rows d1 :
  fastapi_server.get_db_connection (db_pool st) = (fastapi_server.Granted c, pool1) →
  conn_fetch c "SELECT * FROM comfy_generations ORDER BY created_at DESC LIMIT 50" []
    (db st) = (Return rows, d1) →
  get_comfy_generations st
  = (Returns (PList ((λ row, PDict (parse_image_urls row)) <$> rows)),
     with_pool
       (advance st d1 []
          [{| q_conn := c; q_method := Fetch;
              q_sql := "SELECT * FROM comfy_generations ORDER BY created_at DESC LIMIT 50";
              q_args := [] |}])
       (fastapi_server.release_db_connection c pool1).2)
  ∧ ∀ row,
      (parse_image_urls row).*1 = row.*1
      ∧ (∀ column, column ≠ "image_urls" →
                   dict_get (parse_image_urls row) column = dict_get row column)
      ∧ match dict_get row "image_urls" with
        | Some (PStr text) =>
            dict_get (parse_image_urls row) "image_urls"
            = Some (match loads (PStr text) with
                    | Return parsed => parsed
                    | Raise _ => PList []
                    end)
        | _ => parse_image_urls row = row
        end.
Proof.
  intros Hget Hfetch. split.
  - unfold get_comfy_generations.
    rewrite (with_connection_granted _ st c pool1)
      by (try done; intros conn; unfold fetch; neutral).
    match goal with |- context [((?b).1, _)] => destruct b as [r0 st0] eqn:Hbody end.
    simpl. rewrite hbind_run in Hbody. unfold fetch in Hbody.
    rewrite driver_run, Hfetch in Hbody. simpl in Hbody.
    rewrite hbind_run in Hbody.
    rewrite (append_loop_run (λ row, PDict (parse_image_urls row))) in Hbody.
    simpl in Hbody. by injection Hbody as <- <-.
  - intros row. unfold parse_image_urls.
    destruct (dict_get row "image_urls") as [[| | |text| | |]|] eqn:Hurls; try done.
    assert (is_Some (dict_get row "image_urls")) as Hsome by by eexists.
    destruct (loads (PStr text)) as [parsed|e]; split_and!;
      try (by apply dict_set_keys); try apply dict_set_get;
      intros column Hcolumn; by apply dict_set_get_ne.
Qed.
(** ** The handlers that only read *)

Lemma listing_run (sql : string) st c pool1 :
  fastapi_server.get_db_connection (db_pool st) = (fastapi_server.Granted c, pool1) →
  (conn <- acquire_connection ;;
   try_finally (rows <- fetch conn sql [] ;; hret (PList (PDict <$> rows)))
     (release_connection conn)) st
  = (match (conn_fetch c sql [] (db st)).1 with
     | Return rows => Returns (PList (PDict <$> rows))
     | Raise e => Raises (LibraryError e)
     end,
     with_pool
       (advance st (conn_fetch c sql [] (db st)).2 []
          [{| q_conn := c; q_method := Fetch; q_sql := sql; q_args := [] |}])
       (fastapi_server.release_db_connection c pool1).2).
Proof.
  intros Hget.
  rewrite (with_connection_granted _ st c pool1)
    by (try done; intros conn; unfold fetch; neutral).
  rewrite hbind_run. unfold fetch. rewrite driver_run.
  by destruct (conn_fetch c sql [] (db st)) as [[rows|e] d].
Qed.

(** X22. The routes that read, and [create_content], give their
    connection back however they end: [get_stats], [get_content],
    [create_content], [get_platforms], [get_accounts], [get_workflows],
    [get_workflows_with_models] and [get_vast_servers] acquire one
    connection and release it in [finally], and wait without a call
    while the pool is exhausted. *)
Theorem read_handlers_give_back (request : fastapi_reads.ContentRequest) st :
  gives_back fastapi_reads.get_stats st
  ∧ gives_back fastapi_reads.get_content st
  ∧ gives_back (fastapi_reads.create_content request) st
  ∧ gives_back fastapi_reads.get_platforms st
  ∧ gives_back fastapi_reads.get_accounts st
  ∧ gives_back fastapi_reads.get_workflows st
  ∧ gives_back fastapi_reads.get_workflows_with_models st
  ∧ gives_back fastapi_reads.get_vast_servers st.
Proof.
  split_and!; apply gives_back_intro; intros conn;
    unfold fetch, fetchval, fetchrow; neutral.
  destruct a; neutral.
Qed.

(** X23. A listing route answers with the rows of one [fetch] of its
    statement, each row as a dictionary and in the order of the driver,
    whether it is written as a comprehension or, in
    [get_workflows_with_models], as a loop that appends.  An exception of
    the driver reaches the caller as it is, and the connection is given
    back in both cases; no other call is made on the connection. *)
Theorem listings_return_rows st c pool1 (h : Handler Value) (sql : string) :
  fastapi_server.get_db_connection (db_pool st) = (fastapi_server.Granted c, pool1) →
  (h, sql) ∈ fastapi_reads.listings →
  h st
  = (match (conn_fetch c sql [] (db st)).1 with
     | Return rows => Returns (PList (PDict <$> rows))
     | Raise e => Raises (LibraryError e)
     end,
     with_pool
       (advance st (conn_fetch c sql [] (db st)).2 []
          [{| q_conn := c; q_method := Fetch; q_sql := sql; q_args := [] |}])
       (fastapi_server.release_db_connection c pool1).2).
Proof.
  intros Hget Hin. unfold fastapi_reads.listings in Hin.
  repeat (apply elem_of_cons in Hin as [Heq|Hin]; [injection Heq as -> ->|]);
    [..|by apply elem_of_nil in Hin];
    try (by apply listing_run).
  unfold fastapi_reads.get_workflows_with_models.
  rewrite (with_connection_granted _ st c pool1)
    by (try done; intros conn; unfold fetch; neutral).
  rewrite hbind_run. unfold fetch. rewrite driver_run.
  destruct (conn_fetch c _ [] (db st)) as [[rows|e] d]; [|done].
  cbn [fst snd]. rewrite hbind_run, (append_loop_run PDict). done.
Qed.
End handler_claims.

(** ** Concrete runs of the handlers on the database in memory *)

Section memdb_runs.
Import handler fastapi_handlers.

Lemma memdb_execute_returns c sql args (d : gmap Z string) :
  returned (conn_execute c sql args d).1 = true.
Proof.
  simpl. destruct args as [|[| | | | | |] [|]]; try done.
  destruct (String.eqb sql _); [|done]. by destruct (d !! z).
Qed.

(** The first request of a process creates the pool and is handed
    connection 0. *)
Definition first_pool : option fastapi_server.Pool :=
  (fastapi_server.get_db_connection None).2.

Lemma delete_workflow_outcomes_witness :
  (delete_workflow 4 (memdb.boot memdb.one_workflow)).1
  = Raises (HTTPException 404 "Workflow not found").
Proof.
  rewrite (delete_workflow_outcomes (Backend0 := memdb.backend) 4
             (memdb.boot memdb.one_workflow) 0 first_pool eq_refl).
  reflexivity.
Defined.

Lemma login_refusals_alike_witness :
  (login {| login_email := "a@b.c"; login_password := "pw" |} (memdb.boot ∅)).1
  = Raises (HTTPException 401 "Invalid email or password").
Proof.
  destruct (login_refusals_alike (Backend0 := memdb.backend)
              {| login_email := "a@b.c"; login_password := "pw" |}
              (memdb.boot ∅) 0 first_pool None ∅ eq_refl eq_refl) as [Hrefused _].
  rewrite Hrefused; [reflexivity | by left].
Defined.

Lemma signup_checks_first_witness :
  signup {| firstName := "A"; lastName := "B"; email := "a@b.c"; password := "pw";
            confirmPassword := "pw2"; agreeToTerms := false |} (memdb.boot ∅)
  = (Raises (HTTPException 400 "Passwords don't match"), memdb.boot ∅).
Proof.
  apply (signup_checks_first (Backend0 := memdb.backend)). discriminate.
Defined.

Lemma sync_collects_checkpoints_witness :
  (sync_workflow_models 3 (memdb.boot memdb.one_workflow)).1
  = Returns (PDict [("message", PStr "Models synchronized successfully");
                    ("modelsFound", PInt 1);
                    ("models", PList [model_entry (PStr "sd15.ckpt")])]).
Proof.
  destruct (sync_collects_checkpoints (Backend0 := memdb.backend) 3
              (memdb.boot memdb.one_workflow) 0 first_pool
              [("id", PInt 3); ("workflow_json", PStr "sample")]
              memdb.one_workflow (PStr "sample")
              [("nodes", PList memdb.sample_nodes)] memdb.sample_nodes
              eq_refl ltac:(vm_compute; reflexivity) eq_refl eq_refl (or_introl eq_refl)
              ltac:(repeat constructor)
              (λ args d0, memdb_execute_returns 0 _ args d0))
    as (d' & Hrun & _).
  rewrite Hrun. reflexivity.
Defined.

Lemma sync_failures_wrapped_witness :
  sync_workflow_models 9 (memdb.boot memdb.one_workflow)
  = (Raises (HTTPException 404 "Workflow not found"),
     with_pool
       (advance (memdb.boot memdb.one_workflow) memdb.one_workflow []
          [{| q_conn := 0; q_method := Fetchrow;
              q_sql := "SELECT * FROM comfy_workflows WHERE id = $1";
              q_args := [PInt 9] |}])
       (fastapi_server.release_db_connection 0 first_pool).2).
Proof.
  exact (sync_failures_wrapped (Backend0 := memdb.backend) 9
           (memdb.boot memdb.one_workflow) 0 first_pool eq_refl).
Defined.

Lemma generations_parse_image_urls_witness :
  (get_comfy_generations (memdb.boot ∅)).1
  = Returns (PList [PDict [("id", PInt 1); ("image_urls", PDict [])];
                    PDict [("id", PInt 2); ("image_urls", PList [])];
                    PDict [("id", PInt 3); ("image_urls", PNone)]]).
Proof.
  destruct (generations_parse_image_urls (Backend0 := memdb.backend)
              (memdb.boot ∅) 0 first_pool _ ∅ eq_refl eq_refl) as [Hrun _].
  rewrite Hrun. reflexivity.
Defined.

Lemma listings_return_rows_witness :
  fastapi_reads.get_workflows_with_models (memdb.boot ∅)
  = (Returns (PList [PDict [("id", PInt 1); ("image_urls", PStr "{}")];
                     PDict [("id", PInt 2); ("image_urls", PStr "not json")];
                     PDict [("id", PInt 3); ("image_urls", PNone)]]),
     with_pool
       (advance (memdb.boot ∅) ∅ []
          [{| q_conn := 0; q_method := Fetch;
              q_sql := fastapi_reads.sql_select_workflows_with_models;
              q_args := [] |}])
       (fastapi_server.release_db_connection 0 first_pool).2).
Proof.
  exact (listings_return_rows (Backend0 := memdb.backend) (memdb.boot ∅) 0 first_pool
           fastapi_reads.get_workflows_with_models
           fastapi_reads.sql_select_workflows_with_models eq_refl
           ltac:(unfold fastapi_reads.listings;
                 do 4 (apply elem_of_cons; right); apply elem_of_cons; by left)).
Defined.

(** On the database that refuses to write, the first INSERT raises: the
    error is printed, the second INSERT is not made and connection 0
    stays in use. *)
Lemma init_database_swallows_and_leaks_witness :
  let r := init_database readonlydb.boot in
  r.1 = Returns ()
  ∧ db_pool r.2 = first_pool
  ∧ fastapi_server.in_use <$> db_pool r.2 = Some [0]
  ∧ console r.2 = ["[database] Database connection established";
                   "[database] Error: permission denied"]
  ∧ q_sql <$> queries r.2
    = ["SELECT 1"; "SELECT COUNT(*) FROM users"; sql_insert_default_user].
Proof.
  cbv zeta.
  destruct (init_database_swallows_and_leaks (Backend0 := readonlydb.backend)
              readonlydb.boot) as [_ Hgranted].
  destruct (Hgranted 0 first_pool eq_refl) as (_ & _ & Hrun).
  rewrite Hrun. vm_compute. done.
Defined.

(** A call of [init_database] on a database that answers: the
    connection is given back. *)
Example init_database_scenario :
  (init_database (memdb.boot ∅)).1 = Returns ()
  ∧ db_pool (init_database (memdb.boot ∅)).2
    = (fastapi_server.release_db_connection 0 first_pool).2.
Proof. vm_compute. done. Qed.
End memdb_runs.

(** * The database address *)

Section address_claims.
Import py_str.

Lemma str_prefix_nil (s : string) : String.prefix EmptyString s = true.
Proof. by destruct s. Qed.

Lemma str_prefix_cons (a b : Ascii.ascii) (p s : string) :
  String.prefix (String a p) (String b s)
  = if decide (a = b) then String.prefix p s else false.
Proof. simpl. destruct (Ascii.ascii_dec a b); by case_decide. Qed.

Lemma str_prefix_app (p r : string) : String.prefix p (p +:+ r) = true.
Proof.
  induction p as [|c p IH]; [apply str_prefix_nil|].
  change (String c p +:+ r) with (String c (p +:+ r)).
  rewrite str_prefix_cons. by case_decide.
Qed.

Lemma str_prefix_split (p s : string) :
  String.prefix p s = true → ∃ r, s = p +:+ r.
Proof.
  revert s. induction p as [|c p IH]; intros s Hp; [by exists s|].
  destruct s as [|b s]; [done|]. rewrite str_prefix_cons in Hp.
  case_decide as Hab; [|done]. subst b.
  destruct (IH s Hp) as [r ->]. by exists r.
Qed.

Lemma str_prefix_trans (p t s : string) :
  String.prefix p t = true → String.prefix t s = true → String.prefix p s = true.
Proof.
  revert t s. induction p as [|c p IH]; intros t s Hpt Hts; [apply str_prefix_nil|].
  destruct t as [|b t]; [done|]. destruct s as [|a s]; [done|].
  rewrite str_prefix_cons in *. repeat case_decide; simplify_eq; eauto.
Qed.

(** ** [in] on texts *)

Lemma is_substring_cons (needle : string) (c : Ascii.ascii) (s : string) :
  is_substring needle (String c s)
  = String.prefix needle (String c s) || is_substring needle s.
Proof. done. Qed.

Lemma is_substring_prefix (needle t s : string) :
  is_substring needle t = true → String.prefix t s = true →
  is_substring needle s = true.
Proof.
  revert s. induction t as [|c t IH]; intros s Hin Hts.
  - simpl in Hin. rewrite orb_false_r in Hin.
    destruct needle; [|done]. destruct s; by rewrite ?str_prefix_nil.
  - destruct s as [|a s]; [done|]. rewrite str_prefix_cons in Hts.
    case_decide; [subst a|done].
    rewrite is_substring_cons in *. apply orb_true_iff in Hin as [Hin|Hin].
    + rewrite (str_prefix_trans needle (String c t) (String c s)); [done..|].
      rewrite str_prefix_cons. by case_decide.
    + rewrite (IH s Hin Hts). apply orb_true_r.
Qed.

Lemma is_substring_tail (needle p r : string) :
  is_substring needle (p +:+ r) = false → is_substring needle r = false.
Proof.
  induction p as [|c p IH]; [done|].
  change (String c p +:+ r) with (String c (p +:+ r)).
  rewrite is_substring_cons. by intros [_ ?]%orb_false_iff; apply IH.
Qed.

(** A text that lacks the first character of [needle] is passed over. *)
Lemma is_substring_pass (c : Ascii.ascii) (needle' p r : string) :
  c ∉ String.list_ascii_of_string p →
  is_substring (String c needle') (p +:+ r) = is_substring (String c needle') r.
Proof.
  induction p as [|a p IH]; intros Hc; [done|].
  change (String a p +:+ r) with (String a (p +:+ r)).
  change (String.list_ascii_of_string (String a p))
    with (a :: String.list_ascii_of_string p) in Hc.
  apply not_elem_of_cons in Hc as [Hca Hc].
  rewrite is_substring_cons, str_prefix_cons. case_decide; [done|]. by apply IH.
Qed.

(** ** [split] *)

Lemma split_first_prefix (sep s : string) :
  String.prefix (split_first sep s) s = true.
Proof.
  induction s as [|c s IH]; [done|]. unfold split_first; fold split_first.
  destruct (String.prefix sep (String c s)); [done|].
  rewrite str_prefix_cons. by case_decide.
Qed.

Lemma split_first_absent (sep s : string) :
  is_substring sep s = false → split_first sep s = s.
Proof.
  induction s as [|c s IH]; [done|]. rewrite is_substring_cons.
  intros [Hhere Hlater]%orb_false_iff. unfold split_first; fold split_first.
  rewrite Hhere. f_equal. by apply IH.
Qed.

Lemma split_first_spec (sep s : string) :
  sep ≠ EmptyString →
  ∃ dropped,
    s = split_first sep s +:+ dropped
    ∧ (dropped = EmptyString ∨ String.prefix sep dropped = true)
    ∧ is_substring sep (split_first sep s) = false.
Proof.
  intros Hsep. induction s as [|a s (dropped & Heq & Hdropped & Hnone)].
  { exists EmptyString. split_and!; [done|by left|by destruct sep]. }
  unfold split_first; fold split_first.
  destruct (String.prefix sep (String a s)) eqn:Hhere.
  { exists (String a s). split_and!; [done|by right|by destruct sep]. }
  exists dropped. split_and!; [|done|].
  - change (String a s = String a (split_first sep s +:+ dropped)).
    by f_equal.
  - rewrite is_substring_cons, Hnone, orb_false_r.
    destruct (String.prefix _ (String a (split_first _ s))) eqn:Hcut; [|done].
    rewrite <- Hhere. symmetry. eapply str_prefix_trans; [exact Hcut|].
    rewrite str_prefix_cons. case_decide; [|done]. apply split_first_prefix.
Qed.

Lemma split_first_pass (c : Ascii.ascii) (sep' p r : string) :
  c ∉ String.list_ascii_of_string p →
  split_first (String c sep') (p +:+ r) = p +:+ split_first (String c sep') r.
Proof.
  induction p as [|a p IH]; intros Hc; [done|].
  change (String a p +:+ r) with (String a (p +:+ r)).
  change (String.list_ascii_of_string (String a p))
    with (a :: String.list_ascii_of_string p) in Hc.
  apply not_elem_of_cons in Hc as [Hca Hc].
  unfold split_first; fold split_first. rewrite str_prefix_cons.
  case_decide; [done|].
  change (String a (split_first (String c sep') (p +:+ r))
          = String a (p +:+ split_first (String c sep') r)).
  f_equal. by apply IH.
Qed.

(** ** [replace] *)

Lemma replace_from_skip old new count (p r : string) :
  replace_from old new count (String.length p) (p +:+ r)
  = replace_from old new count 0 r.
Proof. induction p as [|a p IH]; [done|]. exact IH. Qed.

Lemma replace_from_spent old new (s : string) :
  replace_from old new (Some 0) 0 s = s.
Proof. induction s as [|a s IH]; [done|]. simpl. by rewrite IH. Qed.

Lemma replace_from_absent old new count (s : string) :
  is_substring old s = false → replace_from old new count 0 s = s.
Proof.
  induction s as [|a s IH]; [done|]. rewrite is_substring_cons.
  intros [Hhere Hlater]%orb_false_iff.
  unfold replace_from; fold replace_from.
  rewrite Hhere, andb_false_r. f_equal. by apply IH.
Qed.

(** An occurrence at the head is replaced and the reading goes on
    behind it. *)
Lemma replace_from_hit (c : Ascii.ascii) (old' new : string) count (r : string) :
  may_replace count = true →
  replace (String c old') new count (String c old' +:+ r)
  = new +:+ replace_from (String c old') new (Nat.pred <$> count) 0 r.
Proof.
  intros Hmay. unfold replace.
  change (String c old' +:+ r) with (String c (old' +:+ r)).
  unfold replace_from; fold replace_from.
  rewrite Hmay. change (String c (old' +:+ r)) with (String c old' +:+ r).
  rewrite str_prefix_app. simpl andb. cbv iota.
  replace (String.length (String c old') - 1) with (String.length old')
    by (simpl; lia).
  by rewrite replace_from_skip.
Qed.

(** ** The two modules *)

Ltac lacks_char := apply (bool_decide_unpack _); vm_compute; exact I.

Lemma split_first_either (sep s : string) :
  (if is_substring sep s then split_first sep s else s) = split_first sep s.
Proof.
  destruct (is_substring sep s) eqn:Hin; [done|]. by rewrite split_first_absent.
Qed.

Lemma database_url_plain (rest : string) :
  database.DATABASE_URL (Some ("postgresql://" +:+ rest))
  = "postgresql+asyncpg://" +:+ split_first "?sslmode=" rest.
Proof.
  unfold database.DATABASE_URL. cbv zeta.
  change (default _ (Some ?u)) with u. rewrite str_prefix_app.
  rewrite replace_from_hit by done. change (Nat.pred <$> Some 1) with (Some 0).
  rewrite replace_from_spent, split_first_either.
  by rewrite split_first_pass by lacks_char.
Qed.

Lemma database_url_other (url : string) :
  String.prefix "postgresql://" url = false →
  database.DATABASE_URL (Some url) = split_first "?sslmode=" url.
Proof.
  intros Hscheme. unfold database.DATABASE_URL. cbv zeta.
  change (default _ (Some ?u)) with u. by rewrite Hscheme, split_first_either.
Qed.

Lemma settings_agree (env : option string) :
  fastapi_settings.DATABASE_URL env = database.DATABASE_URL env.
Proof. done. Qed.

Lemma split_first_keeps_absent (needle sep s : string) :
  is_substring needle s = false → is_substring needle (split_first sep s) = false.
Proof.
  intros Habsent. destruct (is_substring needle (split_first sep s)) eqn:Hin; [|done].
  rewrite <- Habsent. symmetry.
  eapply is_substring_prefix; [exact Hin|apply split_first_prefix].
Qed.

(** The address of the pool is the configured address cut before its
    first [?sslmode=]. *)
Lemma asyncpg_url_cut (url : string) :
  is_substring "postgresql+asyncpg://" url = false →
  fastapi_settings.asyncpg_url (Some url) = split_first "?sslmode=" url.
Proof.
  intros Habsent. unfold fastapi_settings.asyncpg_url. rewrite settings_agree.
  destruct (String.prefix "postgresql://" url) eqn:Hscheme.
  - apply str_prefix_split in Hscheme as [rest ->].
    apply is_substring_tail in Habsent.
    rewrite database_url_plain, replace_from_hit by done.
    rewrite replace_from_absent by by apply split_first_keeps_absent.
    by rewrite (split_first_pass _ _ "postgresql://")
      by lacks_char.
  - rewrite database_url_other by done. unfold replace.
    by rewrite replace_from_absent by by apply split_first_keeps_absent.
Qed.

(** X24. The address [asyncpg.create_pool] is given is the configured
    [DATABASE_URL] cut before its first [?sslmode=]: nothing else of the
    address changes, whatever stood behind [?sslmode=] is dropped with
    it, and the result holds no [?sslmode=].  This holds for every
    address in which [postgresql+asyncpg://] does not occur. *)
Theorem asyncpg_url_cuts_sslmode (url : string) :
  is_substring "postgresql+asyncpg://" url = false →
  ∃ dropped,
    url = fastapi_settings.asyncpg_url (Some url) +:+ dropped
    ∧ (dropped = EmptyString ∨ String.prefix "?sslmode=" dropped = true)
    ∧ is_substring "?sslmode=" (fastapi_settings.asyncpg_url (Some url)) = false
    ∧ (is_substring "?sslmode=" url = false
       → fastapi_settings.asyncpg_url (Some url) = url).
Proof.
  intros Habsent. rewrite (asyncpg_url_cut url Habsent).
  destruct (split_first_spec "?sslmode=" url ltac:(done)) as (dropped & Heq & Hdropped & Hnone).
  exists dropped. split_and!; [done..|]. apply split_first_absent.
Qed.

(** X25. The address handed to SQLAlchemy never holds [?sslmode=];
    [src/server/database.py] and [src/server/fastapi_server.py] compute
    the same one.  A [postgresql://] address gets the scheme
    [postgresql+asyncpg://] and is cut before its first [?sslmode=]; an
    address of any other scheme keeps its scheme.  The pool treats the
    schemes [postgresql://] and [postgresql+asyncpg://] alike, and
    with the variable unset both modules name the local database. *)
Theorem database_url_rewritten (env : option string) :
  is_substring "?sslmode=" (database.DATABASE_URL env) = false
  ∧ fastapi_settings.DATABASE_URL env = database.DATABASE_URL env
  ∧ (∀ rest, ∃ kept dropped,
       rest = kept +:+ dropped
       ∧ (dropped = EmptyString ∨ String.prefix "?sslmode=" dropped = true)
       ∧ database.DATABASE_URL (Some ("postgresql://" +:+ rest))
         = "postgresql+asyncpg://" +:+ kept
       ∧ (is_substring "postgresql+asyncpg://" rest = false
          → fastapi_settings.asyncpg_url (Some ("postgresql://" +:+ rest))
            = "postgresql://" +:+ kept
            ∧ fastapi_settings.asyncpg_url (Some ("postgresql+asyncpg://" +:+ rest))
              = "postgresql://" +:+ kept))
  ∧ (∀ url, String.prefix "postgresql://" url = false →
       String.prefix (database.DATABASE_URL (Some url)) url = true)
  ∧ database.DATABASE_URL None = "postgresql+asyncpg://localhost/socialsync"
  ∧ fastapi_settings.asyncpg_url None = "postgresql://localhost/socialsync".
Proof.
  split_and!; [|done| | |done..].
  - unfold database.DATABASE_URL. cbv zeta. rewrite split_first_either.
    match goal with |- context [split_first _ ?u] =>
      destruct (split_first_spec "?sslmode=" u ltac:(done)) as (_ & _ & _ & Hnone) end.
    exact Hnone.
  - intros rest.
    destruct (split_first_spec "?sslmode=" rest ltac:(done)) as (dropped & Heq & Hdropped & _).
    exists (split_first "?sslmode=" rest), dropped.
    split_and!; [done..|apply database_url_plain|]. intros Habsent.
    unfold fastapi_settings.asyncpg_url.
    rewrite (settings_agree (Some ("postgresql://" +:+ rest))).
    rewrite (settings_agree (Some ("postgresql+asyncpg://" +:+ rest))).
    rewrite database_url_plain.
    rewrite (database_url_other ("postgresql+asyncpg://" +:+ rest)) by done.
    rewrite (split_first_pass _ _ "postgresql+asyncpg://")
      by lacks_char.
    rewrite replace_from_hit by done.
    by rewrite replace_from_absent by by apply split_first_keeps_absent.
  - intros url Hscheme. rewrite database_url_other by done.
    apply split_first_prefix.
Qed.

Lemma asyncpg_url_cuts_sslmode_witness :
  ∃ dropped,
    "postgresql://app:pw@db.example/social?sslmode=require&connect_timeout=10"
    = fastapi_settings.asyncpg_url
        (Some "postgresql://app:pw@db.example/social?sslmode=require&connect_timeout=10")
      +:+ dropped
    ∧ (dropped = EmptyString ∨ String.prefix "?sslmode=" dropped = true)
    ∧ is_substring "?sslmode="
        (fastapi_settings.asyncpg_url
           (Some "postgresql://app:pw@db.example/social?sslmode=require&connect_timeout=10"))
      = false
    ∧ (is_substring "?sslmode="
         "postgresql://app:pw@db.example/social?sslmode=require&connect_timeout=10" = false
       → fastapi_settings.asyncpg_url
           (Some "postgresql://app:pw@db.example/social?sslmode=require&connect_timeout=10")
         = "postgresql://app:pw@db.example/social?sslmode=require&connect_timeout=10").
Proof. apply asyncpg_url_cuts_sslmode. vm_compute. reflexivity. Defined.

(** The address of that run: the query is gone, with the timeout that
    stood behind [sslmode]. *)
Example asyncpg_url_scenario :
  fastapi_settings.asyncpg_url
    (Some "postgresql://app:pw@db.example/social?sslmode=require&connect_timeout=10")
  = "postgresql://app:pw@db.example/social"
  ∧ fastapi_settings.asyncpg_url
      (Some "postgresql://app:pw@db.example/social?connect_timeout=10&sslmode=require")
    = "postgresql://app:pw@db.example/social?connect_timeout=10&sslmode=require".
Proof. vm_compute. done. Qed.
End address_claims.

(** * The request log *)

Section middleware_claims.
Context {Site Time E : Type}.
Context `{!Http Site Time}.
Implicit Types (request : Request) (response : Response) (st : Served Site).

Lemma logged_nil st : logged st [] = st.
Proof. destruct st. unfold logged. simpl. by rewrite app_nil_r. Qed.

Lemma body_excerpt_bound response :
  length (main_middleware.body_excerpt response) ≤ 84.
Proof.
  unfold main_middleware.body_excerpt.
  destruct (body response) as [bytes|]; [|simpl; lia].
  destruct (if String.eqb bytes EmptyString then _ else _) as [body_str|]; [|simpl; lia].
  cbv zeta. case_decide as Hlong.
  - destruct (take 79 body_str ++ [ellipsis]) as [|c l] eqn:Hcut; [simpl; lia|].
    rewrite <- Hcut, length_app, length_app, length_take.
    change (length (lit " :: ")) with 4. change (length [ellipsis]) with 1. lia.
  - destruct body_str as [|c l]; [simpl; lia|].
    rewrite length_app. change (length (lit " :: ")) with 4. lia.
Qed.

(** X26. [log_requests] hands on what the application answered, the
    response or the exception, and changes nothing but the console.  It
    prints one line, and only for a response to a path under [/api].
    The copy of [main.py] prints the line of [fastapi_server.py]
    followed by an excerpt of the body, at most 84 code points long: a
    body of at most 80 code points is quoted whole behind [ :: ], a longer
    one is cut to its first 79 and an ellipsis, and a body that is
    absent, empty or not decodable adds nothing. *)
Theorem log_requests_bounded_excerpt request
    (call_next : Request → Middleware (E := E) Response) st :
  ∃ heads tails,
    fastapi_middleware.log_requests request call_next st
    = ((call_next request st).1, logged (call_next request st).2 heads)
    ∧ main_middleware.log_requests request call_next st
      = ((call_next request st).1,
         logged (call_next request st).2 (zip_with app heads tails))
    ∧ length tails = length heads
    ∧ length heads
      = (if returned (call_next request st).1 && is_api request then 1 else 0)
    ∧ (∀ tail, tail ∈ tails →
         length tail ≤ 84
         ∧ ∃ response, (call_next request st).1 = Return response
             ∧ tail = main_middleware.body_excerpt response
             ∧ (body response = None ∨ body response = Some EmptyString
                ∨ (∃ bytes, body response = Some bytes ∧ decode bytes = None)
                → tail = [])
             ∧ ∀ bytes body_str,
                 body response = Some bytes → bytes ≠ EmptyString →
                 decode bytes = Some body_str → body_str ≠ [] →
                 tail = lit " :: "
                        ++ (if decide (length body_str ≤ 80) then body_str
                            else take 79 body_str ++ [ellipsis])).
Proof.
  unfold fastapi_middleware.log_requests, main_middleware.log_requests. cbv zeta.
  destruct (call_next request st) as [[response|e] st'] eqn:Hnext;
    cbn [fst snd returned andb].
  2:{ exists [], []. change (zip_with app [] []) with (@nil pytext).
      rewrite logged_nil. split_and!; [done..|].
      intros tail Htail. by apply elem_of_nil in Htail. }
  destruct (is_api request).
  2:{ exists [], []. change (zip_with app [] []) with (@nil pytext).
      rewrite logged_nil. split_and!; [done..|].
      intros tail Htail. by apply elem_of_nil in Htail. }
  eexists [_], [main_middleware.body_excerpt response].
  split_and!; [done| |done|done|].
  { cbn [zip_with]. by rewrite <- !app_assoc. }
  intros tail ->%list_elem_of_singleton. split; [apply body_excerpt_bound|].
  exists response. split_and!; [done..| |].
  - unfold main_middleware.body_excerpt.
    intros [-> | [-> | (bytes & -> & Hdecode)]]; [done..|].
    destruct (String.eqb bytes EmptyString); [done|]. by rewrite Hdecode.
  - intros bytes body_str Hbody Hbytes Hdecode Hsome.
    unfold main_middleware.body_excerpt. rewrite Hbody.
    destruct (String.eqb bytes EmptyString) eqn:Hempty.
    { by apply String.eqb_eq in Hempty. }
    rewrite Hdecode. cbv zeta. repeat case_decide; try lia.
    + by destruct (take 79 body_str ++ [ellipsis]) eqn:Hcut;
        [apply app_nil in Hcut as [_ ?]|].
    + by destruct body_str.
Qed.
End middleware_claims.

(** A response of a hundred characters: the line quotes seventy-nine of
    them. *)
Example log_requests_scenario :
  printed (main_middleware.log_requests ticking.get_stats (ticking.answer ticking.hundred)
             {| site := 0; printed := [] |}).2
  = [lit "[express] GET /api/stats 200 in 12ms :: " ++ replicate 79 120%N ++ [ellipsis]]
  ∧ printed (fastapi_middleware.log_requests ticking.get_stats
               (ticking.answer ticking.hundred) {| site := 0; printed := [] |}).2
    = [lit "[express] GET /api/stats 200 in 12ms"].
Proof. vm_compute. done. Qed.
